(** * JA Certificate Generator: name extraction and batch rendering

    A shallow embedding of the [FileParser] and [CertificateGenerator]
    classes of the web interface, followed by the properties of the
    specification that concern them. *)

From Stdlib Require Import List NArith ZArith QArith Lia Bool.
From Stdlib Require Import String Ascii DecimalString Sorted SpecFloat.
From stdpp Require Import base gmap.
Import ListNotations.

(** ** JavaScript strings

    A JavaScript string is a sequence of UTF-16 code units.  The regular
    expressions of the source have no [u] flag, so they work code unit by
    code unit, and so does this model. *)

Module JsString.

Definition char := N.
Definition jsstring := list char.

(** A string literal of the development, read one code unit per character
    (used for ASCII text only). *)
Definition js (s : string) : jsstring :=
  List.map N_of_ascii (list_ascii_of_string s).

Definition LF : char := 10%N.
Definition TAB : char := 9%N.
Definition SPACE : char := 32%N.

Definition in_range (lo hi c : N) : bool := (lo <=? c)%N && (c <=? hi)%N.

(** [[a-zA-Z]] *)
Definition is_letter (c : char) : bool :=
  in_range 65 90 c || in_range 97 122 c.

(** [\d] *)
Definition is_digit (c : char) : bool := in_range 48 57 c.

(** [\w] is [[A-Za-z0-9_]] *)
Definition is_word (c : char) : bool :=
  is_letter c || is_digit c || (c =? 95)%N.

(** [\s], which is also what [trim] removes: the WhiteSpace and
    LineTerminator code points of ECMAScript. *)
Definition is_space (c : char) : bool :=
  in_range 9 13 c || (c =? 32)%N || (c =? 160)%N || (c =? 5760)%N
  || in_range 8192 8202 c || (c =? 8232)%N || (c =? 8233)%N
  || (c =? 8239)%N || (c =? 8287)%N || (c =? 12288)%N || (c =? 65279)%N.

(** [a === b] on strings *)
Fixpoint eqb (a b : jsstring) : bool :=
  match a, b with
  | [], [] => true
  | x :: a', y :: b' => (x =? y)%N && eqb a' b'
  | _, _ => false
  end.

(** Truthiness of a string: [!s] holds for the empty string only. *)
Definition truthy (s : jsstring) : bool :=
  match s with [] => false | _ :: _ => true end.

Fixpoint dropWhile (p : char -> bool) (s : jsstring) : jsstring :=
  match s with
  | [] => []
  | c :: s' => if p c then dropWhile p s' else s
  end.

Fixpoint takeWhile (p : char -> bool) (s : jsstring) : jsstring :=
  match s with
  | [] => []
  | c :: s' => if p c then c :: takeWhile p s' else []
  end.

Definition trimStart (s : jsstring) : jsstring := dropWhile is_space s.

Fixpoint trimEnd (s : jsstring) : jsstring :=
  match s with
  | [] => []
  | c :: s' =>
      match trimEnd s' with
      | [] => if is_space c then [] else [c]
      | t => c :: t
      end
  end.

(** [String.prototype.trim] *)
Definition trim (s : jsstring) : jsstring := trimEnd (trimStart s).

(** [s.split(sep)] where [sep] matches exactly one code unit (a one-character
    string such as ['\n'], or a character class such as [/[,;\t]/]): the
    pieces between the separators, empty pieces included.  The result is the
    first piece and the list of the pieces after it. *)
Fixpoint split_at (p : char -> bool) (s : jsstring) : jsstring * list jsstring :=
  match s with
  | [] => ([], [])
  | c :: s' =>
      let (h, t) := split_at p s' in
      if p c then ([], h :: t) else (c :: h, t)
  end.

Definition split (p : char -> bool) (s : jsstring) : list jsstring :=
  let (h, t) := split_at p s in h :: t.

(** [s.split(/\s+/)]: the separators are the maximal runs of white space.
    [insep] tells that the code unit before [s] belonged to a separator. *)
Fixpoint split_runs_from (insep : bool) (s : jsstring) : jsstring * list jsstring :=
  match s with
  | [] => ([], [])
  | c :: s' =>
      if is_space c then
        if insep then split_runs_from true s'
        else ([], let (h, t) := split_runs_from true s' in h :: t)
      else
        let (h, t) := split_runs_from false s' in (c :: h, t)
  end.

Definition split_ws (s : jsstring) : list jsstring :=
  let (h, t) := split_runs_from false s in h :: t.

(** [s.replace(/\s+/g, r)] for a replacement [r] of one character: every
    maximal run of white space becomes one [r]. *)
Fixpoint replace_runs (r : char) (insep : bool) (s : jsstring) : jsstring :=
  match s with
  | [] => []
  | c :: s' =>
      if is_space c then
        if insep then replace_runs r true s' else r :: replace_runs r true s'
      else c :: replace_runs r false s'
  end.

Definition replace_ws (r : char) (s : jsstring) : jsstring :=
  replace_runs r false s.

Fixpoint startsWith (p s : jsstring) : bool :=
  match p, s with
  | [], _ => true
  | _ :: _, [] => false
  | a :: p', b :: s' => (a =? b)%N && startsWith p' s'
  end.

(** [s.includes(sub)] *)
Fixpoint includes (sub s : jsstring) : bool :=
  startsWith sub s || match s with [] => false | _ :: s' => includes sub s' end.

(** [s.toLowerCase()] as far as the program can observe it.  The program
    only compares lower-cased text with ASCII words and splits it at ['.'].
    The code units below are the only ones whose lower-case form contains an
    ASCII code unit; every other code unit is left as it is here (its
    lower-case form, if different, is not ASCII either). *)
Definition lower_char (c : char) : jsstring :=
  if in_range 65 90 c then [(c + 32)%N]
  else if (c =? 304)%N then [105%N; 775%N]      (* LATIN CAPITAL I WITH DOT ABOVE *)
  else if (c =? 8490)%N then [107%N]            (* KELVIN SIGN *)
  else [c].

Definition toLowerCase (s : jsstring) : jsstring := flat_map lower_char s.

(** [array.indexOf(x)]: the first index holding [x], or [-1]. *)
Fixpoint indexOf (x : jsstring) (l : list jsstring) : Z :=
  match l with
  | [] => (-1)%Z
  | y :: l' =>
      if eqb y x then 0%Z
      else let i := indexOf x l' in
           if (i <? 0)%Z then (-1)%Z else (i + 1)%Z
  end.

(** [array.filter((x, index, array) => f(x, index, array))] *)
Fixpoint filter_from (f : jsstring -> Z -> bool) (i : Z) (l : list jsstring)
  : list jsstring :=
  match l with
  | [] => []
  | x :: l' =>
      if f x i then x :: filter_from f (i + 1)%Z l' else filter_from f (i + 1)%Z l'
  end.

Definition filter_indexed (f : jsstring -> Z -> list jsstring -> bool)
  (l : list jsstring) : list jsstring :=
  filter_from (fun x i => f x i l) 0%Z l.

(** [[...new Set(l)]]: a [Set] keeps its elements in insertion order and
    ignores the insertion of an element it already holds. *)
Definition set_add (acc : list jsstring) (x : jsstring) : list jsstring :=
  if existsb (eqb x) acc then acc else acc ++ [x].

Definition set_of (l : list jsstring) : list jsstring := fold_left set_add l [].

End JsString.

(** ** FileParser *)

Module FileParser.
Import JsString.

(** *** Choosing a parser *)

(** The five methods that [supportedFormats] holds: [parseTextFile],
    [parseCsvFile], [parseDocxFile], [parseXlsxFile] and [parsePdfFile]. *)
Inductive parser : Set :=
  | TextParser | CsvParser | DocxParser | XlsxParser | PdfParser.

(** What a property read [obj[key]] on an object literal finds: a property
    of the literal itself, or, the literal having none of that name, the
    member of that name of [Object.prototype], which every object literal
    inherits from. *)
Inductive property (A : Type) : Type :=
  | Own (a : A)
  | Inherited (member : jsstring).
Arguments Own {A} a.
Arguments Inherited {A} member.

Definition objectPrototype : list jsstring :=
  List.map js
    [ "constructor"; "__defineGetter__"; "__defineSetter__"; "hasOwnProperty";
      "__lookupGetter__"; "__lookupSetter__"; "isPrototypeOf";
      "propertyIsEnumerable"; "toString"; "valueOf"; "__proto__";
      "toLocaleString" ]%string.

(** [obj[key]], [None] standing for [undefined]. *)
Definition get {A : Type} (obj : gmap jsstring A) (key : jsstring)
  : option (property A) :=
  match obj !! key with
  | Some a => Some (Own a)
  | None => if existsb (eqb key) objectPrototype then Some (Inherited key) else None
  end.

Definition supportedFormats : gmap jsstring parser :=
  list_to_map
    [ (js "text/plain", TextParser);
      (js "text/csv", CsvParser);
      (js "application/vnd.openxmlformats-officedocument.wordprocessingml.document",
        DocxParser);
      (js "application/vnd.openxmlformats-officedocument.spreadsheetml.sheet",
        XlsxParser);
      (js "application/pdf", PdfParser);
      (js "application/vnd.ms-excel", XlsxParser);
      (js "text/comma-separated-values", CsvParser) ].

Definition extensionMap : gmap jsstring jsstring :=
  list_to_map
    [ (js "txt", js "text/plain");
      (js "csv", js "text/csv");
      (js "docx",
        js "application/vnd.openxmlformats-officedocument.wordprocessingml.document");
      (js "doc",
        js "application/vnd.openxmlformats-officedocument.wordprocessingml.document");
      (js "xlsx",
        js "application/vnd.openxmlformats-officedocument.spreadsheetml.sheet");
      (js "xls", js "application/vnd.ms-excel");
      (js "pdf", js "application/pdf") ].

(** The part of a [File] that the parser reads: its name, its MIME type (the
    empty string when the browser knows none) and its content as text. *)
Record File : Type := mkFile {
  file_name : jsstring;
  file_type : jsstring;
  file_text : jsstring
}.

(** [array.pop()] of a non-empty array given as first element and rest. *)
Definition pop (h : jsstring) (t : list jsstring) : jsstring := List.last t h.

(** [detectFileType(file)].  Every property that [extensionMap[extension]]
    can find is truthy: the literal's own values are non-empty strings and
    the inherited members are functions or objects. *)
Definition detectFileType (file : File) : property jsstring :=
  if truthy (file_type file)
     && (if get supportedFormats (file_type file) is Some _ then true else false)
  then Own (file_type file)
  else
    let (h, t) := split_at (N.eqb 46) (toLowerCase (file_name file)) in
    let extension := pop h t in
    match get extensionMap extension with
    | Some detectedType => detectedType
    | None => Own (js "text/plain")
    end.

(** The property key that a value is converted to when it indexes an object:
    a string is its own key; a function is printed as its source text and
    the prototype object as ["[object Object]"]. *)
Definition toPropertyKey (v : property jsstring) : jsstring :=
  match v with
  | Own s => s
  | Inherited m =>
      if eqb m (js "__proto__") then js "[object Object]"
      else if eqb m (js "constructor") then js "function Object() { [native code] }"
      else js "function " ++ m ++ js "() { [native code] }"
  end.

(** The dispatch of [parseFile(file)]: the function that it calls on the
    file.  A type without a handler is parsed as plain text. *)
Definition parseFile_dispatch (file : File) : property parser :=
  let fileType := detectFileType file in
  match get supportedFormats (toPropertyKey fileType) with
  | None => Own TextParser
  | Some handler => handler
  end.

(** *** Recognising names *)

(** [/^\d+$/] *)
Definition all_digits (s : jsstring) : bool := truthy s && forallb is_digit s.

(** [/@/] *)
Definition has_at (s : jsstring) : bool := existsb (N.eqb 64) s.

(** [/^https?:\/\//] *)
Definition has_url_scheme (s : jsstring) : bool :=
  startsWith (js "http://") s || startsWith (js "https://") s.

(** [/\.(com|org|net|edu)/] *)
Definition has_domain (s : jsstring) : bool :=
  includes (js ".com") s || includes (js ".org") s
  || includes (js ".net") s || includes (js ".edu") s.

(** [/^\w+\.\w+$/]: the first [\w+] has to stop at the first code unit that
    is not a word character, which has to be the dot. *)
Definition is_dotted_pair (s : jsstring) : bool :=
  truthy (takeWhile is_word s)
  && match dropWhile is_word s with
     | c :: rest => (c =? 46)%N && truthy rest && forallb is_word rest
     | [] => false
     end.

Definition invalidPatterns : list (jsstring -> bool) :=
  [ all_digits; has_at; has_url_scheme; has_domain; is_dotted_pair ].

(** [/^[a-zA-Z]/.test(word)] *)
Definition starts_with_letter (word : jsstring) : bool :=
  match word with c :: _ => is_letter c | [] => false end.

Definition isValidName (str : jsstring) : bool :=
  if negb (truthy str) then false else
  let cleanStr := trim str in
  if (length cleanStr <? 2) || (100 <? length cleanStr) then false else
  if negb (existsb is_letter cleanStr) then false else
  let letterCount := length (List.filter is_letter cleanStr) in
  (* letterCount < cleanStr.length * 0.5 *)
  if 2 * letterCount <? length cleanStr then false else
  let words := List.filter truthy (split_ws cleanStr) in
  if length words <? 2 then false else
  if negb (forallb starts_with_letter words) then false else
  if existsb (fun pattern => pattern cleanStr) invalidPatterns then false else
  true.

(** [/[^\w\s'-]/]: the code units that [cleanName] keeps. *)
Definition is_name_char (c : char) : bool :=
  is_word c || is_space c || (c =? 39)%N || (c =? 45)%N.

Definition cleanName (name : jsstring) : jsstring :=
  if negb (truthy name) then [] else
  trim (List.filter is_name_char (replace_ws SPACE (trim name))).

Definition cleanAndValidateNames (names : list jsstring) : list jsstring :=
  filter_indexed (fun name index array => (indexOf name array =? index)%Z)
    (List.filter (fun name => truthy name && isValidName name)
       (List.map cleanName names)).

Definition headerKeywords : list jsstring :=
  List.map js
    [ "student"; "name"; "class"; "list"; "roster"; "grade";
      "first"; "last"; "full"; "students"; "names" ]%string.

Definition isHeaderLine (line : jsstring) : bool :=
  let lowerLine := toLowerCase line in
  existsb (fun keyword => includes keyword lowerLine) headerKeywords
  && negb (isValidName line).

(** [line.replace(/^\d+\.?\s*/, '')] *)
Definition strip_ordinal (line : jsstring) : jsstring :=
  match takeWhile is_digit line with
  | [] => line
  | _ :: _ =>
      let rest := dropWhile is_digit line in
      dropWhile is_space
        (match rest with
         | c :: rest' => if (c =? 46)%N then rest' else rest
         | [] => rest
         end)
  end.

(** The character class of the second prefix pattern.  The source file holds
    a bullet whose bytes were decoded with the wrong encoding and encoded
    again, so the class reads: hyphen, asterisk, U+00E2, U+20AC, U+00A2. *)
Definition is_bullet (c : char) : bool :=
  (c =? 45)%N || (c =? 42)%N || (c =? 226)%N || (c =? 8364)%N || (c =? 162)%N.

(** [line.replace(/^[-*...]\s*/, '')] *)
Definition strip_bullet (line : jsstring) : jsstring :=
  match line with
  | c :: rest => if is_bullet c then dropWhile is_space rest else line
  | [] => []
  end.

(** [/[,;|]/] *)
Definition is_part_separator (c : char) : bool :=
  (c =? 44)%N || (c =? 59)%N || (c =? 124)%N.

Definition extractNamesFromLine (line : jsstring) : list jsstring :=
  let cleanLine := trim (strip_ordinal line) in
  let cleanLine := trim (strip_bullet cleanLine) in
  if isValidName cleanLine then [cleanLine]
  else
    let parts := List.map trim (split is_part_separator cleanLine) in
    List.filter isValidName parts.

(** The non-blank, trimmed lines of a text. *)
Definition text_lines (text : jsstring) : list jsstring :=
  List.filter truthy (List.map trim (split (N.eqb LF) text)).

(** The array [names] of [extractNamesFromText] when its loop ends. *)
Definition lineCandidates (text : jsstring) : list jsstring :=
  flat_map
    (fun line => if isHeaderLine line then [] else extractNamesFromLine line)
    (text_lines text).

Definition extractNamesFromText (text : jsstring) : list jsstring :=
  if negb (truthy text) then [] else
  cleanAndValidateNames (lineCandidates text).

(** [/[,;\t]/] *)
Definition is_cell_delimiter (c : char) : bool :=
  (c =? 44)%N || (c =? 59)%N || (c =? TAB)%N.

(** The class of the two quote characters, apostrophe and double quote. *)
Definition is_quote (c : char) : bool := (c =? 39)%N || (c =? 34)%N.

Definition csv_cells (line : jsstring) : list jsstring :=
  List.map (fun cell => List.filter (fun c => negb (is_quote c)) (trim cell))
    (split is_cell_delimiter line).

(** The array [names] of [parseCsvFile] when its loops end. *)
Definition cellNames (text : jsstring) : list jsstring :=
  flat_map (fun line => flat_map extractNamesFromText (csv_cells line))
    (text_lines text).

(** [parseCsvFile(file)], as a function of the text read from the file. *)
Definition parseCsvFile (text : jsstring) : list jsstring :=
  let names := cellNames text in
  if (length names =? 0) then extractNamesFromText text
  else set_of names.

End FileParser.

(** ** JavaScript numbers

    A JavaScript number is an IEEE 754 double: a binary floating-point
    number with 53 bits of precision, whose operations round to the nearest
    number, ties to even. *)

Module JsNumber.

Definition number : Type := spec_float.

Definition prec : Z := 53.
Definition emax : Z := 1024.

Definition add : number -> number -> number := SFadd prec emax.
Definition sub : number -> number -> number := SFsub prec emax.
Definition mul : number -> number -> number := SFmul prec emax.
Definition div : number -> number -> number := SFdiv prec emax.

(** [a < b] and [a <= b], which are false when a number is [NaN]. *)
Definition ltb : number -> number -> bool := SFltb.
Definition leb : number -> number -> bool := SFleb.

(** The number of an integer, such as the literal [50] or [text.length]. *)
Definition of_Z (z : Z) : number := binary_normalize prec emax z 0 false.
Definition of_nat (n : nat) : number := of_Z (Z.of_nat n).

(** The number of the decimal literal [0.dd] for [num / 100]: the double
    nearest to the fraction, which is also what the division gives. *)
Definition hundredths (num : Z) : number := div (of_Z num) (of_Z 100).

Definition is_nan (x : number) : bool :=
  match x with S754_nan => true | _ => false end.

(** [Math.max(a, b)] and [Math.min(a, b)]: [NaN] when an argument is [NaN];
    a zero with a minus sign is less than one with a plus sign. *)
Definition max (a b : number) : number :=
  if is_nan a || is_nan b then S754_nan
  else if ltb a b then b
  else match a, b with S754_zero true, S754_zero false => b | _, _ => a end.

Definition min (a b : number) : number :=
  if is_nan a || is_nan b then S754_nan
  else if ltb b a then b
  else match a, b with S754_zero false, S754_zero true => b | _, _ => a end.

(** The two numbers are the same number (and not [NaN]). *)
Definition same (a b : number) : bool :=
  match a, b with
  | S754_zero s, S754_zero s' | S754_infinity s, S754_infinity s' => Bool.eqb s s'
  | S754_finite s m e, S754_finite s' m' e' =>
      Bool.eqb s s' && (m =? m')%positive && (e =? e')%Z
  | _, _ => false
  end.

(** The exact value of a number that is finite. *)
Definition to_Q (x : number) : option Q :=
  match x with
  | S754_zero _ => Some 0%Q
  | S754_finite s m e => Some (inject_Z (cond_Zopp s (Zpos m)) * Qpower 2 e)%Q
  | S754_infinity _ | S754_nan => None
  end.

End JsNumber.

(** ** CertificateGenerator *)

Module CertificateGenerator.
Import JsString.
Import JsNumber(number).

(** *** Layout *)

Record Position : Type := mkPosition {
  pos_x : number;
  pos_y : number;
  pos_font : jsstring;
  pos_size : number
}.

Definition studentNamePos : Position :=
  mkPosition (JsNumber.of_Z 500) (JsNumber.of_Z 480) (js "Helvetica-Bold")
    (JsNumber.of_Z 18).
Definition schoolNamePos : Position :=
  mkPosition (JsNumber.of_Z 500) (JsNumber.of_Z 253) (js "Helvetica") (JsNumber.of_Z 14).
Definition datePos : Position :=
  mkPosition (JsNumber.of_Z 500) (JsNumber.of_Z 109) (js "Helvetica") (JsNumber.of_Z 12).
Definition jaVolunteerPos : Position :=
  mkPosition (JsNumber.of_Z 380) (JsNumber.of_Z 182) (js "Times-Italic")
    (JsNumber.of_Z 14).
Definition teacherPos : Position :=
  mkPosition (JsNumber.of_Z 645) (JsNumber.of_Z 182) (js "Times-Italic")
    (JsNumber.of_Z 14).

Definition getTextWidth (text font : jsstring) (size : number) : number :=
  let averageCharWidth :=
    if eqb font (js "Helvetica-Bold") then JsNumber.mul size (JsNumber.hundredths 65)
    else if eqb font (js "Times-Italic") then JsNumber.mul size (JsNumber.hundredths 55)
    else JsNumber.mul size (JsNumber.hundredths 58) in
  JsNumber.mul (JsNumber.of_nat (length text)) averageCharWidth.

Inductive StandardFont : Set := HelveticaBold | TimesRomanItalic | Helvetica.

(** The argument of [page.drawText]. *)
Record DrawText : Type := mkDrawText {
  dt_text : jsstring;
  dt_x : number;
  dt_y : number;
  dt_size : number;
  dt_font : StandardFont
}.

(** [position.x - (textWidth / 2)] *)
Definition centeredX (position : Position) (textWidth : number) : number :=
  JsNumber.sub (pos_x position) (JsNumber.div textWidth (JsNumber.of_Z 2)).

(** [pageWidth - textWidth - 50] *)
Definition rightLimit (pageWidth textWidth : number) : number :=
  JsNumber.sub (JsNumber.sub pageWidth textWidth) (JsNumber.of_Z 50).

(** [addText(page, text, position, pageWidth)]: the text that it draws. *)
Definition addText (text : jsstring) (position : Position) (pageWidth : number)
  : DrawText :=
  let textWidth := getTextWidth text (pos_font position) (pos_size position) in
  let font :=
    if eqb (pos_font position) (js "Helvetica-Bold") then HelveticaBold
    else if eqb (pos_font position) (js "Times-Italic") then TimesRomanItalic
    else Helvetica in
  {| dt_text := text;
     dt_x :=
       JsNumber.max (JsNumber.of_Z 50)
         (JsNumber.min (centeredX position textWidth) (rightLimit pageWidth textWidth));
     dt_y := pos_y position;
     dt_size := pos_size position;
     dt_font := font |}.

(** *** File names *)

(** [/[^a-zA-Z0-9\s-_]/]: the code units that [createSafeFilename] keeps.
    Without the [u] flag a hyphen next to a class escape stands for itself. *)
Definition is_filename_char (c : char) : bool :=
  is_letter c || is_digit c || is_space c || (c =? 45)%N || (c =? 95)%N.

Definition createSafeFilename (studentName : jsstring) : jsstring :=
  toLowerCase (replace_ws 95%N (List.filter is_filename_char studentName))
  ++ js "_certificate.pdf".

(** *** Paths in an archive *)

Definition SLASH : char := 47%N.

(** [path.lastIndexOf(c)], when [c] occurs in [path]. *)
Fixpoint lastIndexOf (c : char) (path : jsstring) : option nat :=
  match path with
  | [] => None
  | d :: path' =>
      match lastIndexOf c path' with
      | Some i => Some (S i)
      | None => if (d =? c)%N then Some 0 else None
      end
  end.

(** [path.slice(-1) === "/"] *)
Definition endsWithSlash (path : jsstring) : bool :=
  match rev path with
  | c :: _ => (c =? SLASH)%N
  | [] => false
  end.

(** [parentFolder(path)] of JSZip: the path up to its last [/], the one at
    its end and the one at its start apart. *)
Definition parentFolder (path : jsstring) : jsstring :=
  let path := if endsWithSlash path then removelast path else path in
  match lastIndexOf SLASH path with
  | Some lastSlash => if 0 <? lastSlash then firstn lastSlash path else []
  | None => []
  end.

(** [forceTrailingSlash(path)] of JSZip *)
Definition forceTrailingSlash (path : jsstring) : jsstring :=
  if endsWithSlash path then path else path ++ [SLASH].

(** *** Batch generation *)

Section Batch.

(** The state of everything that rendering and the progress callback can
    read and change (the cached template, the page). *)
Variable World : Type.
(** The bytes of a rendered document. *)
Variable Bytes : Type.
Variable CertificateInfo : Type.
(** What a callback returns. *)
Variable Value : Type.

(** [generateCertificate(studentName, certificateInfo)]: the bytes of the
    document, or the message of the [Error] that it throws. *)
Variable generateCertificate :
  jsstring -> CertificateInfo -> World -> World * (Bytes + jsstring).

(** [Math.round(((i + 1) / total) * 100)] as a function of [i + 1] and
    [total]: a floating-point computation that is left open here. *)
Variable percentageOf : nat -> nat -> Z.

Record Progress : Type := mkProgress {
  current : nat;
  total : nat;
  student : jsstring;
  percentage : Z
}.

(** A call of the callback returns a value or throws an [Error] with a
    message. *)
Inductive outcome : Type :=
  | Returned (v : Value)
  | Threw (message : jsstring).

Definition callback : Type := Progress -> World -> World * outcome.

Record Certificate : Type := mkCertificate {
  studentName : jsstring;
  filename : jsstring;
  pdfBytes : option Bytes;
  error : option jsstring;
  success : bool
}.

(** The calls that a batch makes, in the order in which it makes them. *)
Inductive event : Type :=
  | ProgressCall (p : Progress)
  | RenderCall (name : jsstring).

Definition succeeded (name : jsstring) (pdf : Bytes) : Certificate :=
  {| studentName := name; filename := createSafeFilename name;
     pdfBytes := Some pdf; error := None; success := true |}.

Definition failed (name message : jsstring) : Certificate :=
  {| studentName := name; filename := createSafeFilename name;
     pdfBytes := None; error := Some message; success := false |}.

(** One turn of the loop, for the name at index [i]: the [try] block and its
    [catch]. *)
Definition bulkItem (i total : nat) (name : jsstring) (info : CertificateInfo)
  (progressCallback : option callback) (w : World)
  : World * Certificate * list event :=
  let '(w1, thrown, called) :=
    match progressCallback with
    | Some f =>
        let p := mkProgress (i + 1) total name (percentageOf (i + 1) total) in
        let (w', o) := f p w in
        (w', match o with Returned _ => None | Threw m => Some m end,
         [ProgressCall p])
    | None => (w, None, [])
    end in
  match thrown with
  | Some message => (w1, failed name message, called)
  | None =>
      let (w2, r) := generateCertificate name info w1 in
      (w2,
       match r with
       | inl pdf => succeeded name pdf
       | inr message => failed name message
       end,
       called ++ [RenderCall name])
  end.

(** The loop from index [i] on; [names] are the names at [i], [i + 1], ... *)
Fixpoint bulkFrom (i total : nat) (names : list jsstring) (info : CertificateInfo)
  (progressCallback : option callback) (w : World)
  : World * list Certificate * list event :=
  match names with
  | [] => (w, [], [])
  | name :: rest =>
      let '(w1, cert, evs) := bulkItem i total name info progressCallback w in
      let '(w2, certs, evs') := bulkFrom (S i) total rest info progressCallback w1 in
      (w2, cert :: certs, evs ++ evs')
  end.

(** [generateBulkCertificates(studentNames, certificateInfo, progressCallback)] *)
Definition generateBulkCertificates (studentNames : list jsstring)
  (info : CertificateInfo) (progressCallback : option callback) (w : World)
  : World * list Certificate * list event :=
  bulkFrom 0 (length studentNames) studentNames info progressCallback w.

(** The certificates that a batch returns, and the calls that it makes. *)
Definition certificatesOf (r : World * list Certificate * list event)
  : list Certificate := snd (fst r).
Definition callsOf (r : World * list Certificate * list event)
  : list event := snd r.

(** *** Packaging *)

(** [n] written in decimal, as a template literal prints a length. *)
Definition decimal (n : nat) : jsstring :=
  js (NilEmpty.string_of_uint (Nat.to_uint n)).

(** [new Date().toLocaleString()] at the time of the call. *)
Variable now : jsstring.

Definition BULLET : char := 8226%N.

Definition createSummaryText (certificates : list Certificate) : jsstring :=
  let successful := List.filter success certificates in
  let failed := List.filter (fun cert => negb (success cert)) certificates in
  js "Certificate Generation Summary" ++ [LF]
  ++ js "Generated on: " ++ now ++ [LF; LF]
  ++ js "Total certificates requested: " ++ decimal (length certificates) ++ [LF]
  ++ js "Successfully generated: " ++ decimal (length successful) ++ [LF]
  ++ js "Failed: " ++ decimal (length failed) ++ [LF; LF]
  ++ (if 0 <? length successful then
        js "Successfully Generated:" ++ [LF] ++ repeat 45%N 30 ++ [LF]
        ++ flat_map (fun cert => [BULLET; SPACE] ++ studentName cert ++ [LF])
             successful
        ++ [LF]
      else [])
  ++ (if 0 <? length failed then
        js "Failed to Generate:" ++ [LF] ++ repeat 45%N 30 ++ [LF]
        ++ flat_map
             (fun cert =>
                [BULLET; SPACE] ++ studentName cert ++ js ": "
                ++ (match error cert with Some m => m | None => js "undefined" end)
                ++ [LF])
             failed
      else []).

(** A file of the archive: what [cert.pdfBytes] held, the summary, or a
    folder, which JSZip makes for a file whose name has a [/] in it. *)
Inductive entry : Type :=
  | Document (pdf : option Bytes)
  | Summary (text : jsstring)
  | Folder.

(** [folderAdd(name, true)] of JSZip 3, with the [fileAdd] of a folder that
    it calls: the folder [name] is added unless the archive has an entry of
    that name, and the folder above it before it.  [fuel] bounds the
    nesting of the calls; every call is for a shorter name. *)
Fixpoint folderAdd (fuel : nat) (name : jsstring) (zip : gmap jsstring entry)
  : gmap jsstring entry :=
  match fuel with
  | 0 => zip
  | S fuel' =>
      let name := forceTrailingSlash name in
      match zip !! name with
      | Some _ => zip
      | None =>
          let parent := parentFolder name in
          let zip := if truthy parent then folderAdd fuel' parent zip else zip in
          <[name := Folder]> zip
      end
  end.

(** [zip.file(name, data)] of JSZip 3, where [createFolders] is on unless
    the caller turns it off: the folders of the path of [name] are added,
    then the file [name] is added to the archive or replaces the entry of
    that name. *)
Definition zip_file (name : jsstring) (data : entry)
  (zip : gmap jsstring entry) : gmap jsstring entry :=
  let parent := parentFolder name in
  let zip := if truthy parent then folderAdd (length name) parent zip else zip in
  <[name := data]> zip.

(** [createZipFile(certificates)]: the files of the archive. *)
Definition createZipFile (certificates : list Certificate) : gmap jsstring entry :=
  let successfulCerts := List.filter success certificates in
  let zip :=
    fold_left
      (fun zip cert => zip_file (filename cert) (Document (pdfBytes cert)) zip)
      successfulCerts ∅ in
  zip_file (js "certificate_summary.txt") (Summary (createSummaryText certificates)) zip.

Definition is_document (e : entry) : bool :=
  match e with Document _ => true | Summary _ | Folder => false end.

(** The number of documents in an archive. *)
Definition documentCount (zip : gmap jsstring entry) : nat :=
  size (filter (fun kv => is_document (snd kv) = true) zip).

End Batch.

Arguments mkCertificate {Bytes} _ _ _ _ _.
Arguments studentName {Bytes} _.
Arguments filename {Bytes} _.
Arguments pdfBytes {Bytes} _.
Arguments error {Bytes} _.
Arguments success {Bytes} _.
Arguments Returned {Value} v.
Arguments Threw {Value} message.
Arguments succeeded {Bytes} name pdf.
Arguments failed {Bytes} name message.
Arguments bulkItem {World Bytes CertificateInfo Value} _ _ _ _ _ _ _ _.
Arguments bulkFrom {World Bytes CertificateInfo Value} _ _ _ _ _ _ _ _.
Arguments generateBulkCertificates {World Bytes CertificateInfo Value} _ _ _ _ _ _.
Arguments certificatesOf {World Bytes} r.
Arguments callsOf {World Bytes} r.
Arguments createSummaryText {Bytes} now certificates.
Arguments Document {Bytes} pdf.
Arguments Summary {Bytes} text.
Arguments is_document {Bytes} e.
Arguments Folder {Bytes}.
Arguments folderAdd {Bytes} fuel name zip.
Arguments zip_file {Bytes} name data zip.
Arguments createZipFile {Bytes} now certificates.
Arguments documentCount {Bytes} zip.

End CertificateGenerator.

(** ** FileParser: the parsers and their failures *)

Module FileParserIO.
Import JsString FileParser.

(** What [readFileAsArrayBuffer] and [mammoth.extractRawText] give for a
    file: the [FileReader] fails to read the file, or the library throws an
    error with a message, or it gives the text in [result.value]. *)
Inductive extraction : Type :=
  | DocumentUnread
  | ExtractionFails (message : jsstring)
  | RawText (value : jsstring).

(** What [readFileAsArrayBuffer], [XLSX.read] and [XLSX.utils.sheet_to_csv]
    give for a file: the [FileReader] fails to read the file, or the library
    throws an error with a message, or the workbook has no sheets, or its
    first sheet is given as delimited text. *)
Inductive workbook : Type :=
  | WorkbookUnread
  | ReadFails (message : jsstring)
  | NoSheets
  | FirstSheet (csv : jsstring).

(** The errors that the engine of the browser throws where the program
    reads a property of [undefined], calls what is no function, or calls
    [__defineGetter__] or [__defineSetter__] with what is no function. *)
Inductive fault : Set :=
  | PropertyOfUndefined | NotAFunction | GetterNotCallable | SetterNotCallable.

(** What the parser finds in the page: the two libraries, each absent when
    its script did not load; whether [FileReader.readAsText] reads a file,
    and then gives its content, or fails; and the messages of the type
    errors of the engine, which differ from one browser to the other. *)
Record Libraries : Type := mkLibraries {
  mammoth : option (File -> extraction);
  XLSX : option (File -> workbook);
  readsText : File -> bool;
  typeError : fault -> jsstring
}.

(** A method returns a value, or throws an [Error] with a message, or is
    rejected with the event that a [FileReader] gives to [onerror], which
    has no message. *)
Inductive result (A : Type) : Type :=
  | Returns (a : A)
  | Throws (message : jsstring)
  | Rejects.
Arguments Returns {A} a.
Arguments Throws {A} message.
Arguments Rejects {A}.

(** [s.endsWith(suffix)] *)
Definition endsWith (suffix s : jsstring) : bool :=
  startsWith (rev suffix) (rev s).

(** [s.replace(sub, rep)] for a non-empty string [sub]: the first occurrence
    of [sub] is replaced. *)
Fixpoint replace_first (sub rep s : jsstring) : jsstring :=
  match s with
  | [] => []
  | c :: s' =>
      if startsWith sub s then rep ++ skipn (length sub) s
      else c :: replace_first sub rep s'
  end.

(** The test [!text || text.trim().length === 0]. *)
Definition is_blank (text : jsstring) : bool :=
  negb (truthy text) || (length (trim text) =? 0).

(** [readFileAsText(file)] *)
Definition readFileAsText (libs : Libraries) (file : File) : result jsstring :=
  if readsText libs file then Returns (file_text file) else Rejects.

Definition parseTextFile (libs : Libraries) (file : File) : result (list jsstring) :=
  match readFileAsText libs file with
  | Returns text => Returns (extractNamesFromText text)
  | Throws message => Throws message
  | Rejects => Rejects
  end.

Definition parseCsvFile (libs : Libraries) (file : File) : result (list jsstring) :=
  match readFileAsText libs file with
  | Returns text => Returns (FileParser.parseCsvFile text)
  | Throws message => Throws message
  | Rejects => Rejects
  end.

Definition parsePdfFile (file : File) : result (list jsstring) :=
  Throws
    (js "PDF files are not supported in the web version. Please convert to TXT, CSV, DOCX, or XLSX format. You can copy the text from the PDF and save it as a TXT file.").

Definition parseDocxFile (libs : Libraries) (file : File) : result (list jsstring) :=
  let attempt : result (list jsstring) :=
    match mammoth libs with
    | None =>
        Throws
          (js "DOCX parser not available. Please ensure you have a stable internet connection and try refreshing the page, or convert to TXT or CSV format.")
    | Some extractRawText =>
        match extractRawText file with
        | DocumentUnread => Rejects
        | ExtractionFails message => Throws message
        | RawText value =>
            if is_blank value then
              Throws
                (js "No text content found in DOCX file. The file might be empty or corrupted.")
            else Returns (extractNamesFromText value)
        end
    end in
  match attempt with
  | Returns names => Returns names
  | Throws message =>
      if includes (js "not available") message || includes (js "mammoth") message then
        Throws
          (js "DOCX parsing failed: Library not loaded. Please refresh the page and try again, or convert your DOCX file to TXT format.")
      else if includes (js "corrupted") message || includes (js "format") message then
        Throws
          (js "DOCX parsing failed: File appears to be corrupted or in an unsupported format. Please try saving your document as a newer DOCX format or convert to TXT.")
      else
        Throws
          (js "DOCX parsing failed: " ++ message
           ++ js ". Try converting your DOCX file to TXT or CSV format.")
  | Rejects =>
      (* [error.message] is [undefined], and the test of the handler reads
         its [includes] *)
      Throws (typeError libs PropertyOfUndefined)
  end.

(** The names of the first sheet, given as delimited text: the loop of
    [parseXlsxFile] over its lines, which skips the lines that
    [isHeaderLine] takes for headers. *)
Definition sheetCellNames (csv : jsstring) : list jsstring :=
  flat_map
    (fun line =>
       if isHeaderLine line then []
       else flat_map extractNamesFromText (csv_cells line))
    (text_lines csv).

Definition sheetNames (csv : jsstring) : list jsstring :=
  let names := sheetCellNames csv in
  if length names =? 0 then extractNamesFromText csv else set_of names.

Definition parseXlsxFile (libs : Libraries) (file : File) : result (list jsstring) :=
  let attempt : result (list jsstring) :=
    match XLSX libs with
    | None => Throws (js "XLSX parser not available. Please convert to CSV format.")
    | Some read =>
        match read file with
        | WorkbookUnread => Rejects
        | ReadFails message => Throws message
        | NoSheets => Throws (js "No worksheets found in XLSX file")
        | FirstSheet csv =>
            if is_blank csv then Throws (js "No data found in XLSX worksheet")
            else Returns (sheetNames csv)
        end
    end in
  match attempt with
  | Returns names => Returns names
  | Throws message =>
      Throws
        (js "Failed to parse XLSX file: " ++ message
         ++ js ". Please try converting to CSV format.")
  | Rejects =>
      Throws
        (js "Failed to parse XLSX file: " ++ js "undefined"
         ++ js ". Please try converting to CSV format.")
  end.

(** [parseDocxAlternative(file)], which always throws. *)
Definition parseDocxAlternative (file : File) : result (list jsstring) :=
  Throws
    (js "DOCX file parsing encountered an issue. To proceed:" ++ [LF; LF]
     ++ js "1. Open your DOCX file in Microsoft Word or Google Docs" ++ [LF]
     ++ js "2. Select all text (Ctrl+A)" ++ [LF]
     ++ js "3. Copy the text (Ctrl+C)" ++ [LF]
     ++ js "4. Paste into a new text file and save as "
     ++ replace_first (js ".docx") (js ".txt") (file_name file) ++ [LF]
     ++ js "5. Upload the TXT file instead" ++ [LF; LF]
     ++ js "Alternatively, try re-saving your DOCX file in a newer format.").

Definition run (libs : Libraries) (handler : parser) (file : File)
  : result (list jsstring) :=
  match handler with
  | TextParser => parseTextFile libs file
  | CsvParser => parseCsvFile libs file
  | DocxParser => parseDocxFile libs file
  | XlsxParser => parseXlsxFile libs file
  | PdfParser => parsePdfFile file
  end.

(** What a promise of [parseFile] can hold that is no array of names: the
    file itself, the text [[object Object]], the object [supportedFormats],
    a truth value or [undefined]. *)
Inductive foreign : Set :=
  | TheFile | ObjectText | TheFormats | Boolean (b : bool) | Undefined.

(** The call [this.supportedFormats[fileType](file)] when the handler is a
    member that [supportedFormats] inherits from [Object.prototype]: the
    value that the member returns, or the message of the type error that the
    call throws.  [constructor] is [Object], which returns the file;
    [toString] and [toLocaleString] print the object; [valueOf] returns it;
    [hasOwnProperty], [isPrototypeOf] and [propertyIsEnumerable] answer for
    the file, printed as a key, or as an object; [__lookupGetter__] and
    [__lookupSetter__] find no accessor; [__defineGetter__] and
    [__defineSetter__] get no function; and [__proto__] is the prototype
    itself, which is no function. *)
Definition callInherited (libs : Libraries) (member : jsstring) : foreign + jsstring :=
  if eqb member (js "constructor") then inl TheFile
  else if eqb member (js "toString") || eqb member (js "toLocaleString")
  then inl ObjectText
  else if eqb member (js "valueOf") then inl TheFormats
  else if eqb member (js "hasOwnProperty") || eqb member (js "isPrototypeOf")
          || eqb member (js "propertyIsEnumerable")
  then inl (Boolean false)
  else if eqb member (js "__lookupGetter__") || eqb member (js "__lookupSetter__")
  then inl Undefined
  else if eqb member (js "__defineGetter__") then inr (typeError libs GetterNotCallable)
  else if eqb member (js "__defineSetter__") then inr (typeError libs SetterNotCallable)
  else inr (typeError libs NotAFunction).

(** What [parseFile(file)] gives: the names, or another value, when the
    handler is a member of [Object.prototype] that returns one, or the
    message of the error that it throws. *)
Inductive parsed : Type :=
  | Names (names : list jsstring)
  | Value (value : foreign)
  | Failure (message : jsstring).

Definition parseFile (libs : Libraries) (file : File) : parsed :=
  let attempt : result (list jsstring) + foreign :=
    match parseFile_dispatch file with
    | Own handler => inl (run libs handler file)
    | Inherited member =>
        match callInherited libs member with
        | inl value => inr value
        | inr message => inl (Throws message)
        end
    end in
  match attempt with
  | inr value => Value value
  | inl (Returns names) => Names names
  | inl (Throws message) =>
      let alternative :=
        if endsWith (js ".docx") (toLowerCase (file_name file))
           && negb (includes (js "Library not loaded") message)
        then
          match parseDocxAlternative file with
          | Returns names => Some names
          | Throws _ | Rejects => None
          end
        else None in
      match alternative with
      | Some names => Names names
      | None => Failure (js "Failed to parse file: " ++ message)
      end
  | inl Rejects =>
      (* [error.message] is [undefined]: for a name that ends with [.docx]
         the test of the handler reads its [includes], and the type error
         leaves [parseFile] as it is *)
      if endsWith (js ".docx") (toLowerCase (file_name file))
      then Failure (typeError libs PropertyOfUndefined)
      else Failure (js "Failed to parse file: " ++ js "undefined")
  end.

End FileParserIO.

(** ** CertificateGenerator: the texts of one certificate *)

Module CertificateDrawing.
Import JsString CertificateGenerator.

(** The object with the information of a batch, as far as it holds text: a
    property is a string or [null] ([None]). *)
Definition Info : Type := gmap jsstring (option jsstring).

(** [info[key]] when it is truthy. *)
Definition field (info : Info) (key : jsstring) : option jsstring :=
  match info !! key with
  | Some (Some s) => if truthy s then Some s else None
  | _ => None
  end.

(** The calls of [addText] that [generateCertificate(studentName,
    certificateInfo)] makes on the first page, in their order, when none of
    its steps throws; [formatDate] is the method of that name and [width]
    the width of the page. *)
Definition certificateTexts (formatDate : jsstring -> jsstring)
  (studentName : jsstring) (certificateInfo : Info) (width : JsNumber.number)
  : list DrawText :=
  addText studentName studentNamePos width
  :: match field certificateInfo (js "schoolName") with
     | Some s => [addText s schoolNamePos width]
     | None => []
     end
  ++ match field certificateInfo (js "date") with
     | Some s => [addText (formatDate s) datePos width]
     | None => []
     end
  ++ match field certificateInfo (js "jaVolunteer") with
     | Some s => [addText s jaVolunteerPos width]
     | None => []
     end
  ++ match field certificateInfo (js "teacher") with
     | Some s => [addText s teacherPos width]
     | None => []
     end.

End CertificateDrawing.

(** ** CertificateApp: the list of names and the form *)

Module CertificateApp.
Import JsString FileParserIO CertificateDrawing.

(** [/^[a-zA-Z\s\-'\.]{2,}$/]: the code units of a name typed by hand. *)
Definition is_entry_char (c : char) : bool :=
  is_letter c || is_space c || (c =? 45)%N || (c =? 39)%N || (c =? 46)%N.

Definition namePattern (name : jsstring) : bool :=
  forallb is_entry_char name && (2 <=? length name).

(** [isValidName(name)] of the application, which is not the test of the
    parser. *)
Definition isValidName (name : jsstring) : bool :=
  let words := List.filter truthy (split_ws name) in
  namePattern name && (2 <=? length words) && (length name <=? 100).

(** How [addName] ends: with the name added, or with one of its three
    alerts. *)
Inductive added : Set := Added | NothingEntered | AlreadyListed | NotValid.

(** [addName()], for the list [studentNames] and the text of the input
    field. *)
Definition addName (studentNames : list jsstring) (value : jsstring)
  : list jsstring * added :=
  let newName := trim value in
  if negb (truthy newName) then (studentNames, NothingEntered)
  else if existsb (eqb newName) studentNames then (studentNames, AlreadyListed)
  else if negb (isValidName newName) then (studentNames, NotValid)
  else (studentNames ++ [newName], Added).

(** [removeName(index)]: [splice(index, 1)] when the index is in range. *)
Definition removeName (studentNames : list jsstring) (index : Z) : list jsstring :=
  if (0 <=? index)%Z && (index <? Z.of_nat (length studentNames))%Z then
    firstn (Z.to_nat index) studentNames ++ skipn (S (Z.to_nat index)) studentNames
  else studentNames.

(** [processFile(file)], for what [parseFile] gave: the names found replace
    the list, and a failure leaves the list as it is.  A value that is no
    array fails where its [length] is read or where it is spread into the
    list, and leaves the list as it is, but for the text
    [[object Object]], whose characters become the names. *)
Definition processFile (studentNames : list jsstring) (found : parsed)
  : list jsstring :=
  match found with
  | Names foundNames => foundNames
  | Value ObjectText => List.map (fun c => [c]) (js "[object Object]")
  | Value _ => studentNames
  | Failure _ => studentNames
  end.

(** What the user does to the list of names: a file is uploaded, a name is
    added or removed by hand, or the application is reset
    ([resetApplication]). *)
Inductive action : Type :=
  | Upload (libs : Libraries) (file : FileParser.File)
  | Add (value : jsstring)
  | Remove (index : Z)
  | Reset.

Definition act (studentNames : list jsstring) (a : action) : list jsstring :=
  match a with
  | Upload libs file => processFile studentNames (parseFile libs file)
  | Add value => fst (addName studentNames value)
  | Remove index => removeName studentNames index
  | Reset => []
  end.

(** The list of names after a sequence of actions. *)
Definition session (studentNames : list jsstring) (actions : list action)
  : list jsstring :=
  fold_left act actions studentNames.

(** The text fields of the form. *)
Record Form : Type := mkForm {
  schoolName : jsstring;
  teacherName : jsstring;
  jaVolunteer : jsstring;
  certificateDate : jsstring
}.

(** [value.trim() || null] *)
Definition trimmed_or_null (value : jsstring) : option jsstring :=
  if truthy (trim value) then Some (trim value) else None.

(** [getCertificateInfo()], without the two properties about printing, which
    hold no text of the certificate. *)
Definition getCertificateInfo (form : Form) : Info :=
  list_to_map
    [ (js "schoolName", Some (trim (schoolName form)));
      (js "teacherName", trimmed_or_null (teacherName form));
      (js "jaVolunteer", trimmed_or_null (jaVolunteer form));
      (js "date", Some (certificateDate form)) ].

End CertificateApp.

(** ** Inputs of the scenarios *)

Module Scenario.
Import JsString FileParser CertificateGenerator.

(** The three lines [Student Name,Grade], [John Smith,K], [Maria Garcia,K]. *)
Definition roster_csv : jsstring :=
  js "Student Name,Grade" ++ [LF] ++ js "John Smith,K" ++ [LF] ++ js "Maria Garcia,K".

(** The three lines [Maria Garcia], [John Smith], [Maria Garcia]. *)
Definition repeated_lines : jsstring :=
  js "Maria Garcia" ++ [LF] ++ js "John Smith" ++ [LF] ++ js "Maria Garcia".

(** The lines [Maria Garcia], [Maria   Garcia.], [John Smith] and
    [1. Maria Garcia!]. *)
Definition variant_lines : jsstring :=
  js "Maria Garcia" ++ [LF] ++ js "Maria   Garcia." ++ [LF] ++ js "John Smith"
  ++ [LF] ++ js "1. Maria Garcia!".

(** The lines [John Smith], [Maria Garcia], [John Smith], [Ann Lee]. *)
Definition later_repeat_lines : jsstring :=
  js "John Smith" ++ [LF] ++ js "Maria Garcia" ++ [LF] ++ js "John Smith"
  ++ [LF] ++ js "Ann Lee".

(** A valid name with white space and punctuation to normalize. *)
Definition spaced_name : jsstring := js "  Maria   Garcia-Lopez, Jr. ".

(** A line with an e-mail address and a name, and one with a link and a
    name. *)
Definition email_line : jsstring := js "jsmith@school.org, Mary Jones".
Definition url_line : jsstring := js "https://example.org/5b | Mary Jones".

(** The messages of the type errors of one engine. *)
Definition engine_messages (f : FileParserIO.fault) : jsstring :=
  match f with
  | FileParserIO.PropertyOfUndefined =>
      js "Cannot read properties of undefined (reading 'includes')"
  | FileParserIO.NotAFunction => js "this.supportedFormats[fileType] is not a function"
  | FileParserIO.GetterNotCallable =>
      js "Object.prototype.__defineGetter__: Expecting function"
  | FileParserIO.SetterNotCallable =>
      js "Object.prototype.__defineSetter__: Expecting function"
  end.

(** A page without the two libraries, in which every file can be read, and
    one in which no file can be read. *)
Definition bare_page : FileParserIO.Libraries :=
  FileParserIO.mkLibraries None None (fun _ => true) engine_messages.


(** A file that the browser gives no MIME type for. *)
Definition odd_extension_file : File :=
  mkFile (js "roster.constructor") [] (js "John Smith").

(** A valid name of sixty-three letters and spaces. *)
Definition long_name : jsstring :=
  js "Maria Alexandrina Josephine Wolfeschlegelsteinhausenbergerdorff".

(** A name of thirty letters and spaces, for the teacher. *)
Definition thirty_letters : jsstring := js "Wilhelmina Vanderbilt-Castillo".

(** The width of the page of the basic template, a letter page on its
    side. *)
Definition letter_landscape_width : JsNumber.number := JsNumber.of_Z 792.

(** Rendering that fails for the name [C D] and for no other name.  The
    bytes of a document are stood for by the name that it was rendered
    for. *)
Definition render_failing_CD (name : jsstring) (_ : unit) (w : unit)
  : unit * (jsstring + jsstring) :=
  (w, if eqb name (js "C D")
      then inr (js "Failed to generate certificate for C D: forced")
      else inl name).

(** Rendering that never fails. *)
Definition render_all (name : jsstring) (_ : unit) (w : unit)
  : unit * (jsstring + jsstring) := (w, inl name).

(** The percentage rounded in exact arithmetic, which is what the
    floating-point expression gives for the index and total of the batches
    below. *)
Definition percentage_exact (i1 total : nat) : Z :=
  ((200 * Z.of_nat i1 + Z.of_nat total) / (2 * Z.of_nat total))%Z.

(** A callback that returns, and one that throws. *)
Definition quiet_callback : callback unit bool :=
  fun _ w => (w, Returned true).

Definition throwing_callback : callback unit bool :=
  fun _ w => (w, Threw (js "progress bar is gone")).

(** The time that the summary of an archive starts with. *)
Definition summary_time : jsstring := js "11/3/2026, 9:00:00 AM".

(** Two names that differ in case only, and the batch that renders both. *)
Definition colliding_names : list jsstring := [js "Ann Lee"; js "ann lee"].

Definition colliding_certificates : list (Certificate jsstring) :=
  certificatesOf
    (generateBulkCertificates (Value := bool) render_all percentage_exact
       colliding_names tt None tt).

End Scenario.

(** ** Predicates of the properties *)

Module Predicates.
Import JsString FileParser CertificateGenerator.

(** The string does not begin with white space. *)
Definition starts_nonspace (s : jsstring) : bool :=
  match s with [] => true | c :: _ => negb (is_space c) end.

(** The string does not end with white space. *)
Fixpoint ends_nonspace (s : jsstring) : bool :=
  match s with
  | [] => true
  | c :: s' => match s' with [] => negb (is_space c) | _ :: _ => ends_nonspace s' end
  end.

(** The characters that a normalized name is made of: ASCII letters, digits,
    the underscore, the space, the apostrophe and the hyphen. *)
Definition is_normal_char (c : char) : bool :=
  is_letter c || is_digit c || (c =? 95)%N || (c =? SPACE)%N
  || (c =? 39)%N || (c =? 45)%N.

(** The characters that the specification lets through normalization:
    letters, digits, white space, the apostrophe and the hyphen. *)
Definition is_specified_char (c : char) : bool :=
  is_letter c || is_digit c || is_space c || (c =? 39)%N || (c =? 45)%N.

(** No two code units of white space follow each other. *)
Fixpoint single_spaced (s : jsstring) : bool :=
  match s with
  | [] => true
  | c :: s' =>
      match s' with
      | d :: _ => negb (is_space c && is_space d) && single_spaced s'
      | [] => true
      end
  end.

(** The first code units of the words of [s], a word being a maximal run of
    code units that are not white space; [fresh] tells that a word starts at
    the next code unit that is not white space. *)
Fixpoint word_heads (fresh : bool) (s : jsstring) : list char :=
  match s with
  | [] => []
  | c :: s' =>
      if is_space c then word_heads true s'
      else if fresh then c :: word_heads false s' else word_heads false s'
  end.

(** The first code units of the non-empty strings of a list. *)
Definition heads (l : list jsstring) : list char :=
  flat_map (fun w => match w with [] => [] | c :: _ => [c] end) l.

(** Words that start with a letter, with one space between two words and
    no other white space; [fresh] tells that a word has to start here. *)
Fixpoint tidy_from (fresh : bool) (s : jsstring) : bool :=
  match s with
  | [] => negb fresh
  | c :: s' =>
      if fresh then is_letter c && tidy_from false s'
      else if (c =? SPACE)%N then tidy_from true s'
      else negb (is_space c) && tidy_from false s'
  end.

Definition tidy (s : jsstring) : bool := tidy_from true s.

(** The conditions that [isValidName] puts on the trimmed string [t], with
    the words given by their first code units. *)
Record valid_conditions (t : jsstring) : Prop := {
  vc_length : 2 <= length t <= 100;
  vc_letter : existsb is_letter t = true;
  vc_ratio : length t <= 2 * length (List.filter is_letter t);
  vc_words : 2 <= length (word_heads true t);
  vc_heads : forallb is_letter (word_heads true t) = true;
  vc_patterns : existsb (fun pattern : jsstring -> bool => pattern t) invalidPatterns = false
}.

(** [dedup_with seen l]: the elements of [l] that are neither in [seen] nor
    earlier in [l]. *)
Fixpoint dedup_with (seen l : list jsstring) : list jsstring :=
  match l with
  | [] => []
  | x :: l' =>
      if existsb (eqb x) seen then dedup_with (seen ++ [x]) l'
      else x :: dedup_with (seen ++ [x]) l'
  end.

(** [out] lists the distinct elements of [source], each at the place of its
    first occurrence. *)
Definition first_seen_order (source out : list jsstring) : Prop :=
  NoDup out
  /\ (forall a, In a out <-> In a source)
  /\ StronglySorted (fun a b => (indexOf a source < indexOf b source)%Z) out.

(** The array that [cleanAndValidateNames] removes the duplicates of, for the
    candidates of a text: the normalized candidates that are still valid. *)
Definition normalizedCandidates (text : jsstring) : list jsstring :=
  List.filter (fun name => truthy name && isValidName name)
    (List.map cleanName (lineCandidates text)).

(** The array that [parseCsvFile] removes the duplicates of. *)
Definition csvCandidates (text : jsstring) : list jsstring :=
  if length (cellNames text) =? 0 then normalizedCandidates text
  else cellNames text.

(** [parts.join(sep)] for a separator of one code unit: with the line feed
    it is the text whose lines are [parts], with the comma the line whose
    cells are [parts]. *)
Definition join (sep : char) (parts : list jsstring) : jsstring :=
  match parts with
  | [] => []
  | first :: rest => first ++ flat_map (cons sep) rest
  end.

(** The variable [cleanLine] of [extractNamesFromLine] when both prefixes
    are taken off: the line without the number and the bullet at its
    start. *)
Definition cleanLine (line : jsstring) : jsstring :=
  trim (strip_bullet (trim (strip_ordinal line))).

(** [n] is a piece of [s]: some of its code units, one after the other. *)
Definition part_of (n s : jsstring) : Prop :=
  exists pre post, s = pre ++ n ++ post.

(** What [cleanName] keeps of a word: the code units of the class
    [[\w\s'-]]. *)
Definition kept (word : jsstring) : jsstring := List.filter is_name_char word.

(** A line that is a name: a valid name without a line feed. *)
Definition name_line (line : jsstring) : Prop :=
  isValidName line = true /\ ~ In LF line.

(** A cell that is a name as the program returns it: a valid name in normal
    form, without an apostrophe. *)
Definition name_cell (cell : jsstring) : Prop :=
  isValidName cell = true /\ cleanName cell = cell /\ ~ In 39%N cell.

(** The entry of a name in the result of a batch: a success with the
    bytes of its document, or a failure with a message. *)
Definition entry_for {Bytes : Type} (name : jsstring) (c : Certificate Bytes) : Prop :=
  (exists pdf, c = succeeded name pdf) \/ (exists message, c = failed name message).

(** The entry that the loop makes for a name from the way its rendering
    ended. *)
Definition entry_of {Bytes : Type} (name : jsstring) (r : Bytes + jsstring)
  : Certificate Bytes :=
  match r with
  | inl pdf => succeeded name pdf
  | inr message => failed name message
  end.

(** The names that a batch rendered, from its calls. *)
Definition renderedNames (calls : list event) : list jsstring :=
  flat_map (fun e => match e with RenderCall name => [name] | ProgressCall _ => [] end)
    calls.

(** The callback returns, whatever the value, and leaves the state that
    rendering works on as it found it. *)
Definition returns_quietly {World Value : Type} (f : callback World Value) : Prop :=
  forall p w, exists v, f p w = (w, Returned v).

(** The calls of a batch in which the callback is called for a name and the
    name is rendered next, name after name. *)
Definition alternating_calls (percentageOf : nat -> nat -> Z) (names : list jsstring)
  : list event :=
  flat_map
    (fun '(i, name) =>
       [ ProgressCall
           (mkProgress (i + 1) (length names) name
              (percentageOf (i + 1) (length names)));
         RenderCall name ])
    (combine (seq 0 (length names)) names).

(** The string contains [@] (code unit 64), or starts with [http://] or with
    [https://], or consists of digits only. *)
Definition structural (s : jsstring) : Prop :=
  In 64%N s
  \/ (exists rest, s = js "http://" ++ rest)
  \/ (exists rest, s = js "https://" ++ rest)
  \/ (s <> [] /\ Forall (fun c => is_digit c = true) s).

End Predicates.

(** ** Further predicates, for the file names, the calls and the archive *)

Module MorePredicates.
Import JsString FileParser CertificateGenerator Predicates.

(** The code units [[a-z0-9-_]]. *)
Definition is_safe_char (c : char) : bool :=
  in_range 97 122 c || is_digit c || (c =? 45)%N || (c =? 95)%N.

(** An ASCII capital letter as a small letter; any other code unit as it
    is. *)
Definition ascii_lower (c : char) : char :=
  if in_range 65 90 c then (c + 32)%N else c.

(** The arguments of the calls of the callback among the calls of a batch. *)
Definition progressCalls (calls : list event) : list Progress :=
  flat_map (fun e => match e with ProgressCall p => [p] | RenderCall _ => [] end) calls.

(** One progress report for each name, in order, with the index from one,
    the number of names, the name and the percentage. *)
Definition progressReports (percentageOf : nat -> nat -> Z) (names : list jsstring)
  : list Progress :=
  List.map
    (fun '(i, name) =>
       mkProgress (i + 1) (length names) name (percentageOf (i + 1) (length names)))
    (combine (seq 0 (length names)) names).


(** The callback throws whenever it is called. *)
Definition always_throws {World Value : Type} (f : callback World Value) : Prop :=
  forall p w, exists w' message, f p w = (w', Threw message).

(** The last certificate of a list that has the file name [name]. *)
Definition lastNamed {Bytes : Type} (name : jsstring) (l : list (Certificate Bytes))
  : option (Certificate Bytes) :=
  List.find (fun cert => eqb (filename cert) name) (rev l).

(** The line of a certificate in the summary, up to the end of the name. *)
Definition summaryLine {Bytes : Type} (cert : Certificate Bytes) : jsstring :=
  [BULLET; SPACE] ++ studentName cert ++ (if success cert then [LF] else js ": ").

(** A name as the list of the application holds it: without white space
    around it, of two words or more, and of at most 100 code units. *)
Definition presentable (name : jsstring) : Prop :=
  trim name = name /\ 2 <= length (word_heads true name) /\ length name <= 100.

(** The action is no upload for which [parseFile] gives the text
    [[object Object]], as it does for a file of the type [toString] or
    [toLocaleString]. *)
Definition names_or_nothing (a : CertificateApp.action) : Prop :=
  match a with
  | CertificateApp.Upload libs file =>
      FileParserIO.parseFile libs file <> FileParserIO.Value FileParserIO.ObjectText
  | _ => True
  end.

(** The code unit is neither a digit nor the underscore. *)
Definition is_plain (c : char) : bool := negb (is_digit c || (c =? 95)%N).

(** The text is drawn at the centred coordinate that [addText] computes
    for it, [position.x - textWidth / 2]: the margins do not move it. *)
Definition centred (text : jsstring) (position : Position)
  (pageWidth : JsNumber.number) : bool :=
  JsNumber.same (dt_x (addText text position pageWidth))
    (centeredX position (getTextWidth text (pos_font position) (pos_size position))).

(** With the exact values of the numbers that [addText] computes, the text
    starts at 50 or after it and ends at the page width less 50, or at most
    [slack] after it. *)
Definition within_margins (slack : Q) (text : jsstring) (position : Position)
  (pageWidth : JsNumber.number) : bool :=
  match JsNumber.to_Q (dt_x (addText text position pageWidth)),
        JsNumber.to_Q (getTextWidth text (pos_font position) (pos_size position)),
        JsNumber.to_Q pageWidth with
  | Some x, Some textWidth, Some width =>
      Qle_bool 50 x && Qle_bool (x + textWidth) (width - 50 + slack)
  | _, _, _ => false
  end.

End MorePredicates.

(** ** Facts about strings *)

Module JsStringFacts.
Import JsString Predicates.

Ltac char_facts :=
  unfold is_word, is_letter, is_digit, is_space, in_range, SPACE, LF, TAB in *;
  repeat rewrite ?orb_true_iff, ?andb_true_iff, ?orb_false_iff, ?andb_false_iff,
    ?negb_true_iff, ?negb_false_iff,
    ?N.leb_le, ?N.eqb_eq, ?N.leb_gt, ?N.eqb_neq in *;
  lia.

Lemma letter_not_space c : is_letter c = true -> is_space c = false.
Proof. intros H. destruct (is_space c) eqn:E; [|reflexivity]. char_facts. Qed.

Lemma digit_not_space c : is_digit c = true -> is_space c = false.
Proof. intros H. destruct (is_space c) eqn:E; [|reflexivity]. char_facts. Qed.

Lemma letter_not_digit c : is_letter c = true -> is_digit c = false.
Proof. intros H. destruct (is_digit c) eqn:E; [|reflexivity]. char_facts. Qed.

Lemma space_is_space : is_space SPACE = true.
Proof. reflexivity. Qed.

Lemma eqb_eq a b : eqb a b = true <-> a = b.
Proof.
  revert b. induction a as [|x a IH]; intros [|y b]; simpl; split; try congruence; try easy.
  - rewrite andb_true_iff, N.eqb_eq, IH. intros [-> ->]. reflexivity.
  - intros [= -> ->]. rewrite N.eqb_refl. simpl. apply IH. reflexivity.
Qed.

Lemma eqb_refl a : eqb a a = true.
Proof. apply eqb_eq. reflexivity. Qed.

Lemma eqb_neq a b : eqb a b = false <-> a <> b.
Proof.
  split.
  - intros H E. apply eqb_eq in E. congruence.
  - intros H. destruct (eqb a b) eqn:E; [|reflexivity]. apply eqb_eq in E. contradiction.
Qed.

Lemma existsb_eqb_In x l : existsb (eqb x) l = true <-> In x l.
Proof.
  rewrite existsb_exists. split.
  - intros (y & Hy & E). apply eqb_eq in E. subst. assumption.
  - intros H. exists x. split; [assumption | apply eqb_refl].
Qed.

(** *** Trimming *)

Lemma trimStart_starts s : starts_nonspace (trimStart s) = true.
Proof.
  unfold trimStart. induction s as [|c s IH]; simpl; [reflexivity|].
  destruct (is_space c) eqn:E; [assumption|]. simpl. rewrite E. reflexivity.
Qed.

Lemma trimStart_fixed s : starts_nonspace s = true -> trimStart s = s.
Proof.
  unfold trimStart. destruct s as [|c s]; simpl; [reflexivity|].
  rewrite negb_true_iff. intros ->. reflexivity.
Qed.

Lemma trimEnd_ends s : ends_nonspace (trimEnd s) = true.
Proof.
  induction s as [|c s IH]; simpl; [reflexivity|].
  destruct (trimEnd s) as [|d t] eqn:E.
  - destruct (is_space c) eqn:Ec; simpl; [reflexivity | rewrite Ec; reflexivity].
  - exact IH.
Qed.

Lemma trimEnd_fixed s : ends_nonspace s = true -> trimEnd s = s.
Proof.
  induction s as [|c s IH]; simpl; [reflexivity|].
  destruct s as [|d s'].
  - simpl. rewrite negb_true_iff. intros ->. reflexivity.
  - intros H. rewrite (IH H). reflexivity.
Qed.

Lemma trimEnd_starts s : starts_nonspace s = true -> starts_nonspace (trimEnd s) = true.
Proof.
  destruct s as [|c s]; simpl; [reflexivity|].
  intros H. destruct (trimEnd s); [|exact H].
  rewrite negb_true_iff in H. rewrite H. simpl. rewrite H. reflexivity.
Qed.

Lemma trim_starts s : starts_nonspace (trim s) = true.
Proof. apply trimEnd_starts, trimStart_starts. Qed.

Lemma trim_ends s : ends_nonspace (trim s) = true.
Proof. apply trimEnd_ends. Qed.

Lemma trim_fixed s :
  starts_nonspace s = true -> ends_nonspace s = true -> trim s = s.
Proof.
  intros Hs He. unfold trim. rewrite (trimStart_fixed s Hs). apply trimEnd_fixed, He.
Qed.

Lemma trim_idempotent s : trim (trim s) = trim s.
Proof. apply trim_fixed; [apply trim_starts | apply trim_ends]. Qed.

(** Trimming removes white space only. *)
Lemma filter_trimStart p s :
  (forall c, p c = true -> is_space c = false) ->
  List.filter p (trimStart s) = List.filter p s.
Proof.
  intros Hp. unfold trimStart. induction s as [|c s IH]; simpl; [reflexivity|].
  destruct (is_space c) eqn:E; [|reflexivity].
  rewrite IH. destruct (p c) eqn:Ep; [|reflexivity].
  apply Hp in Ep. congruence.
Qed.

Lemma filter_trimEnd p s :
  (forall c, p c = true -> is_space c = false) ->
  List.filter p (trimEnd s) = List.filter p s.
Proof.
  intros Hp. induction s as [|c s IH]; simpl; [reflexivity|].
  destruct (trimEnd s) as [|d t] eqn:E.
  - simpl in IH. rewrite <- IH.
    destruct (is_space c) eqn:Ec; simpl.
    + destruct (p c) eqn:Ep; [|reflexivity]. apply Hp in Ep. congruence.
    + reflexivity.
  - simpl. rewrite <- IH. reflexivity.
Qed.

Lemma filter_trim p s :
  (forall c, p c = true -> is_space c = false) ->
  List.filter p (trim s) = List.filter p s.
Proof.
  intros Hp. unfold trim. rewrite filter_trimEnd, filter_trimStart by assumption.
  reflexivity.
Qed.

Lemma trimStart_incl s c : In c (trimStart s) -> In c s.
Proof.
  unfold trimStart. induction s as [|d s IH]; simpl; [easy|].
  destruct (is_space d); simpl; auto.
Qed.

Lemma trimEnd_incl s c : In c (trimEnd s) -> In c s.
Proof.
  revert c. induction s as [|d s IH]; simpl; [easy|]. intros c.
  destruct (trimEnd s) as [|e t].
  - destruct (is_space d); simpl; tauto.
  - simpl. intros [H|H]; [left; exact H | right; apply IH; exact H].
Qed.

Lemma trim_incl s c : In c (trim s) -> In c s.
Proof. intros H. apply trimStart_incl, trimEnd_incl, H. Qed.

Lemma length_trimStart s : length (trimStart s) <= length s.
Proof.
  unfold trimStart. induction s as [|c s IH]; simpl; [lia|].
  destruct (is_space c); simpl; lia.
Qed.

Lemma length_trimEnd s : length (trimEnd s) <= length s.
Proof.
  induction s as [|c s IH]; simpl; [lia|].
  destruct (trimEnd s); [destruct (is_space c)|]; simpl in *; lia.
Qed.

Lemma length_trim s : length (trim s) <= length s.
Proof.
  unfold trim. etransitivity; [apply length_trimEnd | apply length_trimStart].
Qed.

(** *** Replacing runs of white space *)

Lemma filter_replace_runs p r b s :
  (forall c, p c = true -> is_space c = false) -> p r = false ->
  List.filter p (replace_runs r b s) = List.filter p s.
Proof.
  intros Hp Hr. revert b. induction s as [|c s IH]; intros b; simpl; [reflexivity|].
  destruct (is_space c) eqn:E.
  - assert (p c = false) as ->.
    { destruct (p c) eqn:Ep; [|reflexivity]. apply Hp in Ep. congruence. }
    destruct b; simpl; rewrite ?Hr; apply IH.
  - simpl. rewrite IH. reflexivity.
Qed.

Lemma length_replace_runs r b s : length (replace_runs r b s) <= length s.
Proof.
  revert b. induction s as [|c s IH]; intros b; simpl; [lia|].
  pose proof (IH true). pose proof (IH false).
  destruct (is_space c); [destruct b|]; simpl; lia.
Qed.

Lemma replace_runs_chars r b s c :
  In c (replace_runs r b s) -> c = r \/ (In c s /\ is_space c = false).
Proof.
  revert b. induction s as [|d s IH]; intros b; simpl; [easy|].
  destruct (is_space d) eqn:E.
  - destruct b; simpl.
    + intros H. destruct (IH _ H) as [|[? ?]]; auto.
    + intros [H|H]; [left; congruence|]. destruct (IH _ H) as [|[? ?]]; auto.
  - simpl. intros [H|H].
    + right. subst. auto.
    + destruct (IH _ H) as [|[? ?]]; auto.
Qed.

Lemma ends_nonspace_app (a b : jsstring) :
  b <> [] -> ends_nonspace (a ++ b) = ends_nonspace b.
Proof.
  intros Hb. induction a as [|c a IH]; [reflexivity|].
  simpl. destruct (a ++ b) eqn:E; [|exact IH].
  apply app_eq_nil in E as [_ E]. congruence.
Qed.

Lemma split_at_none p s :
  forallb (fun c => negb (p c)) s = true -> split_at p s = (s, []).
Proof.
  induction s as [|c s IH]; simpl; [reflexivity|].
  rewrite andb_true_iff, negb_true_iff. intros [-> H]. rewrite (IH H). reflexivity.
Qed.

Lemma split_app (p : char -> bool) a c b :
  p c = true -> split p (a ++ c :: b) = split p a ++ split p b.
Proof.
  intros Hc. unfold split. induction a as [|x a IH]; simpl.
  - rewrite Hc. destruct (split_at p b) as [h t]. reflexivity.
  - destruct (split_at p (a ++ c :: b)) as [h t].
    destruct (split_at p a) as [ha ta]. destruct (split_at p b) as [hb tb].
    simpl in IH. injection IH as -> ->. destruct (p x); reflexivity.
Qed.

Lemma join_cons sep (h h2 : jsstring) t :
  join sep (h :: h2 :: t) = h ++ sep :: join sep (h2 :: t).
Proof. reflexivity. Qed.

Lemma split_join p sep (h : jsstring) t :
  p sep = true ->
  Forall (fun piece : jsstring => forallb (fun c => negb (p c)) piece = true) (h :: t) ->
  split p (join sep (h :: t)) = h :: t.
Proof.
  intros Hs. revert h. induction t as [|h2 t IH]; intros h H.
  - simpl. rewrite app_nil_r. unfold split. inversion H; subst.
    rewrite split_at_none by assumption. reflexivity.
  - rewrite join_cons, (split_app p h sep _ Hs). inversion H; subst.
    rewrite IH by assumption. unfold split. rewrite split_at_none by assumption.
    reflexivity.
Qed.

Lemma join_ends sep (parts : list jsstring) :
  Forall (fun part : jsstring => part <> [] /\ ends_nonspace part = true) parts ->
  ends_nonspace (join sep parts) = true.
Proof.
  intros H. induction H as [|h t [Hne He] H IH]; [reflexivity|].
  destruct t as [|h2 t]; [simpl; rewrite app_nil_r; exact He|].
  rewrite join_cons.
  assert (E : join sep (h2 :: t) <> []).
  { inversion H as [|? ? [Hn2 _] _]; subst. destruct h2; [congruence | discriminate]. }
  rewrite ends_nonspace_app by discriminate.
  change (sep :: join sep (h2 :: t)) with ([sep] ++ join sep (h2 :: t)).
  rewrite ends_nonspace_app by exact E. exact IH.
Qed.

End JsStringFacts.

(** ** Properties of FileParser *)

Module FileParserProps.
Import JsString FileParser Predicates JsStringFacts Scenario.

Lemma filter_filter_and (p q : char -> bool) s :
  List.filter p (List.filter q s) = List.filter (fun c => q c && p c) s.
Proof.
  induction s as [|c s IH]; simpl; [reflexivity|].
  destruct (q c); simpl; [destruct (p c)|]; rewrite IH; reflexivity.
Qed.

Lemma filter_ext_chars (p q : char -> bool) s :
  (forall c, p c = q c) -> List.filter p s = List.filter q s.
Proof.
  intros H. induction s as [|c s IH]; simpl; [reflexivity|].
  rewrite H, IH. reflexivity.
Qed.

Lemma name_char_normal c :
  is_name_char c = true -> c = SPACE \/ is_space c = false -> is_normal_char c = true.
Proof.
  unfold is_name_char, is_normal_char. intros H [->|E]; [reflexivity|].
  rewrite E, orb_false_r in H.
  rewrite !orb_true_iff in *. unfold is_word in H. rewrite !orb_true_iff in H.
  tauto.
Qed.

Lemma cleanName_chars name c : In c (cleanName name) -> is_normal_char c = true.
Proof.
  unfold cleanName. destruct (truthy name); simpl; [|easy].
  intros H. apply trim_incl in H. apply filter_In in H as [H Hc].
  apply name_char_normal; [exact Hc|].
  apply replace_runs_chars in H as [->|[_ E]]; auto.
Qed.

(** *** The words of a name *)

Lemma replace_runs_join r insep s :
  replace_runs r insep s = join r (let (h, t) := split_runs_from insep s in h :: t).
Proof.
  revert insep. induction s as [|c s IH]; intros insep; [reflexivity|].
  cbn [replace_runs split_runs_from]. destruct (is_space c).
  - destruct insep; [apply IH|]. rewrite (IH true).
    destruct (split_runs_from true s) as [h t]. reflexivity.
  - rewrite (IH false). destruct (split_runs_from false s) as [h t]. reflexivity.
Qed.

Lemma filter_join (p : char -> bool) r (l : list jsstring) :
  p r = true -> List.filter p (join r l) = join r (List.map (List.filter p) l).
Proof.
  intros Hr. destruct l as [|h t]; [reflexivity|]. revert h.
  induction t as [|h2 t IH]; intros h.
  - simpl. rewrite !app_nil_r. reflexivity.
  - cbn [List.map]. rewrite !join_cons, List.filter_app. cbn [List.filter].
    rewrite Hr, (IH h2). reflexivity.
Qed.

Lemma split_runs_no_space insep s h t :
  split_runs_from insep s = (h, t) ->
  Forall (fun word : jsstring => forallb (fun c => negb (is_space c)) word = true) (h :: t).
Proof.
  revert insep h t. induction s as [|c s IH]; intros insep h t.
  - intros [= <- <-]. repeat constructor.
  - cbn [split_runs_from]. destruct (is_space c) eqn:Ec.
    + destruct insep; [apply IH|].
      destruct (split_runs_from true s) as [h' t'] eqn:E. intros [= <- <-].
      constructor; [reflexivity | apply (IH true h' t' E)].
    + destruct (split_runs_from false s) as [h' t'] eqn:E. intros [= <- <-].
      pose proof (IH false h' t' E) as H. inversion H; subst.
      constructor; [simpl; rewrite Ec; assumption | assumption].
Qed.

Lemma split_ws_no_space s :
  Forall (fun word : jsstring => forallb (fun c => negb (is_space c)) word = true)
    (split_ws s).
Proof.
  unfold split_ws. destruct (split_runs_from false s) as [h t] eqn:E.
  apply (split_runs_no_space false s h t E).
Qed.

Lemma kept_no_space (word : jsstring) :
  forallb (fun c => negb (is_space c)) word = true ->
  forallb (fun c => negb (is_space c)) (kept word) = true.
Proof.
  intros H. apply forallb_forall. intros c Hc. apply filter_In in Hc as [Hc _].
  rewrite forallb_forall in H. apply H, Hc.
Qed.

Lemma no_space_ends (word : jsstring) :
  forallb (fun c => negb (is_space c)) word = true -> ends_nonspace word = true.
Proof.
  induction word as [|c word IH]; [reflexivity|]. simpl.
  rewrite andb_true_iff. intros [Hc H]. destruct word; [exact Hc | apply IH, H].
Qed.

Lemma no_space_single_spaced (word rest : jsstring) :
  forallb (fun c => negb (is_space c)) word = true ->
  single_spaced (word ++ rest) = single_spaced rest.
Proof.
  induction word as [|c word IH]; [reflexivity|]. simpl forallb.
  rewrite andb_true_iff, negb_true_iff. intros [Hc H].
  change ((c :: word) ++ rest) with (c :: (word ++ rest)).
  cbn [single_spaced]. rewrite Hc, <- (IH H).
  destruct (word ++ rest); reflexivity.
Qed.

Section Words.
Variable words : list jsstring.
Hypothesis Hwords :
  Forall (fun word : jsstring =>
            word <> [] /\ forallb (fun c => negb (is_space c)) word = true) words.

Lemma words_join_starts : starts_nonspace (join SPACE words) = true.
Proof.
  destruct Hwords as [|word rest [Hne Hw] _]; [reflexivity|].
  destruct word as [|c word]; [congruence|]. simpl in Hw |- *.
  apply andb_true_iff in Hw as [Hc _]. exact Hc.
Qed.

Lemma words_join_trim : trim (join SPACE words) = join SPACE words.
Proof.
  apply trim_fixed; [apply words_join_starts|]. apply join_ends.
  eapply List.Forall_impl; [|exact Hwords]. intros word [Hne Hw].
  split; [exact Hne | apply no_space_ends, Hw].
Qed.

End Words.

Lemma words_join_single_spaced (words : list jsstring) :
  Forall (fun word : jsstring =>
            word <> [] /\ forallb (fun c => negb (is_space c)) word = true) words ->
  single_spaced (join SPACE words) = true.
Proof.
  intros H. induction H as [|word rest [Hne Hw] H IH]; [reflexivity|].
  destruct rest as [|word2 rest].
  - simpl. rewrite (no_space_single_spaced word [] Hw). reflexivity.
  - rewrite join_cons, (no_space_single_spaced word _ Hw).
    pose proof (words_join_starts (word2 :: rest) H) as Hs.
    destruct (join SPACE (word2 :: rest)) as [|c r] eqn:E; [reflexivity|].
    simpl in Hs. apply negb_true_iff in Hs.
    change (single_spaced (SPACE :: c :: r))
      with (negb (is_space SPACE && is_space c) && single_spaced (c :: r)).
    rewrite Hs, andb_false_r. exact IH.
Qed.

Lemma cleanName_words name :
  cleanName name = trim (join SPACE (List.map kept (split_ws (trim name)))).
Proof.
  unfold cleanName. destruct name as [|c0 name0]; [reflexivity|].
  cbn [truthy negb]. unfold replace_ws, split_ws.
  rewrite replace_runs_join, filter_join by reflexivity. reflexivity.
Qed.

(** What [cleanName] keeps is more than the letters, digits, white space,
    apostrophes and hyphens, and less: the underscore stays, a letter
    outside ASCII goes, and a word that is removed as a whole leaves the
    spaces on both its sides, two in a row. *)
Lemma cleanName_underscore_and_run :
  cleanName (js "Mary_Ann Smith") = js "Mary_Ann Smith"
  /\ ~ Forall (fun c => is_specified_char c = true) (cleanName (js "Mary_Ann Smith"))
  /\ cleanName (js "Ann & Lee Smith") = js "Ann  Lee Smith"
  /\ single_spaced (cleanName (js "Ann & Lee Smith")) = false
  /\ cleanName (js "Jos" ++ [233%N] ++ js " D" ++ [237%N] ++ js "az") = js "Jos Daz".
Proof.
  repeat split; try reflexivity.
  intros H. rewrite List.Forall_forall in H.
  assert (E : is_specified_char 95%N = true); [|discriminate E].
  apply H. vm_compute. repeat (first [left; reflexivity | right]).
Qed.

(** C8 (as amended).  For every input string, [cleanName] yields a string
    made of ASCII letters, digits, underscores, spaces, apostrophes and
    hyphens only, without white space at either end, whose characters other
    than spaces are exactly the input's ASCII letters, digits, underscores,
    apostrophes and hyphens, in the order of the input.  The spaces stand
    where the runs of white space inside the input stood: the result is the
    words of the trimmed input, each reduced to the characters that are
    kept, with one space between two words that followed each other, less
    the spaces that this leaves at the ends.  When every word keeps a
    character, nothing is left at the ends and no two spaces follow each
    other. *)
Theorem cleanName_normal_form (name : jsstring) :
  Forall (fun c => is_normal_char c = true) (cleanName name)
  /\ starts_nonspace (cleanName name) = true
  /\ ends_nonspace (cleanName name) = true
  /\ List.filter (fun c => negb (is_space c)) (cleanName name)
     = List.filter (fun c => is_name_char c && negb (is_space c)) name
  /\ Forall (fun word : jsstring => forallb (fun c => negb (is_space c)) word = true)
       (split_ws (trim name))
  /\ cleanName name = trim (join SPACE (List.map kept (split_ws (trim name))))
  /\ (Forall (fun word : jsstring => kept word <> []) (split_ws (trim name)) ->
        cleanName name = join SPACE (List.map kept (split_ws (trim name)))
        /\ single_spaced (cleanName name) = true).
Proof.
  split; [|split; [|split; [|split; [|split; [|split]]]]].
  - apply List.Forall_forall. intros c. apply cleanName_chars.
  - unfold cleanName. destruct (truthy name); simpl; [apply trim_starts | reflexivity].
  - unfold cleanName. destruct (truthy name); simpl; [apply trim_ends | reflexivity].
  - unfold cleanName. destruct name as [|c0 name0]; [reflexivity|].
    cbn [truthy negb]. set (name := c0 :: name0).
    assert (Hns : forall c, negb (is_space c) = true -> is_space c = false)
      by (intros c; apply negb_true_iff).
    rewrite filter_trim by exact Hns.
    rewrite filter_filter_and.
    assert (Hp : forall c, is_name_char c && negb (is_space c) = true -> is_space c = false).
    { intros c. rewrite andb_true_iff, negb_true_iff. tauto. }
    unfold replace_ws. rewrite filter_replace_runs; [|exact Hp|reflexivity].
    apply filter_trim. exact Hp.
  - apply split_ws_no_space.
  - apply cleanName_words.
  - intros Hk.
    assert (Hw : Forall (fun word : jsstring =>
                           word <> [] /\ forallb (fun c => negb (is_space c)) word = true)
                   (List.map kept (split_ws (trim name)))).
    { apply Forall_map. pose proof (split_ws_no_space (trim name)) as Hs.
      rewrite List.Forall_forall in Hk, Hs. apply List.Forall_forall. intros word Hin.
      split; [apply Hk, Hin | apply kept_no_space, Hs, Hin]. }
    rewrite cleanName_words, (words_join_trim _ Hw).
    split; [reflexivity | apply (words_join_single_spaced _ Hw)].
Qed.

(** On the roster with the header row [Student Name,Grade] the result of
    [parseCsvFile] is not the two names of the data rows alone: the header
    cell is among the names. *)
Lemma parseCsvFile_header_cell_not_excluded :
  parseCsvFile roster_csv <> [js "John Smith"; js "Maria Garcia"]
  /\ In (js "Student Name") (parseCsvFile roster_csv).
Proof. split; [discriminate | left; reflexivity]. Qed.

(** C1 (as amended).  On the roster with the header row
    [Student Name,Grade], [parseCsvFile] returns [Student Name],
    [John Smith], [Maria Garcia]: the header cell has two words that start
    with a letter, so [isValidName] accepts it and [isHeaderLine], which
    vetoes only what [isValidName] rejects, lets it through; the cells
    [Grade] and [K] give no name. *)
Theorem parseCsvFile_keeps_header_cell :
  parseCsvFile roster_csv = [js "Student Name"; js "John Smith"; js "Maria Garcia"]
  /\ isValidName (js "Student Name") = true
  /\ isHeaderLine (js "Student Name") = false
  /\ extractNamesFromText (js "Grade") = []
  /\ extractNamesFromText (js "K") = [].
Proof. repeat split; vm_compute; reflexivity. Qed.

(** *** Type detection *)

(** A file whose MIME type finds no property of [supportedFormats] and whose
    extension finds no property of [extensionMap] is taken for plain text. *)
Lemma detectFileType_default (file : File) :
  file_type file = [] \/ get supportedFormats (file_type file) = None ->
  (let (h, t) := split_at (N.eqb 46) (toLowerCase (file_name file)) in
   get extensionMap (pop h t)) = None ->
  detectFileType file = Own (js "text/plain").
Proof.
  unfold detectFileType. intros Ht He.
  destruct (split_at (N.eqb 46) (toLowerCase (file_name file))) as [h t].
  rewrite He.
  destruct Ht as [-> | ->]; [reflexivity|].
  rewrite andb_false_r. reflexivity.
Qed.

(** C10.  For the file [roster.constructor] without a MIME type, whose
    extension is none of the seven of [extensionMap], [detectFileType] does
    not return [text/plain]: the read [extensionMap[extension]] finds the
    member [constructor] that the object literal inherits, and returns it.
    [parseFile] has no handler for it and parses the file as plain text. *)
Theorem detectFileType_inherited_member :
  file_type odd_extension_file = []
  /\ extensionMap !! js "constructor" = None
  /\ detectFileType odd_extension_file = Inherited (js "constructor")
  /\ detectFileType odd_extension_file <> Own (js "text/plain")
  /\ parseFile_dispatch odd_extension_file = Own TextParser.
Proof. repeat split; try (vm_compute; reflexivity). discriminate. Qed.

End FileParserProps.

(** ** Valid names and their normal form *)

Module NameValidity.
Import JsString FileParser Predicates JsStringFacts FileParserProps Scenario.

(** *** Words *)

Lemma split_runs_heads s :
  (forall h t, split_runs_from true s = (h, t) -> heads (h :: t) = word_heads true s)
  /\ (forall h t, split_runs_from false s = (h, t) ->
        heads (h :: t) = word_heads true s /\ heads t = word_heads false s).
Proof.
  induction s as [|c s [IHt IHf]]; simpl.
  - split; intros h t [= <- <-]; auto.
  - destruct (is_space c) eqn:E.
    + split.
      * intros h t H. apply IHt, H.
      * intros h t H. destruct (split_runs_from true s) as [h' t'] eqn:E'.
        injection H as <- <-. specialize (IHt _ _ eq_refl).
        split; exact IHt.
    + destruct (split_runs_from false s) as [h' t'] eqn:E'.
      destruct (IHf _ _ eq_refl) as [_ IH2].
      split; intros h t [= <- <-]; unfold heads in *; simpl; rewrite IH2; auto.
Qed.

Lemma heads_filter_truthy l : heads (List.filter truthy l) = heads l.
Proof.
  unfold heads. induction l as [|w l IH]; simpl; [reflexivity|].
  destruct w; simpl; rewrite IH; reflexivity.
Qed.

Lemma length_heads_truthy l : length (List.filter truthy l) = length (heads l).
Proof.
  unfold heads. induction l as [|w l IH]; simpl; [reflexivity|].
  destruct w; simpl; rewrite IH; reflexivity.
Qed.

Lemma starts_with_letter_heads l :
  forallb starts_with_letter (List.filter truthy l) = forallb is_letter (heads l).
Proof.
  unfold heads. induction l as [|w l IH]; simpl; [reflexivity|].
  destruct w; simpl; rewrite IH; reflexivity.
Qed.

Lemma heads_split_ws s : heads (split_ws s) = word_heads true s.
Proof.
  unfold split_ws. destruct (split_runs_from false s) as [h t] eqn:E.
  apply (split_runs_heads s), E.
Qed.

Lemma length_word_heads b s : length (word_heads b s) <= length s.
Proof.
  revert b. induction s as [|c s IH]; intros b; simpl; [lia|].
  pose proof (IH true). pose proof (IH false).
  destruct (is_space c); [|destruct b]; simpl; lia.
Qed.

(** *** The validity test, condition by condition *)

Lemma isValidName_conditions str :
  isValidName str = true <-> str <> [] /\ valid_conditions (trim str).
Proof.
  unfold isValidName.
  destruct str as [|c0 str0]; [simpl; split; [discriminate | intros [H _]; congruence]|].
  cbn [truthy negb]. set (t := trim (c0 :: str0)).
  rewrite length_heads_truthy, starts_with_letter_heads, heads_split_ws.
  split.
  - intros H. split; [discriminate|].
    destruct ((length t <? 2) || (100 <? length t)) eqn:E1; [discriminate|].
    destruct (existsb is_letter t) eqn:E2; [|discriminate].
    destruct (2 * length (List.filter is_letter t) <? length t) eqn:E3; [discriminate|].
    destruct (length (word_heads true t) <? 2) eqn:E4; [discriminate|].
    destruct (forallb is_letter (word_heads true t)) eqn:E5; [|discriminate].
    destruct (existsb (fun pattern : jsstring -> bool => pattern t) invalidPatterns) eqn:E6;
      [discriminate|].
    apply orb_false_iff in E1 as [E1 E1'].
    apply Nat.ltb_ge in E1, E1', E3, E4.
    constructor; auto; lia.
  - intros [_ [Hl He Hr Hw Hh Hp]].
    assert (E1 : (length t <? 2) || (100 <? length t) = false).
    { apply orb_false_iff. split; apply Nat.ltb_ge; lia. }
    rewrite E1, He. cbn [negb].
    assert (E3 : (2 * length (List.filter is_letter t) <? length t) = false)
      by (apply Nat.ltb_ge; lia).
    rewrite E3.
    assert (E4 : (length (word_heads true t) <? 2) = false) by (apply Nat.ltb_ge; lia).
    rewrite E4, Hh, Hp. reflexivity.
Qed.

Lemma isValidName_trim str : isValidName str = true -> isValidName (trim str) = true.
Proof.
  rewrite !isValidName_conditions. intros [_ H]. rewrite trim_idempotent.
  split; [|exact H].
  destruct H as [Hl _ _ _ _ _]. destruct (trim str); simpl in Hl; [lia | discriminate].
Qed.

(** *** Normalizing a valid name *)

Lemma tidy_replace_runs s :
  ends_nonspace s = true ->
  (s <> [] -> forallb is_letter (word_heads true s) = true ->
   tidy_from true (replace_runs SPACE true s) = true)
  /\ (forallb is_letter (word_heads false s) = true ->
      tidy_from false (replace_runs SPACE false s) = true).
Proof.
  induction s as [|c s IH]; [simpl; split; [congruence | reflexivity]|].
  intros He.
  assert (He' : ends_nonspace s = true) by (destruct s; [reflexivity | exact He]).
  destruct (IH He') as [IHt IHf].
  assert (Hne : is_space c = true -> s <> []).
  { intros E ->. simpl in He. rewrite E in He. discriminate. }
  simpl. destruct (is_space c) eqn:E.
  - split.
    + intros _ H. apply IHt; auto.
    + intros H. simpl. apply IHt; auto.
  - split.
    + intros _ H. simpl in H. apply andb_true_iff in H as [Hc H].
      simpl. rewrite Hc. simpl. apply IHf, H.
    + intros H. simpl.
      destruct (c =? SPACE)%N eqn:Ec.
      { apply N.eqb_eq in Ec. subst. discriminate E. }
      rewrite E. simpl. apply IHf, H.
Qed.

Lemma tidy_filter b s :
  tidy_from b s = true -> tidy_from b (List.filter is_name_char s) = true.
Proof.
  revert b. induction s as [|c s IH]; intros b; simpl; [auto|].
  destruct b.
  - rewrite andb_true_iff. intros [Hc H].
    assert (is_name_char c = true) as ->.
    { unfold is_name_char, is_word. rewrite Hc. reflexivity. }
    simpl. rewrite Hc. simpl. apply IH, H.
  - destruct (c =? SPACE)%N eqn:Ec.
    + apply N.eqb_eq in Ec. subst. intros H. simpl. apply IH, H.
    + rewrite andb_true_iff. intros [Hc H].
      destruct (is_name_char c); [|apply IH, H].
      simpl. rewrite Ec, Hc. simpl. apply IH, H.
Qed.

Lemma tidy_from_ends b s : tidy_from b s = true -> ends_nonspace s = true.
Proof.
  revert b. induction s as [|c s IH]; intros b; simpl; [reflexivity|].
  destruct s as [|d s'].
  - destruct b; simpl.
    + rewrite andb_true_iff. intros [H _]. rewrite (letter_not_space c H). reflexivity.
    + destruct (c =? SPACE)%N; [discriminate|]. rewrite andb_true_iff. tauto.
  - destruct b.
    + rewrite andb_true_iff. intros [_ H]. apply (IH _ H).
    + destruct (c =? SPACE)%N; [apply IH|].
      rewrite andb_true_iff. intros [_ H]. apply (IH _ H).
Qed.

Lemma tidy_starts s : tidy s = true -> starts_nonspace s = true.
Proof.
  destruct s as [|c s]; simpl; [reflexivity|].
  unfold tidy. simpl. rewrite andb_true_iff. intros [H _].
  rewrite (letter_not_space c H). reflexivity.
Qed.

Lemma tidy_trim s : tidy s = true -> trim s = s.
Proof.
  intros H. apply trim_fixed; [apply tidy_starts, H | apply (tidy_from_ends _ _ H)].
Qed.

Lemma tidy_nonempty s : tidy s = true -> s <> [].
Proof. intros H ->. discriminate H. Qed.

Lemma tidy_replace_fixed b s :
  tidy_from b s = true -> forall b', (b = false -> b' = false) ->
  replace_runs SPACE b' s = s.
Proof.
  revert b. induction s as [|c s IH]; intros b H b' Hb; simpl; [reflexivity|].
  simpl in H. destruct b.
  - apply andb_true_iff in H as [Hc H].
    rewrite (letter_not_space c Hc). f_equal. apply (IH false H). auto.
  - rewrite (Hb eq_refl).
    destruct (c =? SPACE)%N eqn:Ec.
    + apply N.eqb_eq in Ec. subst. simpl. f_equal. apply (IH true H). discriminate.
    + apply andb_true_iff in H as [Hc H]. apply negb_true_iff in Hc.
      rewrite Hc. f_equal. apply (IH false H). auto.
Qed.

Lemma filter_idempotent (p : char -> bool) s :
  List.filter p (List.filter p s) = List.filter p s.
Proof.
  rewrite filter_filter_and. apply filter_ext_chars. intros c. destruct (p c); reflexivity.
Qed.

(** The shape of the normal form is enough for an input to be its own
    normal form. *)
Lemma cleanName_fixed s :
  tidy s = true -> List.filter is_name_char s = s -> cleanName s = s.
Proof.
  intros Ht Hf. unfold cleanName.
  destruct s as [|c s']; [discriminate Ht|]. cbn [truthy negb].
  rewrite (tidy_trim _ Ht). unfold replace_ws.
  rewrite (tidy_replace_fixed true _ Ht false) by discriminate.
  rewrite Hf. apply tidy_trim, Ht.
Qed.

Lemma word_heads_replace_runs s :
  word_heads true (replace_runs SPACE true s) = word_heads true s
  /\ word_heads false (replace_runs SPACE false s) = word_heads false s
  /\ word_heads true (replace_runs SPACE false s) = word_heads true s.
Proof.
  induction s as [|c s (IH1 & IH2 & IH3)]; simpl; [auto|].
  destruct (is_space c) eqn:E; simpl; rewrite ?E; auto.
  rewrite IH2. auto.
Qed.

Lemma word_heads_filter b s :
  tidy_from b s = true ->
  word_heads b (List.filter is_name_char s) = word_heads b s.
Proof.
  revert b. induction s as [|c s IH]; intros b; simpl; [reflexivity|].
  destruct b.
  - rewrite andb_true_iff. intros [Hc H].
    assert (is_name_char c = true) as ->.
    { unfold is_name_char, is_word. rewrite Hc. reflexivity. }
    simpl. rewrite (letter_not_space c Hc). f_equal. apply IH, H.
  - destruct (c =? SPACE)%N eqn:Ec.
    + apply N.eqb_eq in Ec. subst. intros H. simpl. apply IH, H.
    + rewrite andb_true_iff. intros [Hc H]. apply negb_true_iff in Hc.
      rewrite Hc. destruct (is_name_char c); simpl; rewrite ?Hc; apply IH, H.
Qed.

Lemma trim_head c s : is_space c = false -> exists r, trim (c :: s) = c :: r.
Proof.
  intros E. unfold trim, trimStart. simpl. rewrite E. simpl.
  destruct (trimEnd s); rewrite ?E; eauto.
Qed.

Lemma valid_head t :
  starts_nonspace t = true -> ends_nonspace t = true -> valid_conditions t ->
  exists a t', t = a :: t' /\ is_letter a = true /\ ends_nonspace t' = true
               /\ forallb is_letter (word_heads false t') = true.
Proof.
  intros Hs He [Hl _ _ _ Hh _].
  destruct t as [|a t']; [simpl in Hl; lia|].
  simpl in Hs. apply negb_true_iff in Hs.
  simpl in Hh. rewrite Hs in Hh. simpl in Hh. apply andb_true_iff in Hh as [Ha Hh].
  exists a, t'. repeat split; auto.
  destruct t'; [reflexivity | exact He].
Qed.

Lemma letter_is_name_char c : is_letter c = true -> is_name_char c = true.
Proof. intros H. unfold is_name_char, is_word. rewrite H. reflexivity. Qed.

Lemma cleanName_trim x : cleanName (trim x) = cleanName x.
Proof.
  unfold cleanName. destruct x as [|c x]; [reflexivity|].
  cbn [truthy negb]. destruct (trim (c :: x)) as [|d t] eqn:E; [reflexivity|].
  cbn [truthy negb]. rewrite <- E, trim_idempotent. reflexivity.
Qed.

(** What normalization makes of a valid name. *)
Lemma valid_normal_form x :
  isValidName x = true ->
  tidy (cleanName x) = true
  /\ List.filter is_name_char (cleanName x) = cleanName x
  /\ word_heads true (cleanName x) = word_heads true (trim x)
  /\ List.filter is_letter (cleanName x) = List.filter is_letter (trim x)
  /\ length (cleanName x) <= length (trim x).
Proof.
  intros Hv. apply isValidName_conditions in Hv as [Hne Hc].
  destruct (valid_head (trim x) (trim_starts x) (trim_ends x) Hc)
    as (a & t' & Et & Ha & He' & Hh').
  unfold cleanName. destruct x as [|c0 x0]; [congruence|]. cbn [truthy negb].
  set (x := c0 :: x0) in *. set (c := replace_ws SPACE (trim x)).
  assert (Hc' : tidy c = true).
  { unfold c, replace_ws, tidy. rewrite Et. simpl.
    rewrite (letter_not_space a Ha). simpl. rewrite Ha. simpl.
    apply (tidy_replace_runs t' He'), Hh'. }
  pose proof (tidy_filter true c Hc') as Hs.
  rewrite (tidy_trim _ Hs).
  split; [exact Hs|]. split; [apply filter_idempotent|]. split; [|split].
  - rewrite (word_heads_filter true c Hc'). unfold c, replace_ws.
    apply word_heads_replace_runs.
  - rewrite filter_filter_and.
    rewrite (filter_ext_chars _ is_letter).
    + unfold c, replace_ws. apply filter_replace_runs; [apply letter_not_space | reflexivity].
    + intros d. destruct (is_letter d) eqn:Ed; [rewrite (letter_is_name_char d Ed)|];
        auto using andb_false_r.
  - etransitivity; [apply filter_length_le|]. apply length_replace_runs.
Qed.

Lemma startsWith_incl p s c : startsWith p s = true -> In c p -> In c s.
Proof.
  revert s. induction p as [|a p IH]; intros s; [easy|].
  destruct s as [|b s]; simpl; [discriminate|].
  rewrite andb_true_iff, N.eqb_eq. intros [-> H] [->|Hc]; [left; reflexivity|].
  right. apply IH; assumption.
Qed.

Lemma includes_incl sub s c : includes sub s = true -> In c sub -> In c s.
Proof.
  induction s as [|b s IH]; cbn [includes]; rewrite orb_true_iff.
  - intros [H|H] Hc; [|discriminate]. apply (startsWith_incl _ _ _ H Hc).
  - intros [H|H] Hc; [apply (startsWith_incl _ _ _ H Hc)|]. right. apply IH; assumption.
Qed.

Lemma dropWhile_incl p s c : In c (dropWhile p s) -> In c s.
Proof.
  induction s as [|d s IH]; simpl; [easy|].
  destruct (p d); [right; apply IH; assumption | exact (fun H => H)].
Qed.

(** A string of name characters that starts with a letter matches none of
    the five patterns. *)
Lemma normal_form_patterns a s :
  is_letter a = true -> (forall c, In c (a :: s) -> is_name_char c = true) ->
  existsb (fun pattern : jsstring -> bool => pattern (a :: s)) invalidPatterns = false.
Proof.
  intros Ha Hall. set (y := a :: s) in *.
  assert (N46 : ~ In 46%N y) by (intros H; apply Hall in H; discriminate H).
  assert (N58 : ~ In 58%N y) by (intros H; apply Hall in H; discriminate H).
  assert (N64 : ~ In 64%N y) by (intros H; apply Hall in H; discriminate H).
  unfold invalidPatterns. cbn [existsb]. rewrite !orb_false_iff.
  repeat split; auto.
  - unfold all_digits, y. simpl. rewrite (letter_not_digit a Ha). reflexivity.
  - unfold has_at. destruct (existsb (N.eqb 64) y) eqn:E; [|reflexivity].
    apply existsb_exists in E as (c & Hc & E). apply N.eqb_eq in E. subst. contradiction.
  - unfold has_url_scheme. apply orb_false_iff.
    split; match goal with |- ?b = false => destruct b eqn:E; [|reflexivity] end;
      exfalso; apply N58; apply (startsWith_incl _ _ _ E); vm_compute; tauto.
  - unfold has_domain. rewrite !orb_false_iff.
    repeat split; match goal with |- ?b = false => destruct b eqn:E; [|reflexivity] end;
      exfalso; apply N46; apply (includes_incl _ _ _ E); vm_compute; tauto.
  - unfold is_dotted_pair. apply andb_false_iff. right.
    destruct (dropWhile is_word y) as [|d rest] eqn:E; [reflexivity|].
    destruct (d =? 46)%N eqn:Ed; [|reflexivity].
    apply N.eqb_eq in Ed. subst. exfalso. apply N46.
    apply (dropWhile_incl is_word). rewrite E. left. reflexivity.
Qed.

Lemma tidy_head s : tidy s = true -> exists a s', s = a :: s' /\ is_letter a = true.
Proof.
  destruct s as [|a s']; [discriminate|]. unfold tidy. simpl.
  rewrite andb_true_iff. intros [H _]. eauto.
Qed.

(** The normal form of a valid name is a valid name, and its own normal
    form. *)
Lemma valid_cleanName x :
  isValidName x = true ->
  isValidName (cleanName x) = true /\ cleanName (cleanName x) = cleanName x.
Proof.
  intros Hv. destruct (valid_normal_form x Hv) as (Ht & Hf & Hw & Hl & Hlen).
  split; [|apply cleanName_fixed; assumption].
  apply isValidName_conditions in Hv as [_ [Vl Ve Vr Vw Vh Vp]].
  apply isValidName_conditions. split; [apply tidy_nonempty, Ht|].
  rewrite (tidy_trim _ Ht).
  destruct (tidy_head _ Ht) as (a & s' & Ey & Ha).
  constructor.
  - pose proof (length_word_heads true (cleanName x)). rewrite Hw in *. lia.
  - rewrite Ey. simpl. rewrite Ha. reflexivity.
  - rewrite Hl. lia.
  - rewrite Hw. exact Vw.
  - rewrite Hw. exact Vh.
  - rewrite Ey. apply normal_form_patterns; [exact Ha|].
    rewrite <- Ey. intros c Hc. rewrite <- Hf in Hc. apply filter_In in Hc. tauto.
Qed.

(** *** Classifying a valid name *)

Lemma letter_not_bullet c : is_letter c = true -> is_bullet c = false.
Proof.
  intros H. destruct (is_bullet c) eqn:E; [|reflexivity].
  unfold is_bullet in E. char_facts.
Qed.

Lemma extractNamesFromLine_valid x :
  isValidName x = true -> extractNamesFromLine x = [trim x].
Proof.
  intros Hv. pose proof (isValidName_trim x Hv) as Hvt.
  apply isValidName_conditions in Hv as [Hne Hc].
  destruct (valid_head (trim x) (trim_starts x) (trim_ends x) Hc)
    as (a & t' & Et & Ha & _ & _).
  assert (Eo : strip_ordinal x = x).
  { unfold strip_ordinal. destruct x as [|d x']; [congruence|]. simpl.
    destruct (is_digit d) eqn:Ed; [|reflexivity].
    destruct (trim_head d x' (digit_not_space d Ed)) as [r Er].
    rewrite Er in Et. injection Et as -> _.
    rewrite (letter_not_digit a Ha) in Ed. discriminate. }
  unfold extractNamesFromLine. rewrite Eo.
  assert (Eb : strip_bullet (trim x) = trim x).
  { rewrite Et. simpl. rewrite (letter_not_bullet a Ha). reflexivity. }
  rewrite Eb, trim_idempotent, Hvt. reflexivity.
Qed.

Lemma cleanAndValidateNames_single n :
  isValidName (cleanName n) = true -> cleanAndValidateNames [n] = [cleanName n].
Proof.
  intros Hv. unfold cleanAndValidateNames. simpl. rewrite Hv.
  assert (truthy (cleanName n) = true) as ->.
  { destruct (cleanName n); [discriminate Hv | reflexivity]. }
  simpl. unfold filter_indexed. simpl. rewrite eqb_refl. reflexivity.
Qed.

(** C9.  For every string that [isValidName] accepts, classifying the
    normalized string gives what classifying the string gives: the validity
    test answers the same, the header test answers the same, and the
    candidates that [extractNamesFromLine] emits, normalized and validated by
    [cleanAndValidateNames], are the same, namely the normalized string
    alone, which normalization leaves as it is. *)
Theorem classification_idempotent (x : jsstring) :
  isValidName x = true ->
  isValidName (cleanName x) = isValidName x
  /\ isHeaderLine (cleanName x) = isHeaderLine x
  /\ cleanAndValidateNames (extractNamesFromLine (cleanName x))
     = cleanAndValidateNames (extractNamesFromLine x)
  /\ cleanAndValidateNames (extractNamesFromLine x) = [cleanName x]
  /\ cleanName (cleanName x) = cleanName x.
Proof.
  intros Hv. destruct (valid_cleanName x Hv) as [Hvy Hfix].
  assert (E1 : cleanAndValidateNames (extractNamesFromLine x) = [cleanName x]).
  { rewrite (extractNamesFromLine_valid x Hv).
    rewrite <- (cleanName_trim x) in Hvy |- *.
    apply cleanAndValidateNames_single, Hvy. }
  assert (E2 : cleanAndValidateNames (extractNamesFromLine (cleanName x)) = [cleanName x]).
  { rewrite (extractNamesFromLine_valid _ Hvy).
    destruct (valid_normal_form x Hv) as (Ht & _). rewrite (tidy_trim _ Ht).
    rewrite <- Hfix at 2. apply cleanAndValidateNames_single. rewrite Hfix. exact Hvy. }
  repeat split.
  - congruence.
  - unfold isHeaderLine. rewrite Hv, Hvy, !andb_false_r. reflexivity.
  - congruence.
  - exact E1.
  - exact Hfix.
Qed.

Lemma classification_idempotent_witness :
  isValidName spaced_name = true
  /\ (isValidName (cleanName spaced_name) = isValidName spaced_name
      /\ isHeaderLine (cleanName spaced_name) = isHeaderLine spaced_name
      /\ cleanAndValidateNames (extractNamesFromLine (cleanName spaced_name))
         = cleanAndValidateNames (extractNamesFromLine spaced_name)
      /\ cleanAndValidateNames (extractNamesFromLine spaced_name) = [cleanName spaced_name]
      /\ cleanName (cleanName spaced_name) = cleanName spaced_name).
Proof.
  split; [vm_compute; reflexivity|].
  apply (classification_idempotent spaced_name). vm_compute. reflexivity.
Defined.

End NameValidity.

(** ** Duplicates and order of the extracted names *)

Module Extraction.
Import JsString FileParser Predicates JsStringFacts FileParserProps NameValidity Scenario.

(** *** First occurrences *)

Lemma indexOf_notin x l : ~ In x l -> indexOf x l = (-1)%Z.
Proof.
  induction l as [|y l IH]; simpl; [reflexivity|]. intros H.
  destruct (eqb y x) eqn:E.
  - apply eqb_eq in E. subst. tauto.
  - rewrite IH by tauto. reflexivity.
Qed.

Lemma indexOf_in x l : In x l -> (0 <= indexOf x l < Z.of_nat (length l))%Z.
Proof.
  induction l as [|y l IH]; simpl length; [easy|]. intros H. cbn [indexOf].
  destruct (eqb y x) eqn:E; [lia|].
  destruct H as [H|H]; [subst; rewrite eqb_refl in E; discriminate|].
  specialize (IH H). destruct (indexOf x l <? 0)%Z eqn:El; lia.
Qed.

Lemma indexOf_app_in x pre post :
  In x pre -> indexOf x (pre ++ post) = indexOf x pre.
Proof.
  induction pre as [|y pre IH]; [easy|]. intros H. simpl.
  destruct (eqb y x) eqn:E; [reflexivity|].
  destruct H as [H|H]; [subst; rewrite eqb_refl in E; discriminate|].
  rewrite (IH H). reflexivity.
Qed.

Lemma indexOf_app_notin x pre post :
  ~ In x pre -> In x post ->
  indexOf x (pre ++ post) = (Z.of_nat (length pre) + indexOf x post)%Z.
Proof.
  intros Hn Hp. induction pre as [|y pre IH]; [simpl; lia|].
  simpl app. cbn [indexOf]. simpl length.
  destruct (eqb y x) eqn:E; [apply eqb_eq in E; subst; simpl in Hn; tauto|].
  rewrite IH by (simpl in Hn; tauto).
  pose proof (indexOf_in x post Hp).
  destruct (Z.of_nat (length pre) + indexOf x post <? 0)%Z eqn:El; lia.
Qed.

Lemma first_occurrence_test x pre post :
  (indexOf x (pre ++ x :: post) =? Z.of_nat (length pre))%Z
  = negb (existsb (eqb x) pre).
Proof.
  destruct (existsb (eqb x) pre) eqn:E.
  - apply existsb_eqb_In in E. rewrite (indexOf_app_in _ _ _ E).
    pose proof (indexOf_in x pre E). simpl. apply Z.eqb_neq. lia.
  - assert (Hn : ~ In x pre).
    { intros H. apply existsb_eqb_In in H. congruence. }
    rewrite (indexOf_app_notin _ _ _ Hn) by (left; reflexivity).
    simpl. rewrite eqb_refl. apply Z.eqb_eq. lia.
Qed.

Lemma filter_from_dedup L pre l :
  L = pre ++ l ->
  filter_from (fun x i => (indexOf x L =? i)%Z) (Z.of_nat (length pre)) l
  = dedup_with pre l.
Proof.
  revert pre. induction l as [|x l IH]; intros pre HL; [reflexivity|].
  assert (HL' : L = (pre ++ [x]) ++ l) by (rewrite <- app_assoc; exact HL).
  specialize (IH (pre ++ [x]) HL').
  rewrite length_app, Nat2Z.inj_add in IH. change (Z.of_nat (length [x])) with 1%Z in IH.
  cbn [filter_from dedup_with]. rewrite IH.
  assert (E : (indexOf x L =? Z.of_nat (length pre))%Z = negb (existsb (eqb x) pre)).
  { rewrite HL. apply first_occurrence_test. }
  rewrite E. destruct (existsb (eqb x) pre); reflexivity.
Qed.

Lemma filter_indexed_dedup l :
  filter_indexed (fun name index array => (indexOf name array =? index)%Z) l
  = dedup_with [] l.
Proof. unfold filter_indexed. apply (filter_from_dedup l [] l). reflexivity. Qed.

Lemma set_of_dedup l acc seen :
  (forall a, In a acc <-> In a seen) ->
  fold_left set_add l acc = acc ++ dedup_with seen l.
Proof.
  revert acc seen. induction l as [|x l IH]; intros acc seen H; simpl.
  - rewrite app_nil_r. reflexivity.
  - unfold set_add at 2.
    assert (E : existsb (eqb x) acc = existsb (eqb x) seen).
    { destruct (existsb (eqb x) seen) eqn:E.
      - apply existsb_eqb_In. apply H. apply existsb_eqb_In. exact E.
      - destruct (existsb (eqb x) acc) eqn:E'; [|reflexivity].
        apply existsb_eqb_In in E'. apply H in E'. apply existsb_eqb_In in E'. congruence. }
    rewrite <- E. destruct (existsb (eqb x) acc) eqn:Ea.
    + apply IH. intros a. rewrite in_app_iff, <- H. simpl.
      apply existsb_eqb_In in Ea. split; [tauto|]. intros [?|[<-|[]]]; assumption.
    + rewrite (IH (acc ++ [x]) (seen ++ [x])).
      * rewrite <- app_assoc. reflexivity.
      * intros a. rewrite !in_app_iff, H. reflexivity.
Qed.

Lemma set_of_eq l : set_of l = dedup_with [] l.
Proof. unfold set_of. apply (set_of_dedup l [] []). reflexivity. Qed.

Lemma dedup_with_In seen l a :
  In a (dedup_with seen l) <-> In a l /\ ~ In a seen.
Proof.
  revert seen. induction l as [|x l IH]; intros seen; simpl; [tauto|].
  destruct (existsb (eqb x) seen) eqn:E.
  - apply existsb_eqb_In in E. rewrite IH, in_app_iff. simpl.
    split; [tauto|]. intros [[<-|H] Hn]; [tauto|].
    split; [exact H|]. intros [?|[<-|[]]]; tauto.
  - assert (Hn : ~ In x seen) by (intros H; apply existsb_eqb_In in H; congruence).
    simpl. rewrite IH, in_app_iff. simpl.
    split.
    + intros [<-|[H1 H2]]; tauto.
    + intros [[<-|H1] H2]; [tauto|].
      destruct (eqb x a) eqn:Ex; [apply eqb_eq in Ex; tauto|].
      apply eqb_neq in Ex. right. tauto.
Qed.

Lemma dedup_with_NoDup seen l : NoDup (dedup_with seen l).
Proof.
  revert seen. induction l as [|x l IH]; intros seen; simpl; [constructor|].
  destruct (existsb (eqb x) seen); [apply IH|].
  constructor; [|apply IH].
  rewrite list_elem_of_In, dedup_with_In, in_app_iff. simpl. tauto.
Qed.

Lemma dedup_with_sorted L seen l :
  L = seen ++ l ->
  StronglySorted (fun a b => (indexOf a L < indexOf b L)%Z) (dedup_with seen l).
Proof.
  revert seen. induction l as [|x l IH]; intros seen HL; simpl; [constructor|].
  assert (HL' : L = (seen ++ [x]) ++ l) by (rewrite <- app_assoc; exact HL).
  destruct (existsb (eqb x) seen) eqn:E; [apply IH, HL'|].
  assert (Hn : ~ In x seen) by (intros H; apply existsb_eqb_In in H; congruence).
  constructor; [apply IH, HL'|].
  apply List.Forall_forall. intros b Hb. apply dedup_with_In in Hb as [Hb1 Hb2].
  rewrite HL at 1. rewrite (indexOf_app_notin _ _ _ Hn) by (left; reflexivity).
  rewrite HL'. rewrite (indexOf_app_notin _ _ _ Hb2 Hb1).
  pose proof (indexOf_in b l Hb1).
  rewrite length_app. simpl. rewrite eqb_refl. lia.
Qed.

Lemma dedup_first_seen l : first_seen_order l (dedup_with [] l).
Proof.
  split; [apply dedup_with_NoDup|]. split.
  - intros a. rewrite dedup_with_In. simpl. tauto.
  - apply (dedup_with_sorted l [] l). reflexivity.
Qed.

(** *** The extracted names *)

Lemma extractNamesFromLine_all_valid line n :
  In n (extractNamesFromLine line) -> isValidName n = true.
Proof.
  unfold extractNamesFromLine.
  destruct (isValidName (trim (strip_bullet (trim (strip_ordinal line))))) eqn:E.
  - intros [<-|[]]. exact E.
  - intros H. apply filter_In in H. tauto.
Qed.

Lemma lineCandidates_all_valid text n :
  In n (lineCandidates text) -> isValidName n = true.
Proof.
  unfold lineCandidates. rewrite in_flat_map. intros (line & _ & H).
  destruct (isHeaderLine line); [destruct H|].
  apply (extractNamesFromLine_all_valid line n H).
Qed.

Lemma extractNamesFromText_dedup text :
  extractNamesFromText text = dedup_with [] (normalizedCandidates text).
Proof.
  unfold extractNamesFromText. destruct text as [|c text]; [reflexivity|].
  cbn [truthy negb]. unfold cleanAndValidateNames. apply filter_indexed_dedup.
Qed.

Lemma parseCsvFile_dedup text :
  parseCsvFile text = dedup_with [] (csvCandidates text).
Proof.
  unfold parseCsvFile, csvCandidates.
  destruct (length (cellNames text) =? 0);
    [apply extractNamesFromText_dedup | apply set_of_eq].
Qed.

Lemma normalizedCandidates_fixed text y :
  In y (normalizedCandidates text) -> cleanName y = y.
Proof.
  unfold normalizedCandidates. intros H. apply filter_In in H as [H _].
  apply in_map_iff in H as (n & <- & Hn).
  apply valid_cleanName, (lineCandidates_all_valid text n Hn).
Qed.

Lemma extractNamesFromText_fixed text y :
  In y (extractNamesFromText text) -> cleanName y = y.
Proof.
  rewrite extractNamesFromText_dedup, dedup_with_In. intros [H _].
  apply (normalizedCandidates_fixed text y H).
Qed.

Lemma parseCsvFile_fixed text y : In y (parseCsvFile text) -> cleanName y = y.
Proof.
  rewrite parseCsvFile_dedup, dedup_with_In. intros [H _]. revert H.
  unfold csvCandidates. destruct (length (cellNames text) =? 0).
  - apply normalizedCandidates_fixed.
  - unfold cellNames. rewrite in_flat_map. intros (line & _ & H).
    apply in_flat_map in H as (cell & _ & H).
    apply (extractNamesFromText_fixed cell y H).
Qed.

Lemma map_fixed (l : list jsstring) :
  (forall y, In y l -> cleanName y = y) -> List.map cleanName l = l.
Proof.
  intros H. induction l as [|y l IH]; simpl; [reflexivity|].
  rewrite H by (left; reflexivity). f_equal. apply IH. intros z Hz. apply H. right. exact Hz.
Qed.

End Extraction.

(** ** Strings that are no names *)

Module Structural.
Import JsString FileParser Predicates JsStringFacts FileParserProps NameValidity.
Import Extraction Scenario.

Lemma trim_keeps c s : In c s -> is_space c = false -> In c (trim s).
Proof.
  intros Hc E.
  assert (H : In c (List.filter (fun d => negb (is_space d)) (trim s))).
  { rewrite filter_trim by (intros d; apply negb_true_iff).
    apply filter_In. rewrite E. auto. }
  apply filter_In in H. tauto.
Qed.

Lemma startsWith_app p s : startsWith p s = true -> exists r, s = p ++ r.
Proof.
  revert s. induction p as [|a p IH]; intros s; [exists s; reflexivity|].
  destruct s as [|b s]; simpl; [discriminate|].
  rewrite andb_true_iff, N.eqb_eq. intros [-> H].
  destruct (IH s H) as [r ->]. exists r. reflexivity.
Qed.

Lemma startsWith_prefix p r : startsWith p (p ++ r) = true.
Proof. induction p as [|a p IH]; simpl; [reflexivity|]. rewrite N.eqb_refl. exact IH. Qed.

Lemma trimEnd_app p r :
  p <> [] -> ends_nonspace p = true -> trimEnd (p ++ r) = p ++ trimEnd r.
Proof.
  induction p as [|c p IH]; [congruence|]. intros _ He.
  destruct p as [|d p'].
  - simpl in *. apply negb_true_iff in He. rewrite He. destruct (trimEnd r); reflexivity.
  - specialize (IH ltac:(discriminate) He).
    change ((c :: d :: p') ++ r) with (c :: ((d :: p') ++ r)).
    cbn [trimEnd]. rewrite IH. reflexivity.
Qed.

Lemma startsWith_trim p s :
  p <> [] -> starts_nonspace p = true -> ends_nonspace p = true ->
  startsWith p s = true -> startsWith p (trim s) = true.
Proof.
  intros Hne Hs He H. destruct (startsWith_app p s H) as [r ->].
  unfold trim. rewrite trimStart_fixed.
  - rewrite trimEnd_app by assumption. apply startsWith_prefix.
  - destruct p; [congruence | exact Hs].
Qed.

Lemma forallb_takeWhile p s : forallb p s = true -> takeWhile p s = s.
Proof.
  induction s as [|c s IH]; simpl; [reflexivity|].
  rewrite andb_true_iff. intros [-> H]. rewrite (IH H). reflexivity.
Qed.

Lemma forallb_dropWhile p s : forallb p s = true -> dropWhile p s = [].
Proof.
  induction s as [|c s IH]; simpl; [reflexivity|].
  rewrite andb_true_iff. intros [-> H]. exact (IH H).
Qed.

Lemma digits_ends s : forallb is_digit s = true -> ends_nonspace s = true.
Proof.
  induction s as [|c s IH]; simpl; [reflexivity|].
  rewrite andb_true_iff. intros [Hc H].
  destruct s; [rewrite (digit_not_space c Hc); reflexivity | apply IH, H].
Qed.

Lemma digits_trim s : forallb is_digit s = true -> trim s = s.
Proof.
  intros H. apply trim_fixed; [|apply digits_ends, H].
  destruct s as [|c s]; [reflexivity|]. simpl in *.
  apply andb_true_iff in H as [Hc _]. rewrite (digit_not_space c Hc). reflexivity.
Qed.

Lemma digits_no_letter s : forallb is_digit s = true -> existsb is_letter s = false.
Proof.
  induction s as [|c s IH]; simpl; [reflexivity|].
  rewrite andb_true_iff. intros [Hc H]. rewrite (IH H), orb_false_r.
  destruct (is_letter c) eqn:E; [|reflexivity].
  rewrite (letter_not_digit c E) in Hc. discriminate.
Qed.

Lemma pattern_invalid (pattern : jsstring -> bool) s :
  In pattern invalidPatterns -> pattern (trim s) = true -> isValidName s = false.
Proof.
  intros Hin Hp. destruct (isValidName s) eqn:E; [|reflexivity].
  apply isValidName_conditions in E as [_ [_ _ _ _ _ Vp]].
  assert (H : existsb (fun q : jsstring -> bool => q (trim s)) invalidPatterns = true).
  { apply existsb_exists. exists pattern. auto. }
  congruence.
Qed.

Lemma digits_forallb s :
  Forall (fun c => is_digit c = true) s -> forallb is_digit s = true.
Proof. intros H. apply forallb_forall. apply List.Forall_forall, H. Qed.

(** The validity test rejects every string that has one of the
    properties. *)
Lemma structural_invalid s : structural s -> isValidName s = false.
Proof.
  intros [H|[[r ->]|[[r ->]|[Hne H]]]].
  - apply (pattern_invalid has_at); [simpl; tauto|].
    unfold has_at. apply existsb_exists. exists 64%N. split; [|reflexivity].
    apply trim_keeps; [exact H | reflexivity].
  - apply (pattern_invalid has_url_scheme); [simpl; tauto|].
    unfold has_url_scheme. apply orb_true_iff. left.
    apply startsWith_trim;
      [discriminate | reflexivity | reflexivity | apply startsWith_prefix].
  - apply (pattern_invalid has_url_scheme); [simpl; tauto|].
    unfold has_url_scheme. apply orb_true_iff. right.
    apply startsWith_trim;
      [discriminate | reflexivity | reflexivity | apply startsWith_prefix].
  - apply digits_forallb in H.
    destruct (isValidName s) eqn:E; [|reflexivity].
    apply isValidName_conditions in E as [_ [_ Ve _ _ _ _]].
    rewrite (digits_trim s H), (digits_no_letter s H) in Ve. discriminate.
Qed.

Lemma digits_no_candidate s : forallb is_digit s = true -> extractNamesFromLine s = [].
Proof.
  intros H. unfold extractNamesFromLine.
  assert (E : trim (strip_ordinal s) = []).
  { unfold strip_ordinal. rewrite (forallb_takeWhile _ _ H), (forallb_dropWhile _ _ H).
    destruct s; reflexivity. }
  rewrite E. reflexivity.
Qed.

Lemma digits_no_name s : forallb is_digit s = true -> extractNamesFromText s = [].
Proof.
  intros H. unfold extractNamesFromText. destruct s as [|c0 s0]; [reflexivity|].
  cbn [truthy negb]. set (s := c0 :: s0) in *.
  assert (E : lineCandidates s = []).
  { unfold lineCandidates, text_lines, split.
    rewrite split_at_none.
    - simpl. rewrite (digits_trim s H). unfold s at 1. simpl.
      rewrite (digits_no_candidate s H). destruct (isHeaderLine s); reflexivity.
    - apply forallb_forall. intros c Hc.
      rewrite forallb_forall in H. specialize (H c Hc).
      apply negb_true_iff, N.eqb_neq. intros <-. discriminate H. }
  rewrite E. reflexivity.
Qed.

(** *** The parts of a line *)

Lemma extractNamesFromLine_parts line :
  isValidName (cleanLine line) = false ->
  extractNamesFromLine line
  = List.filter isValidName (List.map trim (split is_part_separator (cleanLine line))).
Proof. unfold extractNamesFromLine, cleanLine. cbv zeta. intros ->. reflexivity. Qed.

Lemma dropWhile_keeps p (c : char) s :
  In c s -> p c = false -> In c (dropWhile p s).
Proof.
  intros Hc Hp. induction s as [|d s IH]; [destruct Hc|].
  simpl. destruct (p d) eqn:E; [|exact Hc].
  destruct Hc as [->|Hc]; [congruence | apply IH, Hc].
Qed.

Lemma at_cleanLine s : In 64%N s -> In 64%N (cleanLine s).
Proof.
  intros H. unfold cleanLine.
  apply trim_keeps; [|reflexivity].
  assert (Ho : In 64%N (trim (strip_ordinal s))).
  { apply trim_keeps; [|reflexivity]. unfold strip_ordinal.
    destruct (takeWhile is_digit s) as [|d0 ds]; [exact H|].
    apply dropWhile_keeps; [|reflexivity].
    pose proof (dropWhile_keeps is_digit 64%N s H eq_refl) as Hr.
    destruct (dropWhile is_digit s) as [|x rest']; [destruct Hr|].
    destruct (N.eqb_spec x 46) as [->|]; [|exact Hr].
    destruct Hr as [Hr|Hr]; [discriminate Hr | exact Hr]. }
  unfold strip_bullet. destruct (trim (strip_ordinal s)) as [|c rest]; [destruct Ho|].
  destruct (is_bullet c) eqn:E; [|exact Ho].
  apply dropWhile_keeps; [|reflexivity].
  destruct Ho as [->|Ho]; [discriminate E | exact Ho].
Qed.

Lemma plain_head_cleanLine a s :
  is_digit a = false -> is_space a = false -> is_bullet a = false ->
  cleanLine (a :: s) = trim (a :: s).
Proof.
  intros Hd Hs Hb. unfold cleanLine.
  assert (Eo : strip_ordinal (a :: s) = a :: s).
  { unfold strip_ordinal. simpl. rewrite Hd. reflexivity. }
  rewrite Eo. destruct (trim_head a s Hs) as [r Er].
  assert (Eb : strip_bullet (trim (a :: s)) = trim (a :: s)).
  { rewrite Er. simpl. rewrite Hb. reflexivity. }
  rewrite Eb. apply trim_idempotent.
Qed.

Lemma scheme_cleanLine p r :
  p = js "http://" \/ p = js "https://" ->
  exists r', cleanLine (p ++ r) = p ++ r'.
Proof.
  intros Hp.
  assert (E : cleanLine (p ++ r) = trim (p ++ r)).
  { destruct Hp as [->| ->]; apply plain_head_cleanLine; reflexivity. }
  rewrite E. apply startsWith_app. apply startsWith_trim.
  - destruct Hp as [->| ->]; discriminate.
  - destruct Hp as [->| ->]; reflexivity.
  - destruct Hp as [->| ->]; reflexivity.
  - apply startsWith_prefix.
Qed.

Lemma digits_cleanLine s : forallb is_digit s = true -> cleanLine s = [].
Proof.
  intros H. unfold cleanLine.
  assert (E : trim (strip_ordinal s) = []).
  { unfold strip_ordinal. rewrite (forallb_takeWhile _ _ H), (forallb_dropWhile _ _ H).
    destruct s; reflexivity. }
  rewrite E. reflexivity.
Qed.

(** What is left of a string with one of the properties, when the number
    and the bullet are taken off, is no valid name. *)
Lemma structural_cleanLine_invalid s : structural s -> isValidName (cleanLine s) = false.
Proof.
  intros [H|[[r ->]|[[r ->]|[Hne H]]]].
  - apply structural_invalid. left. apply at_cleanLine, H.
  - destruct (scheme_cleanLine (js "http://") r) as [r' E]; [left; reflexivity|].
    rewrite E. apply structural_invalid. right. left. exists r'. reflexivity.
  - destruct (scheme_cleanLine (js "https://") r) as [r' E]; [right; reflexivity|].
    rewrite E. apply structural_invalid. right. right. left. exists r'. reflexivity.
  - rewrite (digits_cleanLine s (digits_forallb s H)). reflexivity.
Qed.

Lemma part_of_refl (s : jsstring) : part_of s s.
Proof. exists [], []. rewrite app_nil_r. reflexivity. Qed.

Lemma part_of_trans (a b c : jsstring) : part_of a b -> part_of b c -> part_of a c.
Proof.
  intros (p1 & q1 & ->) (p2 & q2 & ->). exists (p2 ++ p1), (q1 ++ q2).
  rewrite <- !app_assoc. reflexivity.
Qed.

Lemma part_of_suffix (pre n : jsstring) : part_of n (pre ++ n).
Proof. exists pre, []. rewrite app_nil_r. reflexivity. Qed.

Lemma part_of_prefix (n post : jsstring) : part_of n (n ++ post).
Proof. exists [], post. reflexivity. Qed.

Lemma part_of_cons c (n s : jsstring) : part_of n s -> part_of n (c :: s).
Proof. intros (p & q & ->). exists (c :: p), q. reflexivity. Qed.

Lemma part_of_In (n s : jsstring) c : part_of n s -> In c n -> In c s.
Proof. intros (p & q & ->) H. rewrite !in_app_iff. tauto. Qed.

Lemma dropWhile_part p s : part_of (dropWhile p s) s.
Proof.
  induction s as [|c s IH]; [apply part_of_refl|]. simpl.
  destruct (p c); [apply part_of_cons, IH | apply part_of_refl].
Qed.

Lemma trimEnd_prefix s : exists post, s = trimEnd s ++ post.
Proof.
  induction s as [|c s [post IH]]; [exists []; reflexivity|]. simpl.
  destruct (trimEnd s) as [|d t].
  - destruct (is_space c); [exists (c :: s) | exists s]; reflexivity.
  - exists post. simpl. rewrite IH at 1. reflexivity.
Qed.

Lemma trim_part s : part_of (trim s) s.
Proof.
  unfold trim, trimStart. apply (part_of_trans _ (dropWhile is_space s));
    [|apply dropWhile_part].
  destruct (trimEnd_prefix (dropWhile is_space s)) as [post E].
  rewrite E at 2. apply part_of_prefix.
Qed.

Lemma strip_ordinal_part s : part_of (strip_ordinal s) s.
Proof.
  unfold strip_ordinal. destruct (takeWhile is_digit s) as [|d0 ds]; [apply part_of_refl|].
  apply (part_of_trans _ (dropWhile is_digit s)); [|apply dropWhile_part].
  destruct (dropWhile is_digit s) as [|x rest']; [apply part_of_refl|].
  destruct (x =? 46)%N; [|apply dropWhile_part].
  apply part_of_cons, dropWhile_part.
Qed.

Lemma strip_bullet_part s : part_of (strip_bullet s) s.
Proof.
  unfold strip_bullet. destruct s as [|c rest]; [apply part_of_refl|].
  destruct (is_bullet c); [apply part_of_cons, dropWhile_part | apply part_of_refl].
Qed.

Lemma cleanLine_part s : part_of (cleanLine s) s.
Proof.
  unfold cleanLine.
  eapply part_of_trans; [apply trim_part|].
  eapply part_of_trans; [apply strip_bullet_part|].
  eapply part_of_trans; [apply trim_part|]. apply strip_ordinal_part.
Qed.

Lemma split_at_pieces p s h t :
  split_at p s = (h, t) ->
  (exists post, s = h ++ post)
  /\ forallb (fun c => negb (p c)) h = true
  /\ Forall (fun x : jsstring => part_of x s /\ forallb (fun c => negb (p c)) x = true) t.
Proof.
  revert h t. induction s as [|c s IH]; intros h t; simpl.
  - intros [= <- <-]. split; [exists []; reflexivity|]. split; [reflexivity | constructor].
  - destruct (split_at p s) as [h' t'].
    destruct (IH h' t' eq_refl) as ([post E] & Hh & Ht).
    destruct (p c) eqn:Ec; intros [= <- <-].
    + split; [exists (c :: s); reflexivity|]. split; [reflexivity|].
      constructor.
      * split; [|exact Hh]. apply part_of_cons. rewrite E. apply part_of_prefix.
      * eapply List.Forall_impl; [|exact Ht]. intros x [Hx Hq].
        split; [apply part_of_cons, Hx | exact Hq].
    + split; [exists post; simpl; rewrite E at 1; reflexivity|].
      split; [simpl; rewrite Ec; exact Hh|].
      eapply List.Forall_impl; [|exact Ht]. intros x [Hx Hq].
      split; [apply part_of_cons, Hx | exact Hq].
Qed.

Lemma split_pieces p s x :
  In x (split p s) -> part_of x s /\ forallb (fun c => negb (p c)) x = true.
Proof.
  unfold split. destruct (split_at p s) as [h t] eqn:E.
  destruct (split_at_pieces p s h t E) as ([post Ep] & Hh & Ht).
  intros [<-|Hx].
  - split; [rewrite Ep; apply part_of_prefix | exact Hh].
  - rewrite List.Forall_forall in Ht. apply Ht, Hx.
Qed.

Lemma part_of_forallb (q : char -> bool) (n s : jsstring) :
  part_of n s -> forallb q s = true -> forallb q n = true.
Proof.
  intros Hp H. apply forallb_forall. intros c Hc. rewrite forallb_forall in H.
  apply H, (part_of_In n s c Hp Hc).
Qed.

(** An e-mail address or a link on a line does not keep classification
    from emitting the name that stands after a separator. *)
Lemma structural_line_emits_a_name :
  structural email_line
  /\ extractNamesFromLine email_line = [js "Mary Jones"]
  /\ extractNamesFromText email_line = [js "Mary Jones"]
  /\ structural url_line
  /\ extractNamesFromLine url_line = [js "Mary Jones"]
  /\ extractNamesFromText url_line = [js "Mary Jones"].
Proof.
  repeat split; try (vm_compute; reflexivity).
  - left. vm_compute. repeat (first [left; reflexivity | right]).
  - right. right. left. eexists. reflexivity.
Qed.

(** C5 (as amended).  For every string that contains [@], starts with
    [http://] or [https://], or consists of digits only, the validity test
    rejects the string, and rejects what is left of it when the number and
    the bullet at its start are taken off; so classification never emits the
    string itself, and emits exactly the valid ones among the trimmed parts
    into which the separators [,], [;] and [|] cut what is left.  Whatever
    it emits is thus a piece of the string that holds no separator, is
    valid and has none of these properties; and for a string of digits it
    emits nothing. *)
Theorem structural_string_is_no_name (s : jsstring) :
  structural s ->
  isValidName s = false
  /\ isValidName (cleanLine s) = false
  /\ ~ In s (extractNamesFromLine s)
  /\ extractNamesFromLine s
     = List.filter isValidName
         (List.map trim (split is_part_separator (cleanLine s)))
  /\ (forall n, In n (extractNamesFromLine s) ->
        isValidName n = true /\ ~ structural n
        /\ part_of n s
        /\ forallb (fun c => negb (is_part_separator c)) n = true
        /\ exists part, In part (split is_part_separator (cleanLine s))
                        /\ n = trim part)
  /\ (Forall (fun c => is_digit c = true) s ->
        extractNamesFromLine s = [] /\ extractNamesFromText s = []).
Proof.
  intros Hs. pose proof (structural_invalid s Hs) as Hi.
  pose proof (structural_cleanLine_invalid s Hs) as Hc.
  pose proof (extractNamesFromLine_parts s Hc) as Hp.
  assert (Hall : forall n, In n (extractNamesFromLine s) ->
                           isValidName n = true /\ ~ structural n).
  { intros n Hn. pose proof (extractNamesFromLine_all_valid s n Hn) as Hv.
    split; [exact Hv|]. intros Hsn. rewrite (structural_invalid n Hsn) in Hv. discriminate. }
  split; [exact Hi|]. split; [exact Hc|].
  split; [intros Hin; destruct (Hall s Hin) as [Hv _]; congruence|].
  split; [exact Hp|]. split.
  - intros n Hn. destruct (Hall n Hn) as [Hv Hns].
    split; [exact Hv|]. split; [exact Hns|].
    rewrite Hp in Hn. apply filter_In in Hn as [Hn _].
    apply in_map_iff in Hn as (part & <- & Hpart).
    destruct (split_pieces _ _ _ Hpart) as [Hof Hsep].
    split; [|split; [|exists part; split; [exact Hpart | reflexivity]]].
    + eapply part_of_trans; [apply trim_part|].
      eapply part_of_trans; [exact Hof | apply cleanLine_part].
    + apply (part_of_forallb _ (trim part) part (trim_part part) Hsep).
  - intros Hd. split.
    + apply digits_no_candidate, digits_forallb. assumption.
    + apply digits_no_name, digits_forallb. assumption.
Qed.

Lemma structural_string_is_no_name_witness :
  structural email_line
  /\ extractNamesFromLine email_line = [js "Mary Jones"]
  /\ extractNamesFromLine email_line
     = List.filter isValidName
         (List.map trim (split is_part_separator (cleanLine email_line)))
  /\ (forall n, In n (extractNamesFromLine email_line) ->
        isValidName n = true /\ ~ structural n
        /\ part_of n email_line
        /\ forallb (fun c => negb (is_part_separator c)) n = true
        /\ exists part, In part (split is_part_separator (cleanLine email_line))
                        /\ n = trim part).
Proof.
  assert (H : structural email_line).
  { left. vm_compute. repeat (first [left; reflexivity | right]). }
  split; [exact H|]. split; [vm_compute; reflexivity|].
  destruct (structural_string_is_no_name email_line H) as (_ & _ & _ & Hp & Hn & _).
  split; [exact Hp | exact Hn].
Defined.

End Structural.

(** ** Properties of CertificateGenerator *)

Module GeneratorProps.
Import JsString CertificateGenerator Predicates MorePredicates JsStringFacts Scenario.
Import JsNumber(number).

(** *** Numbers *)

Lemma compare_antisym (a b : number) :
  SFcompare b a = option_map CompOpp (SFcompare a b).
Proof.
  destruct a as [sa|sa| |sa ma ea], b as [sb|sb| |sb mb eb]; simpl;
    try reflexivity; try (destruct sa; reflexivity); try (destruct sb; reflexivity);
    try (destruct sa, sb; reflexivity).
  destruct sa, sb; simpl; try reflexivity.
  - rewrite (Z.compare_antisym ea eb). destruct (ea ?= eb)%Z; simpl; try reflexivity.
    pose proof (Pos.compare_cont_antisym ma mb Eq) as H. simpl in H. rewrite <- H.
    reflexivity.
  - rewrite (Z.compare_antisym ea eb). destruct (ea ?= eb)%Z; simpl; try reflexivity.
    pose proof (Pos.compare_cont_antisym ma mb Eq) as H. simpl in H. rewrite <- H.
    reflexivity.
Qed.

Lemma compare_some (a b : number) :
  JsNumber.is_nan a = false -> JsNumber.is_nan b = false ->
  exists c, SFcompare a b = Some c.
Proof.
  destruct a, b; simpl; intros; try discriminate; eauto.
Qed.

Lemma compare_refl (a : number) : JsNumber.is_nan a = false -> SFcompare a a = Some Eq.
Proof.
  destruct a as [s|s| |s m e]; simpl; intros H; try discriminate; try reflexivity.
  - destruct s; reflexivity.
  - rewrite Z.compare_refl, Pos.compare_cont_refl. destruct s; reflexivity.
Qed.

Lemma ltb_leb (a b : number) : JsNumber.ltb a b = true -> JsNumber.leb a b = true.
Proof.
  unfold JsNumber.ltb, JsNumber.leb, SFltb, SFleb.
  destruct (SFcompare a b) as [[| |]|]; congruence.
Qed.

Lemma not_ltb_leb (a b : number) :
  JsNumber.is_nan a = false -> JsNumber.is_nan b = false ->
  JsNumber.ltb b a = false -> JsNumber.leb a b = true.
Proof.
  intros Ha Hb. unfold JsNumber.ltb, JsNumber.leb, SFltb, SFleb.
  rewrite (compare_antisym a b). destruct (compare_some a b Ha Hb) as [c ->].
  destruct c; simpl; congruence.
Qed.

Lemma leb_not_nan (a b : number) :
  JsNumber.leb a b = true -> JsNumber.is_nan a = false /\ JsNumber.is_nan b = false.
Proof.
  unfold JsNumber.leb, SFleb. destruct a, b; simpl; try discriminate; auto.
Qed.

Lemma max_not_nan (a b : number) :
  JsNumber.is_nan (JsNumber.max a b) = false ->
  JsNumber.is_nan a = false /\ JsNumber.is_nan b = false.
Proof.
  unfold JsNumber.max. destruct (JsNumber.is_nan a), (JsNumber.is_nan b); simpl; auto;
    discriminate.
Qed.

Lemma min_not_nan (a b : number) :
  JsNumber.is_nan (JsNumber.min a b) = false ->
  JsNumber.is_nan a = false /\ JsNumber.is_nan b = false.
Proof.
  unfold JsNumber.min. destruct (JsNumber.is_nan a), (JsNumber.is_nan b); simpl; auto;
    discriminate.
Qed.

(** [Math.min(a, b)] is [a] or [b], and at most [b]. *)
Lemma min_le_r (a b : number) :
  JsNumber.is_nan a = false -> JsNumber.is_nan b = false ->
  JsNumber.leb (JsNumber.min a b) b = true.
Proof.
  intros Ha Hb. unfold JsNumber.min. rewrite Ha, Hb. simpl.
  destruct (JsNumber.ltb b a) eqn:E.
  - unfold JsNumber.leb, SFleb. rewrite (compare_refl b Hb). reflexivity.
  - pose proof (not_ltb_leb a b Ha Hb E) as H.
    destruct a as [[|]| | |], b as [[|]| | |]; try exact H; reflexivity.
Qed.

(** [Math.max(50, m)] is at least 50, and at most any bound of 50 and [m]. *)
Lemma max_50 (m limit : number) :
  JsNumber.is_nan m = false ->
  JsNumber.leb (JsNumber.of_Z 50) (JsNumber.max (JsNumber.of_Z 50) m) = true
  /\ (JsNumber.leb (JsNumber.of_Z 50) limit = true -> JsNumber.leb m limit = true ->
      JsNumber.leb (JsNumber.max (JsNumber.of_Z 50) m) limit = true).
Proof.
  intros Hm. unfold JsNumber.max. rewrite Hm.
  change (JsNumber.is_nan (JsNumber.of_Z 50)) with false. simpl orb. cbv iota.
  destruct (JsNumber.ltb (JsNumber.of_Z 50) m) eqn:E.
  - split; [apply ltb_leb, E | auto].
  - assert (R : match JsNumber.of_Z 50, m with
                | S754_zero true, S754_zero false => m
                | _, _ => JsNumber.of_Z 50
                end = JsNumber.of_Z 50) by reflexivity.
    rewrite R. split; [reflexivity | auto].
Qed.

(** *** Centering *)

(** A name that is as wide as 737.1 points, less than the page of 792
    points, is drawn from the left margin on and ends beyond the right
    margin; and a name of thirty code units for the teacher, which is less
    wide than the page less the two margins, ends beyond the right margin
    by the rounding of the numbers. *)
Lemma addText_overruns_right_margin :
  FileParser.isValidName long_name = true
  /\ JsNumber.leb
       (getTextWidth long_name (pos_font studentNamePos) (pos_size studentNamePos))
       letter_landscape_width = true
  /\ dt_x (addText long_name studentNamePos letter_landscape_width) = JsNumber.of_Z 50
  /\ JsNumber.leb
       (JsNumber.add (dt_x (addText long_name studentNamePos letter_landscape_width))
          (getTextWidth long_name (pos_font studentNamePos) (pos_size studentNamePos)))
       (JsNumber.sub letter_landscape_width (JsNumber.of_Z 50)) = false
  /\ within_margins 0 long_name studentNamePos letter_landscape_width = false
  /\ length thirty_letters = 30
  /\ JsNumber.leb
       (getTextWidth thirty_letters (pos_font teacherPos) (pos_size teacherPos))
       (JsNumber.sub letter_landscape_width (JsNumber.of_Z 100)) = true
  /\ within_margins 0 thirty_letters teacherPos letter_landscape_width = false.
Proof. repeat split; vm_compute; reflexivity. Qed.

(** C3 (as amended).  For every text, field position and page width for
    which the x coordinate that [addText] draws at is a number, that
    coordinate is at least 50; and when the limit that [addText] computes,
    the page width less the estimated width of the text less 50, is at least
    50, the coordinate is at most that limit. *)
Theorem addText_within_margins (text : jsstring) (position : Position)
  (pageWidth : JsNumber.number) :
  JsNumber.is_nan (dt_x (addText text position pageWidth)) = false ->
  JsNumber.leb (JsNumber.of_Z 50) (dt_x (addText text position pageWidth)) = true
  /\ (JsNumber.leb (JsNumber.of_Z 50)
        (rightLimit pageWidth (getTextWidth text (pos_font position) (pos_size position)))
      = true ->
      JsNumber.leb (dt_x (addText text position pageWidth))
        (rightLimit pageWidth (getTextWidth text (pos_font position) (pos_size position)))
      = true).
Proof.
  unfold addText. cbn [dt_x].
  set (w := getTextWidth text (pos_font position) (pos_size position)).
  intros Hx. destruct (max_not_nan _ _ Hx) as [_ Hm].
  destruct (min_not_nan _ _ Hm) as [Hc Hl].
  destruct (max_50 _ (rightLimit pageWidth w) Hm) as [H1 H2].
  split; [exact H1|]. intros H. apply (H2 H). apply (min_le_r _ _ Hc Hl).
Qed.

Lemma addText_within_margins_witness :
  JsNumber.leb (JsNumber.of_Z 50)
    (dt_x (addText thirty_letters teacherPos letter_landscape_width)) = true
  /\ (JsNumber.leb (JsNumber.of_Z 50)
        (rightLimit letter_landscape_width
           (getTextWidth thirty_letters (pos_font teacherPos) (pos_size teacherPos)))
      = true ->
      JsNumber.leb (dt_x (addText thirty_letters teacherPos letter_landscape_width))
        (rightLimit letter_landscape_width
           (getTextWidth thirty_letters (pos_font teacherPos) (pos_size teacherPos)))
      = true).
Proof.
  apply (addText_within_margins thirty_letters teacherPos letter_landscape_width).
  vm_compute. reflexivity.
Defined.

(** *** The batch *)

Section BatchProps.

Context {World Bytes CertificateInfo Value : Type}.
Variable generateCertificate :
  jsstring -> CertificateInfo -> World -> World * (Bytes + jsstring).
Variable percentageOf : nat -> nat -> Z.

Local Abbreviation bulkItem :=
  (bulkItem (Value := Value) generateCertificate percentageOf).
Local Abbreviation bulkFrom :=
  (bulkFrom (Value := Value) generateCertificate percentageOf).

Lemma bulkItem_no_callback i total name info w :
  bulkItem i total name info None w
  = let (w2, r) := generateCertificate name info w in
    (w2, entry_of name r, [RenderCall name]).
Proof.
  unfold CertificateGenerator.bulkItem. simpl.
  destruct (generateCertificate name info w) as [w2 r]. reflexivity.
Qed.

Lemma bulkItem_quiet (f : callback World Value) i total name info w :
  returns_quietly f ->
  bulkItem i total name info (Some f) w
  = let (w2, r) := generateCertificate name info w in
    (w2, entry_of name r,
     [ ProgressCall (mkProgress (i + 1) total name (percentageOf (i + 1) total));
       RenderCall name ]).
Proof.
  intros Hq. unfold CertificateGenerator.bulkItem.
  destruct (Hq (mkProgress (i + 1) total name (percentageOf (i + 1) total)) w) as [v E].
  rewrite E. destruct (generateCertificate name info w) as [w2 r]. reflexivity.
Qed.

Lemma bulkItem_entry i total name info cb w :
  entry_for name (snd (fst (bulkItem i total name info cb w))).
Proof.
  unfold CertificateGenerator.bulkItem, entry_for.
  destruct cb as [f|].
  - destruct (f _ w) as [w' [v|m]]; simpl.
    + destruct (generateCertificate name info w') as [w2 [pdf|m]]; simpl; eauto.
    + eauto.
  - destruct (generateCertificate name info w) as [w2 [pdf|m]]; simpl; eauto.
Qed.

Lemma bulkFrom_entries names : forall i total info cb w,
  Forall2 entry_for names (certificatesOf (bulkFrom i total names info cb w)).
Proof.
  unfold certificatesOf.
  induction names as [|name rest IH]; intros i total info cb w; simpl; [constructor|].
  pose proof (bulkItem_entry i total name info cb w) as Hitem.
  destruct (bulkItem i total name info cb w) as [[w1 cert] evs].
  specialize (IH (S i) total info cb w1).
  destruct (bulkFrom (S i) total rest info cb w1) as [[w2 certs] evs'].
  simpl in *. constructor; assumption.
Qed.


Lemma bulkFrom_app l1 l2 : forall i total info cb w,
  bulkFrom i total (l1 ++ l2) info cb w
  = let '(w1, c1, e1) := bulkFrom i total l1 info cb w in
    let '(w2, c2, e2) := bulkFrom (i + length l1) total l2 info cb w1 in
    (w2, c1 ++ c2, e1 ++ e2).
Proof.
  induction l1 as [|name l1 IH]; intros i total info cb w.
  - simpl. rewrite Nat.add_0_r.
    destruct (bulkFrom i total l2 info cb w) as [[w2 c2] e2]. reflexivity.
  - simpl. destruct (bulkItem i total name info cb w) as [[w1 cert] evs].
    rewrite IH. replace (i + S (length l1)) with (S i + length l1) by lia.
    destruct (bulkFrom (S i) total l1 info cb w1) as [[w1' c1] e1].
    destruct (bulkFrom (S i + length l1) total l2 info cb w1') as [[w2 c2] e2].
    rewrite <- app_assoc. reflexivity.
Qed.


(** The turn of a name after any names before it: the entries of the names
    before it are what they are without it, its own entry tells how its
    rendering ended, and the names after it have their turns. *)
Lemma bulkFrom_turn before name after total info w :
  let '(w1, certs1, _) := bulkFrom 0 total before info None w in
  let (w2, r) := generateCertificate name info w1 in
  certificatesOf (bulkFrom 0 total (before ++ name :: after) info None w)
  = certs1
    ++ entry_of name r
    :: certificatesOf (bulkFrom (S (length before)) total after info None w2).
Proof.
  rewrite bulkFrom_app.
  destruct (bulkFrom 0 total before info None w) as [[w1 certs1] e1].
  simpl. rewrite bulkItem_no_callback.
  destruct (generateCertificate name info w1) as [w2 r].
  unfold certificatesOf.
  destruct (bulkFrom (S (length before)) total after info None w2) as [[w3 c3] e3].
  reflexivity.
Qed.



Lemma bulkFrom_quiet (f : callback World Value) names :
  returns_quietly f -> forall i total info w,
  fst (bulkFrom i total names info (Some f) w) = fst (bulkFrom i total names info None w)
  /\ callsOf (bulkFrom i total names info (Some f) w)
     = flat_map
         (fun '(i, name) =>
            [ ProgressCall (mkProgress (i + 1) total name (percentageOf (i + 1) total));
              RenderCall name ])
         (combine (seq i (length names)) names).
Proof.
  intros Hq. unfold callsOf.
  induction names as [|name rest IH]; intros i total info w; simpl; [auto|].
  rewrite (bulkItem_quiet f i total name info w Hq), bulkItem_no_callback.
  destruct (generateCertificate name info w) as [w1 r].
  destruct (IH (S i) total info w1) as [IH1 IH2].
  destruct (bulkFrom (S i) total rest info (Some f) w1) as [[w2 certs] evs].
  destruct (bulkFrom (S i) total rest info None w1) as [[w2' certs'] evs'].
  simpl in *. injection IH1 as -> ->. rewrite IH2. auto.
Qed.

End BatchProps.

Lemma rendered_alternating (percentageOf : nat -> nat -> Z) total names : forall i,
  renderedNames
    (flat_map
       (fun '(i, name) =>
          [ ProgressCall (mkProgress (i + 1) total name (percentageOf (i + 1) total));
            RenderCall name ])
       (combine (seq i (length names)) names))
  = names.
Proof.
  unfold renderedNames.
  induction names as [|n l IH]; intros i; simpl; [reflexivity|].
  rewrite IH. reflexivity.
Qed.


(** The callback is called before its name is rendered; and a callback that
    throws keeps the name from being rendered and makes its entry a
    failure. *)
Lemma progress_callback_comes_first :
  callsOf
    (generateBulkCertificates render_all percentage_exact [js "A B"] tt
       (Some quiet_callback) tt)
  = [ ProgressCall (mkProgress 1 1 (js "A B") 100); RenderCall (js "A B") ]
  /\ callsOf
       (generateBulkCertificates render_all percentage_exact [js "A B"] tt
          (Some throwing_callback) tt)
     = [ ProgressCall (mkProgress 1 1 (js "A B") 100) ]
  /\ certificatesOf
       (generateBulkCertificates render_all percentage_exact [js "A B"] tt
          (Some throwing_callback) tt)
     = [ failed (js "A B") (js "progress bar is gone") ]
  /\ certificatesOf
       (generateBulkCertificates (Value := bool) render_all percentage_exact
          [js "A B"] tt None tt)
     = [ succeeded (js "A B") (js "A B") ].
Proof. repeat split; vm_compute; reflexivity. Qed.

(** C7 (as amended).  With a callback that returns, the batch calls it once
    for every name, in order, each time before it renders that name, with
    the 1-based index of the name, the number of names, the name and the
    percentage; what the callback returns is not looked at: the names that
    are rendered and the entries of the result are those of the batch
    without a callback. *)
Theorem progress_callback_is_notification {World Bytes CertificateInfo Value : Type}
  (generateCertificate : jsstring -> CertificateInfo -> World -> World * (Bytes + jsstring))
  (percentageOf : nat -> nat -> Z) (names : list jsstring) (info : CertificateInfo)
  (f : callback World Value) (w : World) :
  returns_quietly f ->
  callsOf
    (generateBulkCertificates generateCertificate percentageOf names info (Some f) w)
  = alternating_calls percentageOf names
  /\ renderedNames
       (callsOf
          (generateBulkCertificates generateCertificate percentageOf names info
             (Some f) w))
     = names
  /\ certificatesOf
       (generateBulkCertificates generateCertificate percentageOf names info (Some f) w)
     = certificatesOf
         (generateBulkCertificates (Value := Value) generateCertificate percentageOf
            names info None w).
Proof.
  intros Hq. unfold generateBulkCertificates.
  destruct (bulkFrom_quiet generateCertificate percentageOf f names Hq 0 (length names)
              info w) as [H1 H2].
  split; [exact H2|]. split.
  - rewrite H2. apply rendered_alternating.
  - unfold certificatesOf. rewrite H1. reflexivity.
Qed.

Lemma progress_callback_is_notification_witness :
  returns_quietly quiet_callback
  /\ (callsOf
        (generateBulkCertificates render_failing_CD percentage_exact
           [js "A B"; js "C D"] tt (Some quiet_callback) tt)
      = alternating_calls percentage_exact [js "A B"; js "C D"]
      /\ renderedNames
           (callsOf
              (generateBulkCertificates render_failing_CD percentage_exact
                 [js "A B"; js "C D"] tt (Some quiet_callback) tt))
         = [js "A B"; js "C D"]
      /\ certificatesOf
           (generateBulkCertificates render_failing_CD percentage_exact
              [js "A B"; js "C D"] tt (Some quiet_callback) tt)
         = certificatesOf
             (generateBulkCertificates (Value := bool) render_failing_CD
                percentage_exact [js "A B"; js "C D"] tt None tt)).
Proof.
  assert (H : returns_quietly quiet_callback).
  { intros p w. exists true. reflexivity. }
  split; [exact H|].
  apply (progress_callback_is_notification render_failing_CD percentage_exact
           [js "A B"; js "C D"] tt quiet_callback tt).
  exact H.
Defined.

(** *** The archive *)

Lemma lastIndexOf_notin c (path : jsstring) : ~ In c path -> lastIndexOf c path = None.
Proof.
  induction path as [|d path IH]; [reflexivity|]. simpl. intros H.
  rewrite IH by tauto. destruct (N.eqb_spec d c) as [->|]; [tauto | reflexivity].
Qed.

Lemma lastIndexOf_bound c (path : jsstring) i :
  lastIndexOf c path = Some i -> i < length path.
Proof.
  revert i. induction path as [|d path IH]; intros i; [discriminate|]. simpl.
  destruct (lastIndexOf c path) as [j|].
  - intros [= <-]. specialize (IH j eq_refl). lia.
  - destruct (d =? c)%N; [intros [= <-]; lia | discriminate].
Qed.

Lemma endsWithSlash_notin (path : jsstring) : ~ In SLASH path -> endsWithSlash path = false.
Proof.
  intros H. unfold endsWithSlash. destruct (rev path) as [|c r] eqn:E; [reflexivity|].
  destruct (N.eqb_spec c SLASH) as [->|]; [|reflexivity].
  exfalso. apply H, in_rev. rewrite E. left. reflexivity.
Qed.

Lemma endsWithSlash_app (path : jsstring) c :
  endsWithSlash (path ++ [c]) = (c =? SLASH)%N.
Proof. unfold endsWithSlash. rewrite rev_app_distr. reflexivity. Qed.

(** A name without [/] has no folder above it. *)
Lemma parentFolder_plain (name : jsstring) : ~ In SLASH name -> parentFolder name = [].
Proof.
  intros H. unfold parentFolder.
  rewrite (endsWithSlash_notin name H), (lastIndexOf_notin SLASH name H). reflexivity.
Qed.

Lemma length_removelast_le (path : jsstring) : length (removelast path) <= length path.
Proof.
  induction path as [|c path IH]; [reflexivity|]. simpl.
  destruct path; simpl in *; lia.
Qed.

Lemma parentFolder_length (path : jsstring) :
  parentFolder path = [] \/ length (parentFolder path) < length path.
Proof.
  unfold parentFolder.
  set (path' := if endsWithSlash path then removelast path else path).
  assert (Hl : length path' <= length path).
  { unfold path'. destruct (endsWithSlash path); [apply length_removelast_le | lia]. }
  destruct (lastIndexOf SLASH path') as [i|] eqn:E; [|left; reflexivity].
  apply lastIndexOf_bound in E. destruct (0 <? i); [|left; reflexivity].
  right. rewrite length_firstn. lia.
Qed.

(** The folder above a folder has a shorter name. *)
Lemma parentFolder_forced (name : jsstring) :
  parentFolder (forceTrailingSlash name) = []
  \/ length (parentFolder (forceTrailingSlash name)) < length name.
Proof.
  unfold forceTrailingSlash. destruct (endsWithSlash name) eqn:E.
  - apply parentFolder_length.
  - unfold parentFolder. rewrite endsWithSlash_app, removelast_last.
    change (SLASH =? SLASH)%N with true. cbv iota.
    destruct (lastIndexOf SLASH name) as [i|] eqn:Ei; [|left; reflexivity].
    apply lastIndexOf_bound in Ei. destruct (0 <? i); [|left; reflexivity].
    right. rewrite length_firstn. lia.
Qed.

Section Archive.

Context {Bytes : Type}.

Local Abbreviation is_doc :=
  (fun kv : jsstring * entry Bytes => is_document (snd kv) = true).

(** The loop of [createZipFile] over the successful certificates. *)
Local Abbreviation added :=
  (fun (zip : gmap jsstring (entry Bytes)) (cert : Certificate Bytes) =>
     zip_file (filename cert) (Document (pdfBytes cert)) zip).

(** The calls of [folderAdd] end: more fuel than the name is long changes
    nothing. *)
Lemma folderAdd_fuel (n m : nat) : forall (name : jsstring) (zip : gmap jsstring (entry Bytes)),
  length name < n -> length name < m -> folderAdd n name zip = folderAdd m name zip.
Proof.
  revert m. induction n as [|n IH]; intros m name zip Hn Hm; [lia|].
  destruct m as [|m]; [lia|]. cbn [folderAdd]. cbv zeta.
  destruct (zip !! forceTrailingSlash name); [reflexivity|].
  destruct (parentFolder_forced name) as [E|Hl].
  - rewrite E. reflexivity.
  - destruct (truthy (parentFolder (forceTrailingSlash name))); [|reflexivity].
    rewrite (IH m) by lia. reflexivity.
Qed.

(** [folderAdd] adds folders and nothing else. *)
Lemma folderAdd_documents (n : nat) : forall (name : jsstring) (zip : gmap jsstring (entry Bytes)),
  filter is_doc (folderAdd n name zip) = filter is_doc zip.
Proof.
  induction n as [|n IH]; intros name zip; [reflexivity|].
  cbn [folderAdd]. cbv zeta.
  destruct (zip !! forceTrailingSlash name) eqn:E; [reflexivity|].
  rewrite map_filter_insert_False by discriminate. rewrite map_filter_delete.
  assert (F : filter is_doc
                (if truthy (parentFolder (forceTrailingSlash name))
                 then folderAdd n (parentFolder (forceTrailingSlash name)) zip
                 else zip)
              = filter is_doc zip).
  { destruct (truthy (parentFolder (forceTrailingSlash name))); [apply IH | reflexivity]. }
  rewrite F. apply delete_id. apply map_lookup_filter_None_2. left. exact E.
Qed.

Lemma folderAdd_keeps (n : nat) : forall (name : jsstring) (zip : gmap jsstring (entry Bytes)) k e,
  zip !! k = Some e -> folderAdd n name zip !! k = Some e.
Proof.
  induction n as [|n IH]; intros name zip k e Hk; [exact Hk|].
  cbn [folderAdd]. cbv zeta.
  destruct (zip !! forceTrailingSlash name) eqn:E; [exact Hk|].
  rewrite lookup_insert_ne by (intros <-; congruence).
  destruct (truthy (parentFolder (forceTrailingSlash name))); [apply IH, Hk | exact Hk].
Qed.

(** A file whose name has no [/] is added, or replaces the entry of its
    name, and nothing else happens. *)
Lemma zip_file_plain (name : jsstring) (data : entry Bytes) zip :
  ~ In SLASH name -> zip_file name data zip = <[name := data]> zip.
Proof. intros H. unfold zip_file. rewrite (parentFolder_plain name H). reflexivity. Qed.

(** The fuel that [zip_file] gives to [folderAdd] is enough: more gives the
    same archive. *)
Lemma zip_file_fuel (name : jsstring) (data : entry Bytes) zip (n : nat) :
  length name <= n ->
  zip_file name data zip
  = <[name := data]>
      (if truthy (parentFolder name) then folderAdd n (parentFolder name) zip else zip).
Proof.
  intros Hn. unfold zip_file. cbv zeta.
  destruct (parentFolder_length name) as [E|Hl]; [rewrite E; reflexivity|].
  rewrite (folderAdd_fuel (length name) n) by lia. reflexivity.
Qed.

Lemma zip_file_documents (name : jsstring) (data : entry Bytes) zip :
  filter is_doc (zip_file name data zip) = filter is_doc (<[name := data]> zip).
Proof.
  unfold zip_file. cbv zeta.
  destruct (truthy (parentFolder name)); [|reflexivity].
  destruct (is_document data) eqn:D.
  - rewrite !map_filter_insert_True by exact D. rewrite folderAdd_documents. reflexivity.
  - rewrite !map_filter_insert_False by (simpl; congruence).
    rewrite !map_filter_delete, folderAdd_documents. reflexivity.
Qed.

Lemma added_plain (l : list (Certificate Bytes)) : forall zip,
  Forall (fun cert => ~ In SLASH (filename cert)) l ->
  fold_left added l zip
  = fold_left (fun zip cert => <[filename cert := Document (pdfBytes cert)]> zip) l zip.
Proof.
  induction l as [|c l IH]; intros zip H; [reflexivity|].
  inversion H; subst. simpl. rewrite zip_file_plain by assumption. apply IH. assumption.
Qed.

Lemma added_lookup (l : list (Certificate Bytes)) : forall zip,
  Forall (fun cert => ~ In SLASH (filename cert)) l ->
  NoDup (List.map filename l) ->
  (forall c, In c l -> fold_left added l zip !! filename c = Some (Document (pdfBytes c)))
  /\ (forall k, ~ In k (List.map filename l) -> fold_left added l zip !! k = zip !! k).
Proof.
  induction l as [|c l IH]; intros zip Hp Hnd; simpl; [split; [easy | auto]|].
  inversion Hnd as [|? ? Hc Hnd']; subst. rewrite list_elem_of_In in Hc.
  inversion Hp as [|? ? Hpc Hp']; subst.
  destruct (IH (zip_file (filename c) (Document (pdfBytes c)) zip) Hp' Hnd') as [IH1 IH2].
  split.
  - intros c' [<-|Hc']; [|apply IH1, Hc'].
    rewrite (IH2 _ Hc), zip_file_plain by exact Hpc. apply lookup_insert_eq.
  - intros k Hk. rewrite IH2 by tauto.
    rewrite zip_file_plain by exact Hpc. apply lookup_insert_ne. tauto.
Qed.

Lemma added_count (l : list (Certificate Bytes)) : forall zip,
  Forall (fun cert => ~ In SLASH (filename cert)) l ->
  NoDup (List.map filename l) ->
  (forall c, In c l -> zip !! filename c = None) ->
  size (filter is_doc (fold_left added l zip)) = length l + size (filter is_doc zip).
Proof.
  induction l as [|c l IH]; intros zip Hp Hnd Hfresh; simpl; [reflexivity|].
  inversion Hnd as [|? ? Hc Hnd']; subst. rewrite list_elem_of_In in Hc.
  inversion Hp as [|? ? Hpc Hp']; subst.
  rewrite IH.
  - rewrite zip_file_plain by exact Hpc. rewrite map_filter_insert_True by reflexivity.
    rewrite map_size_insert_None; [lia|].
    apply map_lookup_filter_None_2. left. apply Hfresh. left. reflexivity.
  - exact Hp'.
  - exact Hnd'.
  - intros c' Hc'. rewrite zip_file_plain by exact Hpc. rewrite lookup_insert_ne.
    + apply Hfresh. right. exact Hc'.
    + intros E. apply Hc. rewrite E. apply in_map. exact Hc'.
Qed.

Lemma filename_char_safe c :
  is_filename_char c = true -> is_space c = false ->
  Forall (fun d => is_safe_char d = true) (lower_char c).
Proof.
  intros Hc Hs. unfold lower_char.
  destruct (in_range 65 90 c) eqn:U.
  - constructor; [|constructor]. unfold is_safe_char.
    assert (in_range 97 122 (c + 32)%N = true) as -> by char_facts. reflexivity.
  - assert ((c =? 304)%N = false) as ->.
    { destruct (c =? 304)%N eqn:E; [|reflexivity].
      apply N.eqb_eq in E. subst. discriminate Hc. }
    assert ((c =? 8490)%N = false) as ->.
    { destruct (c =? 8490)%N eqn:E; [|reflexivity].
      apply N.eqb_eq in E. subst. discriminate Hc. }
    constructor; [|constructor]. unfold is_filename_char in Hc. rewrite Hs in Hc.
    unfold is_safe_char. unfold is_letter in Hc. rewrite U in Hc. simpl in Hc.
    rewrite orb_false_r in Hc. exact Hc.
Qed.

(** No file name of a certificate has a [/] in it. *)
Lemma createSafeFilename_no_slash name : ~ In SLASH (createSafeFilename name).
Proof.
  unfold createSafeFilename. rewrite in_app_iff. intros [H|H].
  - unfold toLowerCase in H. apply in_flat_map in H as (c & Hc & Hd).
    assert (Hk : is_filename_char c = true /\ is_space c = false).
    { apply replace_runs_chars in Hc as [->|[Hc Hs]]; [split; reflexivity|].
      apply filter_In in Hc as [_ Hc]. split; assumption. }
    destruct Hk as [H1 H2]. pose proof (filename_char_safe c H1 H2) as Hf.
    rewrite List.Forall_forall in Hf. specialize (Hf SLASH Hd). discriminate Hf.
  - vm_compute in H. repeat (destruct H as [H|H]; [discriminate H|]). exact H.
Qed.

(** No certificate of a batch has the file name of the summary. *)
Lemma createSafeFilename_not_summary name :
  createSafeFilename name <> js "certificate_summary.txt".
Proof.
  unfold createSafeFilename. intros E. apply (f_equal (@rev char)) in E.
  rewrite rev_app_distr in E. discriminate E.
Qed.

(** Successful certificates with pairwise different file names, none of
    them with a [/] or the name of the summary, are all in the archive. *)
Lemma createZipFile_keeps_distinct_names now (certificates : list (Certificate Bytes)) :
  Forall (fun cert => ~ In SLASH (filename cert)) (List.filter success certificates) ->
  NoDup (List.map filename (List.filter success certificates)) ->
  ~ In (js "certificate_summary.txt")
      (List.map filename (List.filter success certificates)) ->
  documentCount (createZipFile now certificates)
  = length (List.filter success certificates)
  /\ forall c, In c (List.filter success certificates) ->
       createZipFile now certificates !! filename c = Some (Document (pdfBytes c)).
Proof.
  intros Hp Hnd Hs. unfold documentCount, createZipFile.
  set (l := List.filter success certificates) in *.
  destruct (added_lookup l ∅ Hp Hnd) as [H1 H2].
  rewrite zip_file_plain by (vm_compute; intuition discriminate).
  split.
  - rewrite map_filter_insert_False by discriminate.
    rewrite delete_id by (rewrite (H2 _ Hs); apply lookup_empty).
    rewrite added_count; [|exact Hp|exact Hnd|intros; apply lookup_empty].
    rewrite map_filter_empty, map_size_empty. lia.
  - intros c Hc. rewrite lookup_insert_ne; [apply H1, Hc|].
    intros E. apply Hs. rewrite E. apply in_map. exact Hc.
Qed.

End Archive.

(** A file name with a [/] in it, which no certificate of a batch has,
    brings its folders into the archive: for [2026/k/ann.pdf] the folders
    [2026/] and [2026/k/], and no third entry but the file. *)
Lemma zip_file_creates_folders :
  zip_file (js "2026/k/ann.pdf") (Document (Some tt)) ∅ !! js "2026/" = Some Folder
  /\ zip_file (js "2026/k/ann.pdf") (Document (Some tt)) ∅ !! js "2026/k/" = Some Folder
  /\ zip_file (js "2026/k/ann.pdf") (Document (Some tt)) ∅ !! js "2026/k/ann.pdf"
     = Some (Document (Some tt))
  /\ size (zip_file (js "2026/k/ann.pdf") (Document (Some tt)) ∅) = 3
  /\ documentCount (zip_file (js "2026/k/ann.pdf") (Document (Some tt)) ∅) = 1.
Proof. repeat split; vm_compute; reflexivity. Qed.

(** For the batch of the two names [Ann Lee] and [ann lee], both rendered
    with success, the two entries have the same file name and the archive of
    [createZipFile] holds one document, not two: the document of [ann lee],
    stored under that name after the document of [Ann Lee], has taken its
    place, while the summary in the same archive counts two certificates. *)
Lemma createZipFile_loses_colliding_document :
  List.map studentName colliding_certificates = [js "Ann Lee"; js "ann lee"]
  /\ List.map success colliding_certificates = [true; true]
  /\ List.map filename colliding_certificates
     = [js "ann_lee_certificate.pdf"; js "ann_lee_certificate.pdf"]
  /\ documentCount (createZipFile summary_time colliding_certificates) = 1
  /\ createZipFile summary_time colliding_certificates !! js "ann_lee_certificate.pdf"
     = Some (Document (Some (js "ann lee")))
  /\ includes (js "Successfully generated: 2")
       (createSummaryText summary_time colliding_certificates) = true.
Proof. repeat split; vm_compute; reflexivity. Qed.

Lemma batch_filenames {World Bytes CertificateInfo Value : Type}
  (generateCertificate : jsstring -> CertificateInfo -> World -> World * (Bytes + jsstring))
  (percentageOf : nat -> nat -> Z) (names : list jsstring) (info : CertificateInfo)
  (progressCallback : option (callback World Value)) (w : World) (c : Certificate Bytes) :
  In c (certificatesOf
          (generateBulkCertificates generateCertificate percentageOf names info
             progressCallback w)) ->
  filename c = createSafeFilename (studentName c).
Proof.
  pose proof (bulkFrom_entries generateCertificate percentageOf names 0 (length names)
                info progressCallback w) as HF.
  unfold generateBulkCertificates. revert HF.
  generalize (certificatesOf
                (bulkFrom generateCertificate percentageOf 0 (length names) names info
                   progressCallback w)).
  intros certs HF. induction HF as [|name c' names' certs' Hc _ IH]; [easy|].
  intros [<-|Hin]; [|apply IH, Hin].
  destruct Hc as [[pdf ->]|[m ->]]; reflexivity.
Qed.

(** C6 (as amended).  When the successful certificates of a batch have
    pairwise different file names, [createZipFile] keeps every one of them:
    the archive holds one document per successful name, each under the file
    name of its certificate. *)
Theorem createZipFile_keeps_distinct_filenames
  {World Bytes CertificateInfo Value : Type}
  (generateCertificate : jsstring -> CertificateInfo -> World -> World * (Bytes + jsstring))
  (percentageOf : nat -> nat -> Z) (names : list jsstring) (info : CertificateInfo)
  (progressCallback : option (callback World Value)) (w : World) (now : jsstring) :
  NoDup
    (List.map filename
       (List.filter success
          (certificatesOf
             (generateBulkCertificates generateCertificate percentageOf names info
                progressCallback w)))) ->
  documentCount
    (createZipFile now
       (certificatesOf
          (generateBulkCertificates generateCertificate percentageOf names info
             progressCallback w)))
  = length
      (List.filter success
         (certificatesOf
            (generateBulkCertificates generateCertificate percentageOf names info
               progressCallback w)))
  /\ forall c,
       In c
         (List.filter success
            (certificatesOf
               (generateBulkCertificates generateCertificate percentageOf names info
                  progressCallback w))) ->
       createZipFile now
         (certificatesOf
            (generateBulkCertificates generateCertificate percentageOf names info
               progressCallback w))
       !! filename c
       = Some (Document (pdfBytes c)).
Proof.
  intros Hnd. apply createZipFile_keeps_distinct_names; [|exact Hnd|].
  { apply List.Forall_forall. intros c Hc. apply filter_In in Hc as [Hc _].
    rewrite (batch_filenames _ _ _ _ _ _ c Hc). apply createSafeFilename_no_slash. }
  intros Hin. apply in_map_iff in Hin as (c & Ec & Hc).
  apply filter_In in Hc as [Hc _].
  rewrite (batch_filenames _ _ _ _ _ _ c Hc) in Ec.
  apply (createSafeFilename_not_summary _ Ec).
Qed.

Lemma createZipFile_keeps_distinct_filenames_witness :
  NoDup
    (List.map filename
       (List.filter success
          (certificatesOf
             (generateBulkCertificates (Value := bool) render_failing_CD percentage_exact
                [js "A B"; js "C D"; js "E F"] tt None tt))))
  /\ (documentCount
        (createZipFile summary_time
           (certificatesOf
              (generateBulkCertificates (Value := bool) render_failing_CD
                 percentage_exact [js "A B"; js "C D"; js "E F"] tt None tt)))
      = length
          (List.filter success
             (certificatesOf
                (generateBulkCertificates (Value := bool) render_failing_CD
                   percentage_exact [js "A B"; js "C D"; js "E F"] tt None tt)))
      /\ forall c,
           In c
             (List.filter success
                (certificatesOf
                   (generateBulkCertificates (Value := bool) render_failing_CD
                      percentage_exact [js "A B"; js "C D"; js "E F"] tt None tt))) ->
           createZipFile summary_time
             (certificatesOf
                (generateBulkCertificates (Value := bool) render_failing_CD
                   percentage_exact [js "A B"; js "C D"; js "E F"] tt None tt))
           !! filename c
           = Some (Document (pdfBytes c))).
Proof.
  assert (H : NoDup
                (List.map filename
                   (List.filter success
                      (certificatesOf
                         (generateBulkCertificates (Value := bool) render_failing_CD
                            percentage_exact [js "A B"; js "C D"; js "E F"] tt None tt))))).
  { apply (bool_decide_unpack _). vm_compute. exact I. }
  split; [exact H|].
  apply (createZipFile_keeps_distinct_filenames render_failing_CD percentage_exact
           [js "A B"; js "C D"; js "E F"] tt None tt summary_time).
  exact H.
Defined.

End GeneratorProps.

(** ** More about the extraction of names *)

Module ExtractionMore.
Import JsString FileParser FileParserIO Predicates JsStringFacts FileParserProps.
Import NameValidity Extraction Structural Scenario.

(** *** What an extracted name looks like *)

Lemma extractNamesFromText_valid text y :
  In y (extractNamesFromText text) -> isValidName y = true.
Proof.
  rewrite extractNamesFromText_dedup, dedup_with_In. intros [H _].
  unfold normalizedCandidates in H. apply filter_In in H as [_ H].
  apply andb_true_iff in H. tauto.
Qed.

Lemma cellNames_valid_fixed text y :
  In y (cellNames text) -> isValidName y = true /\ cleanName y = y.
Proof.
  unfold cellNames. rewrite in_flat_map. intros (line & _ & H).
  apply in_flat_map in H as (cell & _ & H).
  split; [apply (extractNamesFromText_valid cell y H)
         | apply (extractNamesFromText_fixed cell y H)].
Qed.

Lemma sheetCellNames_valid_fixed csv y :
  In y (sheetCellNames csv) -> isValidName y = true /\ cleanName y = y.
Proof.
  unfold sheetCellNames. rewrite in_flat_map. intros (line & _ & H).
  destruct (isHeaderLine line); [destruct H|].
  apply in_flat_map in H as (cell & _ & H).
  split; [apply (extractNamesFromText_valid cell y H)
         | apply (extractNamesFromText_fixed cell y H)].
Qed.

Lemma parseCsvFile_valid_fixed text y :
  In y (FileParser.parseCsvFile text) -> isValidName y = true /\ cleanName y = y.
Proof.
  unfold FileParser.parseCsvFile. destruct (length (cellNames text) =? 0).
  - intros H. split; [apply (extractNamesFromText_valid text y H)
                     | apply (extractNamesFromText_fixed text y H)].
  - rewrite set_of_eq, dedup_with_In. intros [H _]. apply (cellNames_valid_fixed text y H).
Qed.

Lemma sheetNames_valid_fixed csv y :
  In y (sheetNames csv) -> isValidName y = true /\ cleanName y = y.
Proof.
  unfold sheetNames. destruct (length (sheetCellNames csv) =? 0).
  - intros H. split; [apply (extractNamesFromText_valid csv y H)
                     | apply (extractNamesFromText_fixed csv y H)].
  - rewrite set_of_eq, dedup_with_In. intros [H _].
    apply (sheetCellNames_valid_fixed csv y H).
Qed.

Lemma sheetNames_NoDup csv : NoDup (sheetNames csv).
Proof.
  unfold sheetNames. destruct (length (sheetCellNames csv) =? 0).
  - rewrite extractNamesFromText_dedup. apply dedup_with_NoDup.
  - rewrite set_of_eq. apply dedup_with_NoDup.
Qed.

(** X1.  Whatever the text, every name that [extractNamesFromText],
    [parseCsvFile] or the loop of [parseXlsxFile] returns passes
    [isValidName] and is its own normal form under [cleanName]. *)
Theorem extracted_names_valid_and_normal (text : jsstring) :
  Forall (fun y => isValidName y = true /\ cleanName y = y) (extractNamesFromText text)
  /\ Forall (fun y => isValidName y = true /\ cleanName y = y)
       (FileParser.parseCsvFile text)
  /\ Forall (fun y => isValidName y = true /\ cleanName y = y) (sheetNames text).
Proof.
  repeat split; apply List.Forall_forall; intros y Hy.
  - split; [apply (extractNamesFromText_valid text y Hy)
           | apply (extractNamesFromText_fixed text y Hy)].
  - apply (parseCsvFile_valid_fixed text y Hy).
  - apply (sheetNames_valid_fixed text y Hy).
Qed.

Lemma word_heads_bound s :
  2 * length (word_heads true s) <= length s + 1
  /\ 2 * length (word_heads false s) <= length s.
Proof.
  induction s as [|c s [IH1 IH2]]; simpl; [lia|].
  destruct (is_space c); simpl; lia.
Qed.

Lemma tidy_from_true c s : tidy_from true (c :: s) = is_letter c && tidy_from false s.
Proof. reflexivity. Qed.

Lemma tidy_from_false c s :
  tidy_from false (c :: s)
  = if (c =? SPACE)%N then tidy_from true s else negb (is_space c) && tidy_from false s.
Proof. reflexivity. Qed.

Lemma tidy_single_spaced b s : tidy_from b s = true -> single_spaced s = true.
Proof.
  revert b. induction s as [|c s IH]; intros b H; [reflexivity|].
  destruct s as [|d s']; [reflexivity|].
  change (negb (is_space c && is_space d) && single_spaced (d :: s') = true).
  destruct b.
  - rewrite tidy_from_true in H. apply andb_true_iff in H as [Hc H].
    rewrite (letter_not_space c Hc). simpl. apply (IH _ H).
  - rewrite tidy_from_false in H. destruct (c =? SPACE)%N eqn:Ec.
    + rewrite (IH _ H), andb_true_r. rewrite tidy_from_true in H.
      apply andb_true_iff in H as [Hd _]. rewrite (letter_not_space d Hd), andb_false_r.
      reflexivity.
    + apply andb_true_iff in H as [Hc H]. apply negb_true_iff in Hc. rewrite Hc. simpl.
      apply (IH _ H).
Qed.

Lemma tidy_false_has_space s :
  tidy_from false s = true -> 1 <= length (word_heads false s) -> In SPACE s.
Proof.
  induction s as [|d s IH]; intros H Hw; [simpl in Hw; lia|].
  rewrite tidy_from_false in H. destruct (d =? SPACE)%N eqn:Ed.
  - apply N.eqb_eq in Ed. subst. left. reflexivity.
  - apply andb_true_iff in H as [Hd H]. apply negb_true_iff in Hd.
    simpl in Hw. rewrite Hd in Hw. right. apply (IH H Hw).
Qed.

Lemma tidy_has_space s :
  tidy s = true -> 2 <= length (word_heads true s) -> In SPACE s.
Proof.
  unfold tidy. destruct s as [|c s]; intros H Hw; [simpl in Hw; lia|].
  rewrite tidy_from_true in H. apply andb_true_iff in H as [Hc H].
  simpl in Hw. rewrite (letter_not_space c Hc) in Hw. simpl in Hw.
  right. apply (tidy_false_has_space s H). lia.
Qed.

Lemma valid_normal_shape y :
  isValidName y = true -> cleanName y = y ->
  3 <= length y <= 100
  /\ starts_with_letter y = true
  /\ ends_nonspace y = true
  /\ single_spaced y = true
  /\ In SPACE y
  /\ Forall (fun c => is_normal_char c = true) y.
Proof.
  intros Hv Hf. destruct (valid_normal_form y Hv) as (Ht & _ & _ & _ & _).
  rewrite Hf in Ht.
  apply isValidName_conditions in Hv as [_ [Vl _ _ Vw _ _]].
  rewrite (tidy_trim _ Ht) in Vl, Vw.
  pose proof (word_heads_bound y) as [Hb _].
  split; [lia|]. split; [|split; [|split; [|split]]].
  - destruct (tidy_head _ Ht) as (a & s' & -> & Ha). exact Ha.
  - apply (tidy_from_ends _ _ Ht).
  - apply (tidy_single_spaced _ _ Ht).
  - apply (tidy_has_space _ Ht Vw).
  - apply List.Forall_forall. intros c Hc. rewrite <- Hf in Hc.
    apply (cleanName_chars y c Hc).
Qed.

(** X2.  Whatever the text, every name that [extractNamesFromText] or
    [parseCsvFile] returns has 3 to 100 code units, starts with an ASCII
    letter, does not end with white space, has no two white-space code units
    in a row, contains a space, and is made of ASCII letters, digits,
    underscores, spaces, apostrophes and hyphens only. *)
Theorem extracted_names_shape (text : jsstring) :
  Forall
    (fun y =>
       3 <= length y <= 100
       /\ starts_with_letter y = true
       /\ ends_nonspace y = true
       /\ single_spaced y = true
       /\ In SPACE y
       /\ Forall (fun c => is_normal_char c = true) y)
    (extractNamesFromText text ++ FileParser.parseCsvFile text).
Proof.
  apply List.Forall_forall. intros y Hy. apply in_app_iff in Hy as [Hy|Hy].
  - apply valid_normal_shape;
      [apply (extractNamesFromText_valid text y Hy)
      | apply (extractNamesFromText_fixed text y Hy)].
  - apply valid_normal_shape; apply (parseCsvFile_valid_fixed text y Hy).
Qed.

(** *** Blank text *)

Lemma split_at_forallb (p q : char -> bool) s :
  forallb q s = true ->
  forallb q (fst (split_at p s)) = true
  /\ Forall (fun piece => forallb q piece = true) (snd (split_at p s)).
Proof.
  induction s as [|c s IH]; simpl; [intros _; split; [reflexivity | constructor]|].
  rewrite andb_true_iff. intros [Hc Hs]. destruct (IH Hs) as [Hh Ht].
  destruct (split_at p s) as [h t]. simpl in Hh, Ht. destruct (p c); simpl.
  - split; [reflexivity | constructor; assumption].
  - rewrite Hc, Hh. split; [reflexivity | assumption].
Qed.

Lemma split_forallb (p q : char -> bool) s :
  forallb q s = true -> Forall (fun piece => forallb q piece = true) (split p s).
Proof.
  intros H. destruct (split_at_forallb p q s H) as [Hh Ht]. unfold split.
  destruct (split_at p s) as [h t]. constructor; assumption.
Qed.

Lemma trim_blank s : forallb is_space s = true -> trim s = [].
Proof. intros H. unfold trim, trimStart. rewrite (forallb_dropWhile _ _ H). reflexivity. Qed.

Lemma text_lines_blank text : forallb is_space text = true -> text_lines text = [].
Proof.
  intros H. unfold text_lines. pose proof (split_forallb (N.eqb LF) is_space text H) as Hp.
  induction Hp as [|piece l Hpiece _ IH]; [reflexivity|].
  simpl. rewrite (trim_blank _ Hpiece). simpl. exact IH.
Qed.

Lemma extractNamesFromText_blank text :
  forallb is_space text = true -> extractNamesFromText text = [].
Proof.
  intros H. unfold extractNamesFromText, lineCandidates.
  rewrite (text_lines_blank _ H). destruct (truthy text); reflexivity.
Qed.

(** X3.  A text that holds white space only (or nothing) gives no name: by
    [extractNamesFromText], by [parseCsvFile] and by the loop of
    [parseXlsxFile]. *)
Theorem blank_text_has_no_names (text : jsstring) :
  forallb is_space text = true ->
  extractNamesFromText text = []
  /\ FileParser.parseCsvFile text = []
  /\ sheetNames text = [].
Proof.
  intros H. pose proof (extractNamesFromText_blank text H) as E.
  split; [exact E|]. split.
  - unfold FileParser.parseCsvFile, cellNames. rewrite (text_lines_blank _ H). simpl. exact E.
  - unfold sheetNames, sheetCellNames. rewrite (text_lines_blank _ H). simpl. exact E.
Qed.

Lemma blank_text_has_no_names_witness :
  extractNamesFromText [SPACE; LF; TAB; SPACE; LF] = []
  /\ FileParser.parseCsvFile [SPACE; LF; TAB; SPACE; LF] = []
  /\ sheetNames [SPACE; LF; TAB; SPACE; LF] = [].
Proof. apply (blank_text_has_no_names [SPACE; LF; TAB; SPACE; LF]). reflexivity. Defined.

(** *** Lines added to a text *)

Lemma text_lines_app a b : text_lines (a ++ LF :: b) = text_lines a ++ text_lines b.
Proof.
  unfold text_lines. rewrite (split_app (N.eqb LF) a LF b) by reflexivity.
  rewrite List.map_app, List.filter_app. reflexivity.
Qed.

Lemma normalizedCandidates_app a b :
  normalizedCandidates (a ++ LF :: b) = normalizedCandidates a ++ normalizedCandidates b.
Proof.
  unfold normalizedCandidates, lineCandidates.
  rewrite text_lines_app, List.flat_map_app, List.map_app, List.filter_app. reflexivity.
Qed.

Lemma dedup_with_app seen l1 l2 :
  dedup_with seen (l1 ++ l2) = dedup_with seen l1 ++ dedup_with (seen ++ l1) l2.
Proof.
  revert seen. induction l1 as [|x l1 IH]; intros seen; simpl.
  - rewrite app_nil_r. reflexivity.
  - rewrite IH, <- app_assoc. simpl. destruct (existsb (eqb x) seen); reflexivity.
Qed.

Lemma dedup_with_filter s1 s2 l :
  dedup_with (s1 ++ s2) l
  = List.filter (fun y => negb (existsb (eqb y) s1)) (dedup_with s2 l).
Proof.
  revert s2. induction l as [|x l IH]; intros s2; simpl; [reflexivity|].
  rewrite existsb_app, <- app_assoc, IH.
  destruct (existsb (eqb x) s2); simpl.
  - rewrite orb_true_r. reflexivity.
  - rewrite orb_false_r. destruct (existsb (eqb x) s1); reflexivity.
Qed.

(** X4.  Lines added after a text keep the names of the text where they
    are: the names of [a], a line feed and [b] are the names of [a],
    followed by the names of [b] that are not among them. *)
Theorem names_of_added_lines (a b : jsstring) :
  extractNamesFromText (a ++ LF :: b)
  = extractNamesFromText a
    ++ List.filter (fun y => negb (existsb (eqb y) (extractNamesFromText a)))
         (extractNamesFromText b).
Proof.
  rewrite !extractNamesFromText_dedup, normalizedCandidates_app, dedup_with_app.
  f_equal. simpl.
  rewrite <- (app_nil_r (normalizedCandidates a)) at 1. rewrite dedup_with_filter.
  apply List.filter_ext. intros y. f_equal.
  apply eq_true_iff_eq. rewrite !existsb_eqb_In, dedup_with_In. simpl. tauto.
Qed.

(** *** Numbered and bulleted lines *)

Lemma valid_first rest :
  isValidName rest = true ->
  exists c r, rest = c :: r /\ (is_space c = true \/ is_letter c = true).
Proof.
  intros Hv. apply isValidName_conditions in Hv as [Hne Hc].
  destruct rest as [|c r]; [congruence|]. exists c, r. split; [reflexivity|].
  destruct (is_space c) eqn:Ec; [left; reflexivity | right].
  destruct (trim_head c r Ec) as [r' Er].
  destruct (valid_head _ (trim_starts _) (trim_ends _) Hc) as (a & t' & Et & Ha & _).
  rewrite Er in Et. injection Et as -> _. exact Ha.
Qed.

Lemma trim_trimStart s : trim (trimStart s) = trim s.
Proof. unfold trim. rewrite (trimStart_fixed _ (trimStart_starts s)). reflexivity. Qed.

Lemma trimEnd_cons c s : is_space c = false -> trimEnd (c :: s) = c :: trimEnd s.
Proof. intros E. simpl. destruct (trimEnd s); [rewrite E|]; reflexivity. Qed.

Lemma trimStart_trimEnd s : trimStart (trimEnd s) = trim s.
Proof.
  unfold trim. induction s as [|c s IH]; [reflexivity|].
  destruct (is_space c) eqn:Ec.
  - unfold trimStart at 2. simpl dropWhile. rewrite Ec. fold (trimStart s). rewrite <- IH.
    simpl trimEnd. destruct (trimEnd s) as [|d t]; rewrite ?Ec; [reflexivity|].
    unfold trimStart. simpl. rewrite Ec. reflexivity.
  - rewrite (trimEnd_cons _ _ Ec). unfold trimStart. simpl. rewrite Ec.
    rewrite (trimEnd_cons _ _ Ec). reflexivity.
Qed.

Lemma takeWhile_app_all (p : char -> bool) d rest :
  forallb p d = true -> takeWhile p (d ++ rest) = d ++ takeWhile p rest.
Proof.
  induction d as [|c d IH]; simpl; [reflexivity|].
  rewrite andb_true_iff. intros [Hc Hd]. rewrite Hc, (IH Hd). reflexivity.
Qed.

Lemma dropWhile_app_all (p : char -> bool) d rest :
  forallb p d = true -> dropWhile p (d ++ rest) = dropWhile p rest.
Proof.
  induction d as [|c d IH]; simpl; [reflexivity|].
  rewrite andb_true_iff. intros [Hc Hd]. rewrite Hc. apply (IH Hd).
Qed.

Lemma strip_ordinal_dot d rest :
  d <> [] -> forallb is_digit d = true ->
  strip_ordinal (d ++ 46%N :: rest) = trimStart rest.
Proof.
  intros Hne Hd. unfold strip_ordinal.
  rewrite (takeWhile_app_all _ _ _ Hd), (dropWhile_app_all _ _ _ Hd).
  destruct d as [|c d]; [congruence|]. reflexivity.
Qed.

Lemma strip_ordinal_plain d c r :
  d <> [] -> forallb is_digit d = true -> is_digit c = false -> c <> 46%N ->
  strip_ordinal (d ++ c :: r) = trimStart (c :: r).
Proof.
  intros Hne Hd Hc H46. unfold strip_ordinal.
  rewrite (takeWhile_app_all _ _ _ Hd), (dropWhile_app_all _ _ _ Hd).
  destruct d as [|c0 d]; [congruence|]. simpl. rewrite Hc.
  apply N.eqb_neq in H46. rewrite H46. reflexivity.
Qed.

Lemma bullet_not_digit b : is_bullet b = true -> is_digit b = false.
Proof.
  unfold is_bullet. rewrite !orb_true_iff, !N.eqb_eq.
  intros [[[[->| ->]| ->]| ->]| ->]; reflexivity.
Qed.

Lemma bullet_not_space b : is_bullet b = true -> is_space b = false.
Proof.
  unfold is_bullet. rewrite !orb_true_iff, !N.eqb_eq.
  intros [[[[->| ->]| ->]| ->]| ->]; reflexivity.
Qed.

Lemma strip_ordinal_bullet b rest :
  is_bullet b = true -> strip_ordinal (b :: rest) = b :: rest.
Proof. intros Hb. unfold strip_ordinal. simpl. rewrite (bullet_not_digit b Hb). reflexivity. Qed.

(** A line that is a bullet and then [rest] is read as [rest]. *)
Lemma after_bullet b rest :
  is_bullet b = true -> trim (strip_bullet (trim (b :: rest))) = trim rest.
Proof.
  intros Hb. pose proof (bullet_not_space b Hb) as Hs.
  unfold trim at 2. unfold trimStart. simpl dropWhile. rewrite Hs.
  rewrite (trimEnd_cons _ _ Hs). simpl. rewrite Hb.
  fold (trimStart (trimEnd rest)). rewrite trimStart_trimEnd. apply trim_idempotent.
Qed.

(** A text whose trimmed form is a valid name is read as that name. *)
Lemma after_name rest :
  isValidName rest = true -> trim (strip_bullet (trim rest)) = trim rest.
Proof.
  intros Hv. apply isValidName_conditions in Hv as [_ Hc].
  destruct (valid_head _ (trim_starts _) (trim_ends _) Hc) as (a & t' & Et & Ha & _).
  rewrite Et. simpl strip_bullet. rewrite (letter_not_bullet a Ha). rewrite <- Et.
  apply trim_idempotent.
Qed.

Lemma extractNamesFromLine_reads line rest :
  isValidName rest = true ->
  trim (strip_bullet (trim (strip_ordinal line))) = trim rest ->
  extractNamesFromLine line = [trim rest].
Proof.
  intros Hv E. unfold extractNamesFromLine. rewrite E, (isValidName_trim _ Hv). reflexivity.
Qed.

(** X5.  [extractNamesFromLine] takes a number, a number with a dot, a
    bullet, or a number with a dot, a space and a bullet off the front of a
    line: when what follows is a valid name, the line gives that name,
    trimmed, and nothing else. *)
Theorem numbered_and_bulleted_lines (d : jsstring) (b : char) (rest : jsstring) :
  truthy d = true -> forallb is_digit d = true -> is_bullet b = true ->
  isValidName rest = true ->
  extractNamesFromLine (d ++ rest) = [trim rest]
  /\ extractNamesFromLine (d ++ 46%N :: rest) = [trim rest]
  /\ extractNamesFromLine (b :: rest) = [trim rest]
  /\ extractNamesFromLine (d ++ 46%N :: SPACE :: b :: rest) = [trim rest].
Proof.
  intros Ht Hd Hb Hv.
  assert (Hne : d <> []) by (intros ->; discriminate Ht).
  repeat split; apply (extractNamesFromLine_reads _ _ Hv).
  - destruct (valid_first rest Hv) as (c & r & -> & Hc).
    rewrite strip_ordinal_plain; try assumption.
    + rewrite trim_trimStart. apply (after_name _ Hv).
    + destruct Hc as [Hc|Hc]; [|apply (letter_not_digit c Hc)].
      destruct (is_digit c) eqn:E; [|reflexivity].
      rewrite (digit_not_space c E) in Hc. discriminate Hc.
    + intros ->. destruct Hc as [Hc|Hc]; vm_compute in Hc; discriminate Hc.
  - rewrite (strip_ordinal_dot _ _ Hne Hd), trim_trimStart. apply (after_name _ Hv).
  - rewrite (strip_ordinal_bullet _ _ Hb). apply (after_bullet _ _ Hb).
  - rewrite (strip_ordinal_dot _ _ Hne Hd).
    unfold trimStart. simpl dropWhile. rewrite (bullet_not_space b Hb).
    apply (after_bullet _ _ Hb).
Qed.

Lemma numbered_and_bulleted_lines_witness :
  extractNamesFromLine (js "12" ++ js " Maria Garcia ") = [js "Maria Garcia"]
  /\ extractNamesFromLine (js "12" ++ 46%N :: js " Maria Garcia ") = [js "Maria Garcia"]
  /\ extractNamesFromLine (42%N :: js " Maria Garcia ") = [js "Maria Garcia"]
  /\ extractNamesFromLine (js "12" ++ 46%N :: SPACE :: 42%N :: js " Maria Garcia ")
     = [js "Maria Garcia"].
Proof.
  apply (numbered_and_bulleted_lines (js "12") 42%N (js " Maria Garcia "));
    vm_compute; reflexivity.
Defined.

(** *** Two words of letters *)

Lemma filter_all (p : char -> bool) s : forallb p s = true -> List.filter p s = s.
Proof.
  induction s as [|c s IH]; simpl; [reflexivity|].
  rewrite andb_true_iff. intros [Hc Hs]. rewrite Hc, (IH Hs). reflexivity.
Qed.

Lemma word_heads_letters w rest :
  forallb is_letter w = true -> word_heads false (w ++ rest) = word_heads false rest.
Proof.
  induction w as [|c w IH]; simpl; [reflexivity|].
  rewrite andb_true_iff. intros [Hc Hw]. rewrite (letter_not_space c Hc). apply (IH Hw).
Qed.

Lemma tidy_letters w rest :
  forallb is_letter w = true -> tidy_from false (w ++ rest) = tidy_from false rest.
Proof.
  induction w as [|c w IH]; simpl; [reflexivity|].
  rewrite andb_true_iff. intros [Hc Hw]. rewrite (letter_not_space c Hc).
  destruct (c =? SPACE)%N eqn:E;
    [apply N.eqb_eq in E; subst; discriminate Hc | apply (IH Hw)].
Qed.

Lemma single_line_text x :
  isValidName x = true -> cleanName x = x -> text_lines x = [x] ->
  extractNamesFromText x = [x].
Proof.
  intros Hv Hf Hl. unfold extractNamesFromText, lineCandidates. rewrite Hl.
  assert (Ht : truthy x = true).
  { destruct x; [|reflexivity]. apply isValidName_conditions in Hv as [Hv _]. congruence. }
  rewrite Ht. cbn [negb flat_map]. unfold isHeaderLine.
  rewrite Hv, andb_false_r, app_nil_r, (extractNamesFromLine_valid _ Hv).
  pose proof (cleanAndValidateNames_single (trim x)) as H.
  rewrite cleanName_trim, Hf in H. apply H, Hv.
Qed.

Section TwoWords.
Variables (c1 c2 : char) (w1 w2 : jsstring).
Hypothesis (L1 : forallb is_letter (c1 :: w1) = true).
Hypothesis (L2 : forallb is_letter (c2 :: w2) = true).
Hypothesis (Hlen : length w1 + length w2 <= 97).

Local Abbreviation t := ((c1 :: w1) ++ SPACE :: c2 :: w2).

Lemma two_words_tidy : tidy t = true.
Proof.
  simpl in L1, L2. apply andb_true_iff in L1 as [H1 H1'], L2 as [H2 H2'].
  unfold tidy. simpl app. rewrite tidy_from_true, H1, (tidy_letters _ _ H1'). simpl.
  rewrite H2. rewrite <- (app_nil_r w2), (tidy_letters _ _ H2'). reflexivity.
Qed.

Lemma two_words_heads : word_heads true t = [c1; c2].
Proof.
  simpl in L1, L2. apply andb_true_iff in L1 as [H1 H1'], L2 as [H2 H2'].
  simpl. rewrite (letter_not_space c1 H1), (word_heads_letters _ _ H1'). simpl.
  rewrite (letter_not_space c2 H2). rewrite <- (app_nil_r w2), (word_heads_letters _ _ H2').
  reflexivity.
Qed.

Lemma two_words_code_units : forall c, In c t -> is_letter c = true \/ c = SPACE.
Proof.
  intros c Hc. apply in_app_iff in Hc as [Hc|[<-|Hc]]; [left | right; reflexivity | left].
  - rewrite forallb_forall in L1. apply (L1 c Hc).
  - rewrite forallb_forall in L2. apply (L2 c Hc).
Qed.

Lemma two_words_chars : forall c, In c t -> is_name_char c = true.
Proof.
  intros c Hc. destruct (two_words_code_units c Hc) as [H| ->];
    [apply (letter_is_name_char c H) | reflexivity].
Qed.

Lemma two_words_valid : isValidName t = true.
Proof.
  apply isValidName_conditions. split; [discriminate|].
  rewrite (tidy_trim _ two_words_tidy).
  pose proof L1 as H1. simpl in H1. apply andb_true_iff in H1 as [H1 _].
  constructor.
  - rewrite length_app. simpl. lia.
  - simpl. rewrite H1. reflexivity.
  - rewrite List.filter_app. change (List.filter is_letter (SPACE :: c2 :: w2))
      with (List.filter is_letter (c2 :: w2)).
    rewrite (filter_all _ _ L1), (filter_all _ _ L2), !length_app. simpl. lia.
  - rewrite two_words_heads. simpl. lia.
  - rewrite two_words_heads. simpl in L2. apply andb_true_iff in L2 as [H2 _].
    simpl. rewrite H1, H2. reflexivity.
  - apply (normal_form_patterns c1 (w1 ++ SPACE :: c2 :: w2) H1 two_words_chars).
Qed.

Lemma two_words_fixed : cleanName t = t.
Proof.
  apply (cleanName_fixed _ two_words_tidy).
  apply filter_all, forallb_forall, two_words_chars.
Qed.

Lemma two_words_line : text_lines t = [t].
Proof.
  unfold text_lines, split. rewrite split_at_none.
  - change (List.filter truthy [trim t] = [t]).
    rewrite (tidy_trim _ two_words_tidy). reflexivity.
  - apply forallb_forall. intros c Hc.
    destruct (two_words_code_units c Hc) as [H| ->]; [|reflexivity].
    destruct (N.eqb_spec LF c) as [<-|]; [discriminate H | reflexivity].
Qed.

Lemma two_words_text : extractNamesFromText t = [t].
Proof.
  apply single_line_text;
    [apply two_words_valid | apply two_words_fixed | apply two_words_line].
Qed.

End TwoWords.

(** X6.  Two words of ASCII letters with one space between them, of at most
    100 code units together, are a valid name, and a text that consists of
    them gives this one name: also when the words are header keywords such
    as [Student Name]. *)
Theorem two_words_of_letters_are_a_name (first last : jsstring) :
  truthy first = true -> truthy last = true ->
  forallb is_letter first = true -> forallb is_letter last = true ->
  length first + length last <= 99 ->
  isValidName (first ++ SPACE :: last) = true
  /\ isHeaderLine (first ++ SPACE :: last) = false
  /\ extractNamesFromText (first ++ SPACE :: last) = [first ++ SPACE :: last].
Proof.
  destruct first as [|c1 w1]; [discriminate|]. destruct last as [|c2 w2]; [discriminate|].
  intros _ _ L1 L2 Hlen. simpl in Hlen.
  assert (Hlen' : length w1 + length w2 <= 97) by lia.
  pose proof (two_words_valid c1 c2 w1 w2 L1 L2 Hlen') as Hv.
  split; [exact Hv|]. split.
  - unfold isHeaderLine. rewrite Hv. apply andb_false_r.
  - apply (two_words_text c1 c2 w1 w2 L1 L2 Hlen').
Qed.

Lemma two_words_of_letters_are_a_name_witness :
  isValidName (js "Student" ++ SPACE :: js "Name") = true
  /\ isHeaderLine (js "Student" ++ SPACE :: js "Name") = false
  /\ extractNamesFromText (js "Student" ++ SPACE :: js "Name")
     = [js "Student" ++ SPACE :: js "Name"].
Proof.
  apply (two_words_of_letters_are_a_name (js "Student") (js "Name"));
    first [reflexivity | simpl; lia].
Defined.

(** *** Spread sheets without header lines *)

(** X7.  On a sheet none of whose lines [isHeaderLine] takes for a header,
    [parseXlsxFile] finds the names that [parseCsvFile] finds in the same
    text, in the same order. *)
Theorem sheet_without_headers_is_read_as_csv (csv : jsstring) :
  forallb (fun line => negb (isHeaderLine line)) (text_lines csv) = true ->
  sheetNames csv = FileParser.parseCsvFile csv.
Proof.
  intros H. unfold sheetNames, FileParser.parseCsvFile.
  assert (E : sheetCellNames csv = cellNames csv).
  { unfold sheetCellNames, cellNames. rewrite forallb_forall in H.
    induction (text_lines csv) as [|line l IH]; [reflexivity|]. simpl.
    rewrite IH by (intros x Hx; apply H; right; exact Hx).
    specialize (H line (or_introl eq_refl)). apply negb_true_iff in H. rewrite H.
    reflexivity. }
  rewrite E. reflexivity.
Qed.

Lemma sheet_without_headers_is_read_as_csv_witness :
  sheetNames roster_csv = FileParser.parseCsvFile roster_csv.
Proof. apply (sheet_without_headers_is_read_as_csv roster_csv). vm_compute. reflexivity. Defined.

(** *** Where the code units of a name come from *)

Lemma split_incl (p : char -> bool) (s piece : jsstring) c :
  In piece (split p s) -> In c piece -> In c s.
Proof.
  unfold split. revert piece. induction s as [|d s IH]; intros piece; simpl.
  - intros [<-|[]] [].
  - destruct (split_at p s) as [h t]. destruct (p d); simpl.
    + intros [<-|H] Hc; [destruct Hc|]. right. apply (IH piece H Hc).
    + intros [<-|H] Hc.
      * destruct Hc as [->|Hc]; [left; reflexivity|]. right.
        apply (IH h (or_introl eq_refl) Hc).
      * right. apply (IH piece (or_intror H) Hc).
Qed.

Lemma strip_ordinal_incl line c : In c (strip_ordinal line) -> In c line.
Proof.
  unfold strip_ordinal. destruct (takeWhile is_digit line); [auto|].
  intros H. apply dropWhile_incl in H. apply (dropWhile_incl is_digit).
  destruct (dropWhile is_digit line) as [|d rest]; [exact H|].
  destruct (d =? 46)%N; [right|]; exact H.
Qed.

Lemma strip_bullet_incl line c : In c (strip_bullet line) -> In c line.
Proof.
  unfold strip_bullet. destruct line as [|d rest]; [auto|].
  destruct (is_bullet d); [|auto]. intros H. right. apply (dropWhile_incl _ _ _ H).
Qed.

Lemma extractNamesFromLine_incl line y c :
  In y (extractNamesFromLine line) -> In c y -> In c line.
Proof.
  unfold extractNamesFromLine.
  set (cleanLine := trim (strip_bullet (trim (strip_ordinal line)))).
  assert (Hl : forall d, In d cleanLine -> In d line).
  { intros d H. apply strip_ordinal_incl, trim_incl, strip_bullet_incl, trim_incl, H. }
  destruct (isValidName cleanLine).
  - intros [<-|[]] Hc. apply (Hl c Hc).
  - intros H Hc. apply filter_In in H as [H _]. apply in_map_iff in H as (piece & <- & H).
    apply Hl. apply (split_incl _ _ piece c H). apply (trim_incl _ _ Hc).
Qed.

Lemma text_lines_incl text line c : In line (text_lines text) -> In c line -> In c text.
Proof.
  unfold text_lines. intros H Hc. apply filter_In in H as [H _].
  apply in_map_iff in H as (piece & <- & H).
  apply (split_incl _ _ piece c H). apply (trim_incl _ _ Hc).
Qed.

Lemma cleanName_incl name c : In c (cleanName name) -> c = SPACE \/ In c name.
Proof.
  unfold cleanName. destruct (truthy name); simpl; [|easy].
  intros H. apply trim_incl in H. apply filter_In in H as [H _].
  apply replace_runs_chars in H as [->|[H _]]; [left; reflexivity|].
  right. apply (trim_incl _ _ H).
Qed.

Lemma extractNamesFromText_incl text y c :
  In y (extractNamesFromText text) -> In c y -> c = SPACE \/ In c text.
Proof.
  rewrite extractNamesFromText_dedup, dedup_with_In. intros [H _] Hc.
  unfold normalizedCandidates in H. apply filter_In in H as [H _].
  apply in_map_iff in H as (n & <- & Hn).
  destruct (cleanName_incl n c Hc) as [->|Hc']; [left; reflexivity|]. right.
  unfold lineCandidates in Hn. apply in_flat_map in Hn as (line & Hline & Hn).
  destruct (isHeaderLine line); [destruct Hn|].
  apply (text_lines_incl text line c Hline), (extractNamesFromLine_incl line n c Hn Hc').
Qed.

Lemma csv_cells_incl line cell c :
  In cell (csv_cells line) -> In c cell -> In c line /\ is_quote c = false.
Proof.
  unfold csv_cells. intros H Hc. apply in_map_iff in H as (piece & <- & H).
  apply filter_In in Hc as [Hc Hq]. apply negb_true_iff in Hq. split; [|exact Hq].
  apply (split_incl _ _ piece c H), (trim_incl _ _ Hc).
Qed.

Lemma cellNames_incl text y c :
  In y (cellNames text) -> In c y -> (c = SPACE \/ In c text) /\ is_quote c = false.
Proof.
  unfold cellNames. intros H Hc. apply in_flat_map in H as (line & Hline & H).
  apply in_flat_map in H as (cell & Hcell & H).
  destruct (extractNamesFromText_incl cell y c H Hc) as [->|Hc'].
  - split; [left|]; reflexivity.
  - destruct (csv_cells_incl line cell c Hcell Hc') as [H1 H2]. split; [|exact H2].
    right. apply (text_lines_incl text line c Hline H1).
Qed.

(** X27.  Extraction invents nothing: every code unit of a name that
    [extractNamesFromText] or [parseCsvFile] returns is a space or a code
    unit of the text. *)
Theorem names_are_made_of_the_text (text : jsstring) :
  Forall (fun y => Forall (fun c => c = SPACE \/ In c text) y)
    (extractNamesFromText text ++ FileParser.parseCsvFile text).
Proof.
  apply List.Forall_forall. intros y Hy. apply List.Forall_forall. intros c Hc.
  apply in_app_iff in Hy as [Hy|Hy]; [apply (extractNamesFromText_incl text y c Hy Hc)|].
  unfold FileParser.parseCsvFile in Hy. destruct (length (cellNames text) =? 0).
  - apply (extractNamesFromText_incl text y c Hy Hc).
  - rewrite set_of_eq, dedup_with_In in Hy. destruct Hy as [Hy _].
    apply (cellNames_incl text y c Hy Hc).
Qed.

(** X28.  When [parseCsvFile] finds names in the cells of the text, none
    of the names that it returns holds an apostrophe or a double quote:
    the quotes that it removes from a cell include the apostrophe of a name
    such as [O'Brien]. *)
Theorem csv_names_lose_apostrophes (text : jsstring) :
  (length (cellNames text) =? 0) = false ->
  Forall (fun y => forallb (fun c => negb (is_quote c)) y = true)
    (FileParser.parseCsvFile text).
Proof.
  intros H. unfold FileParser.parseCsvFile. rewrite H, set_of_eq.
  apply List.Forall_forall. intros y Hy. apply dedup_with_In in Hy as [Hy _].
  apply forallb_forall. intros c Hc.
  destruct (cellNames_incl text y c Hy Hc) as [_ Hq]. rewrite Hq. reflexivity.
Qed.

Lemma csv_names_lose_apostrophes_witness :
  Forall (fun y => forallb (fun c => negb (is_quote c)) y = true)
    (FileParser.parseCsvFile (js "Mary O'Brien,5")).
Proof. apply (csv_names_lose_apostrophes (js "Mary O'Brien,5")). vm_compute. reflexivity. Defined.

(** *** Numbered lines and header keywords *)

Lemma startsWith_app_l sub s r :
  startsWith sub s = true -> startsWith sub (s ++ r) = true.
Proof.
  revert s. induction sub as [|a sub IH]; intros s; [reflexivity|].
  destruct s as [|b s]; simpl; [discriminate|].
  rewrite !andb_true_iff. intros [H1 H2]. split; [exact H1 | apply (IH _ H2)].
Qed.

Lemma includes_unfold sub s :
  includes sub s
  = startsWith sub s || match s with [] => false | _ :: s' => includes sub s' end.
Proof. destruct s; reflexivity. Qed.

Lemma includes_app_r sub (p s : jsstring) :
  includes sub s = true -> includes sub (p ++ s) = true.
Proof.
  intros H. induction p as [|c p IH]; [exact H|].
  simpl app. rewrite includes_unfold, IH. apply orb_true_r.
Qed.

Lemma includes_app_l sub (s r : jsstring) :
  includes sub s = true -> includes sub (s ++ r) = true.
Proof.
  induction s as [|c s IH]; rewrite includes_unfold, orb_true_iff.
  - intros [H|H]; [|discriminate]. destruct sub; [|discriminate H].
    rewrite includes_unfold. destruct ([] ++ r); reflexivity.
  - intros [H|H]; simpl app; rewrite includes_unfold.
    + pose proof (startsWith_app_l _ (c :: s) r H) as H'. simpl app in H'.
      rewrite H'. reflexivity.
    + rewrite (IH H). apply orb_true_r.
Qed.

Lemma includes_here (sub r : jsstring) : includes sub (sub ++ r) = true.
Proof. rewrite includes_unfold, Structural.startsWith_prefix. reflexivity. Qed.

Lemma includes_refl (sub : jsstring) : includes sub sub = true.
Proof. rewrite <- (app_nil_r sub) at 2. apply includes_here. Qed.

Lemma includes_prefix (a b c r : jsstring) :
  includes (a ++ b ++ c) (a ++ b ++ c ++ r) = true.
Proof. rewrite (app_assoc b c r), (app_assoc a (b ++ c) r). apply includes_here. Qed.

Lemma normal_not_LF c : is_normal_char c = true -> (LF =? c)%N = false.
Proof.
  intros H. destruct (N.eqb_spec LF c) as [<-|]; [discriminate H | reflexivity].
Qed.

Section NumberedKeyword.
Variables (d0 : char) (d rest keyword : jsstring).
Hypothesis (Hd : forallb is_digit (d0 :: d) = true).
Hypothesis (Hv : isValidName rest = true).
Hypothesis (Hf : cleanName rest = rest).
Hypothesis (Hk : In keyword headerKeywords).
Hypothesis (Hi : includes keyword (toLowerCase rest) = true).

Local Abbreviation line := ((d0 :: d) ++ 46%N :: SPACE :: rest).

Lemma numbered_trim : trim line = line.
Proof.
  destruct (valid_normal_shape rest Hv Hf) as (Hlen & _ & He & _).
  apply trim_fixed.
  - simpl in Hd. apply andb_true_iff in Hd as [H0 _]. simpl.
    rewrite (digit_not_space d0 H0). reflexivity.
  - rewrite ends_nonspace_app by discriminate.
    change (46%N :: SPACE :: rest) with ([46%N; SPACE] ++ rest).
    rewrite ends_nonspace_app; [exact He|]. intros ->. simpl in Hlen. lia.
Qed.

Lemma numbered_invalid : isValidName line = false.
Proof.
  destruct (isValidName line) eqn:E; [|reflexivity].
  apply isValidName_conditions in E as [_ [_ _ _ _ Hh _]].
  rewrite numbered_trim in Hh. simpl in Hd. apply andb_true_iff in Hd as [H0 _].
  simpl in Hh. rewrite (digit_not_space d0 H0) in Hh. simpl in Hh.
  apply andb_true_iff in Hh as [Hh _]. rewrite (letter_not_digit d0 Hh) in H0.
  discriminate H0.
Qed.

Lemma numbered_header : isHeaderLine line = true.
Proof.
  unfold isHeaderLine. rewrite numbered_invalid, andb_true_r.
  apply existsb_exists. exists keyword. split; [exact Hk|].
  unfold toLowerCase. rewrite List.flat_map_app. apply includes_app_r.
  change (flat_map lower_char (46%N :: SPACE :: rest))
    with ([46%N; SPACE] ++ toLowerCase rest).
  apply includes_app_r, Hi.
Qed.

Lemma numbered_lines : text_lines line = [line].
Proof.
  destruct (valid_normal_shape rest Hv Hf) as (_ & _ & _ & _ & _ & Hchars).
  unfold text_lines, split. rewrite split_at_none.
  - change (List.filter truthy [trim line] = [line]). rewrite numbered_trim. reflexivity.
  - rewrite forallb_app. apply andb_true_iff. split.
    + apply forallb_forall. intros c Hc. rewrite forallb_forall in Hd.
      specialize (Hd c Hc). destruct (N.eqb_spec LF c) as [<-|]; [discriminate Hd|].
      reflexivity.
    + simpl. apply forallb_forall. intros c Hc. rewrite List.Forall_forall in Hchars.
      apply negb_true_iff, (normal_not_LF c (Hchars c Hc)).
Qed.

Lemma numbered_text : extractNamesFromText line = [].
Proof.
  unfold extractNamesFromText, lineCandidates. rewrite numbered_lines.
  cbn [flat_map]. rewrite numbered_header. reflexivity.
Qed.

End NumberedKeyword.

Lemma normal_name_text rest :
  isValidName rest = true -> cleanName rest = rest -> extractNamesFromText rest = [rest].
Proof.
  intros Hv Hf. destruct (valid_normal_form rest Hv) as (Ht & _). rewrite Hf in Ht.
  destruct (valid_normal_shape rest Hv Hf) as (_ & _ & _ & _ & _ & Hchars).
  apply (single_line_text rest Hv Hf).
  unfold text_lines, split. rewrite split_at_none.
  - change (List.filter truthy [trim rest] = [rest]). rewrite (tidy_trim _ Ht).
    destruct rest; [discriminate Ht | reflexivity].
  - apply forallb_forall. intros c Hc. rewrite List.Forall_forall in Hchars.
    apply negb_true_iff, (normal_not_LF c (Hchars c Hc)).
Qed.

(** X29.  [extractNamesFromText] looks for header keywords before it takes
    the number off a line: a name in normal form that holds a keyword, such
    as [class] in [Lisa Classen], is returned when it stands alone on its
    line, and is dropped, as a header, when its line starts with a number,
    a dot and a space. *)
Theorem numbered_name_with_keyword_is_dropped (d rest keyword : jsstring) :
  truthy d = true -> forallb is_digit d = true ->
  isValidName rest = true -> cleanName rest = rest ->
  In keyword headerKeywords -> includes keyword (toLowerCase rest) = true ->
  extractNamesFromText rest = [rest]
  /\ extractNamesFromText (d ++ 46%N :: SPACE :: rest) = [].
Proof.
  destruct d as [|d0 d]; [discriminate|]. intros _ Hd Hv Hf Hk Hi. split.
  - apply (normal_name_text rest Hv Hf).
  - apply (numbered_text d0 d rest keyword Hd Hv Hf Hk Hi).
Qed.

Lemma numbered_name_with_keyword_is_dropped_witness :
  extractNamesFromText (js "Lisa Classen") = [js "Lisa Classen"]
  /\ extractNamesFromText (js "12" ++ 46%N :: SPACE :: js "Lisa Classen") = [].
Proof.
  apply (numbered_name_with_keyword_is_dropped (js "12") (js "Lisa Classen") (js "class"));
    try (vm_compute; reflexivity).
  right. right. left. reflexivity.
Defined.

(** X30.  A name that extraction returns is read back as itself: as a
    line it gives itself and nothing else, and as a text it gives the list
    of itself. *)
Theorem extracted_name_is_read_back (text : jsstring) :
  Forall (fun y => extractNamesFromLine y = [y] /\ extractNamesFromText y = [y])
    (extractNamesFromText text ++ FileParser.parseCsvFile text).
Proof.
  apply List.Forall_forall. intros y Hy.
  assert (H : isValidName y = true /\ cleanName y = y).
  { apply in_app_iff in Hy as [Hy|Hy]; [|apply (parseCsvFile_valid_fixed text y Hy)].
    split; [apply (extractNamesFromText_valid text y Hy)
           | apply (extractNamesFromText_fixed text y Hy)]. }
  destruct H as [Hv Hf]. split; [|apply (normal_name_text y Hv Hf)].
  rewrite (extractNamesFromLine_valid y Hv).
  destruct (valid_normal_form y Hv) as (Ht & _). rewrite Hf in Ht.
  rewrite (tidy_trim _ Ht). reflexivity.
Qed.

End ExtractionMore.

(** ** The order of the names and the lines of the text *)

Module FirstSeen.
Import JsString FileParser Predicates JsStringFacts FileParserProps NameValidity.
Import Extraction Structural ExtractionMore Scenario.

Lemma notin_forallb (p : char -> bool) (s : jsstring) :
  (forall c, In c s -> p c = false) -> forallb (fun c => negb (p c)) s = true.
Proof.
  intros H. apply forallb_forall. intros c Hc. rewrite (H c Hc). reflexivity.
Qed.

Lemma no_LF (s : jsstring) :
  ~ In LF s -> forallb (fun c => negb (LF =? c)%N) s = true.
Proof.
  intros H. apply notin_forallb. intros c Hc.
  destruct (N.eqb_spec LF c) as [<-|]; [tauto | reflexivity].
Qed.

Lemma text_lines_join (lines : list jsstring) :
  Forall (fun l : jsstring => ~ In LF l) lines ->
  text_lines (join LF lines) = List.filter truthy (List.map trim lines).
Proof.
  intros H. destruct lines as [|h t]; [reflexivity|].
  unfold text_lines. rewrite (split_join (N.eqb LF) LF h t); [reflexivity | reflexivity |].
  eapply List.Forall_impl; [|exact H]. intros l Hl. apply (no_LF l Hl).
Qed.

Lemma valid_truthy (x : jsstring) : isValidName x = true -> truthy x = true.
Proof.
  intros Hv. destruct x; [|reflexivity].
  apply isValidName_conditions in Hv as [Hv _]. congruence.
Qed.

Lemma name_lines_candidates (lines : list jsstring) :
  Forall name_line lines ->
  normalizedCandidates (join LF lines) = List.map cleanName lines.
Proof.
  intros H. unfold normalizedCandidates, lineCandidates.
  rewrite text_lines_join
    by (eapply List.Forall_impl; [|exact H]; intros l [_ Hl]; exact Hl).
  induction H as [|l lines [Hv Hl] H IH]; [reflexivity|].
  pose proof (isValidName_trim l Hv) as Hvt.
  cbn [List.map List.filter]. rewrite (valid_truthy _ Hvt).
  cbn [flat_map]. unfold isHeaderLine at 1. rewrite Hvt, andb_false_r.
  rewrite (extractNamesFromLine_valid _ Hvt), trim_idempotent.
  cbn [app List.map List.filter]. rewrite cleanName_trim.
  destruct (valid_cleanName l Hv) as [Hvc _].
  rewrite Hvc, (valid_truthy _ Hvc). cbn [andb]. f_equal. exact IH.
Qed.

Lemma name_lines_text (lines : list jsstring) :
  Forall name_line lines ->
  extractNamesFromText (join LF lines) = dedup_with [] (List.map cleanName lines).
Proof.
  intros H. rewrite extractNamesFromText_dedup, (name_lines_candidates lines H).
  reflexivity.
Qed.

(** *** Sheets of names *)

Lemma join_notin sep c (parts : list jsstring) :
  c <> sep -> Forall (fun part : jsstring => ~ In c part) parts -> ~ In c (join sep parts).
Proof.
  intros Hc H. induction H as [|h t Hh H IH]; [simpl; tauto|].
  destruct t as [|h2 t]; [simpl; rewrite app_nil_r; exact Hh|].
  rewrite join_cons, in_app_iff. simpl. intros [?|[?|?]]; [tauto | congruence | tauto].
Qed.

Section NameCell.
Variable cell : jsstring.
Hypothesis Hcell : name_cell cell.

Lemma name_cell_shape :
  cell <> [] /\ starts_nonspace cell = true /\ ends_nonspace cell = true
  /\ trim cell = cell
  /\ Forall (fun c => is_normal_char c = true /\ c <> 39%N) cell.
Proof.
  destruct Hcell as (Hv & Hf & Hq).
  destruct (valid_normal_shape cell Hv Hf) as (Hlen & Hs & He & _ & _ & Hchars).
  split; [intros ->; simpl in Hlen; lia|].
  assert (S : starts_nonspace cell = true).
  { destruct cell as [|a r]; [reflexivity|]. simpl in Hs |- *.
    rewrite (letter_not_space a Hs). reflexivity. }
  split; [exact S|]. split; [exact He|]. split; [apply trim_fixed; assumption|].
  apply List.Forall_forall. intros c Hc. rewrite List.Forall_forall in Hchars.
  split; [apply Hchars, Hc|]. intros ->. tauto.
Qed.

Lemma name_cell_no_LF : ~ In LF cell.
Proof.
  destruct name_cell_shape as (_ & _ & _ & _ & Hchars).
  rewrite List.Forall_forall in Hchars. intros H. destruct (Hchars LF H) as [Hn _].
  discriminate Hn.
Qed.

Lemma name_cell_no_delimiter :
  forallb (fun c => negb (is_cell_delimiter c)) cell = true.
Proof.
  destruct name_cell_shape as (_ & _ & _ & _ & Hchars).
  rewrite List.Forall_forall in Hchars. apply notin_forallb. intros c Hc.
  destruct (Hchars c Hc) as [Hn _].
  destruct (is_cell_delimiter c) eqn:E; [|reflexivity].
  unfold is_cell_delimiter in E. apply orb_true_iff in E as [E|E];
    [apply orb_true_iff in E as [E|E]|]; apply N.eqb_eq in E; subst c; discriminate Hn.
Qed.

Lemma name_cell_unquoted :
  List.filter (fun c => negb (is_quote c)) (trim cell) = cell.
Proof.
  destruct name_cell_shape as (_ & _ & _ & -> & Hchars).
  revert Hchars. generalize cell. intros s Hchars.
  induction Hchars as [|c r [Hn Hq] _ IH]; [reflexivity|].
  simpl. assert (E : is_quote c = false).
  { unfold is_quote. apply orb_false_iff. split; [apply N.eqb_neq, Hq|].
    destruct (N.eqb_spec c 34) as [->|]; [discriminate Hn | reflexivity]. }
  rewrite E. simpl. f_equal. exact IH.
Qed.

Lemma name_cell_text : extractNamesFromText cell = [cell].
Proof. destruct Hcell as (Hv & Hf & _). apply (normal_name_text cell Hv Hf). Qed.

End NameCell.

Lemma row_line_trim (row : list jsstring) :
  Forall name_cell row -> trim (join 44%N row) = join 44%N row.
Proof.
  intros H. apply trim_fixed.
  - destruct H as [|cell row Hc _]; [reflexivity|].
    destruct (name_cell_shape cell Hc) as (Hne & Hs & _).
    destruct cell as [|a r]; [congruence|]. exact Hs.
  - apply join_ends. eapply List.Forall_impl; [|exact H].
    intros cell Hc. destruct (name_cell_shape cell Hc) as (Hne & _ & He & _). tauto.
Qed.

Lemma row_line_cells (row : list jsstring) :
  Forall name_cell row ->
  flat_map extractNamesFromText (csv_cells (join 44%N row)) = row.
Proof.
  intros H. destruct row as [|cell row].
  - vm_compute. reflexivity.
  - unfold csv_cells. rewrite (split_join is_cell_delimiter 44%N cell row);
      [|reflexivity
       |eapply List.Forall_impl; [|exact H]; intros c Hc; apply (name_cell_no_delimiter c Hc)].
    induction H as [|c r Hc _ IH]; [reflexivity|].
    cbn [List.map flat_map]. rewrite (name_cell_unquoted c Hc), (name_cell_text c Hc).
    simpl. f_equal. exact IH.
Qed.

Lemma row_line_truthy (row : list jsstring) :
  Forall name_cell row -> truthy (join 44%N row) = truthy (concat row).
Proof.
  intros H. destruct H as [|cell row Hc _]; [reflexivity|].
  destruct (name_cell_shape cell Hc) as (Hne & _).
  destruct cell; [congruence | reflexivity].
Qed.

Lemma sheet_lines (rows : list (list jsstring)) :
  Forall (Forall name_cell) rows ->
  text_lines (join LF (List.map (join 44%N) rows))
  = List.map (join 44%N) (List.filter (fun row => truthy (concat row)) rows).
Proof.
  intros H. rewrite text_lines_join.
  - induction H as [|row rows Hr _ IH]; [reflexivity|].
    cbn [List.map List.filter]. rewrite (row_line_trim row Hr), (row_line_truthy row Hr).
    destruct (truthy (concat row)); cbn [List.map]; rewrite IH; reflexivity.
  - apply Forall_map. eapply List.Forall_impl; [|exact H]. intros row Hr.
    apply join_notin; [discriminate|].
    eapply List.Forall_impl; [|exact Hr]. intros c Hc. apply (name_cell_no_LF c Hc).
Qed.

Lemma sheet_cellNames (rows : list (list jsstring)) :
  Forall (Forall name_cell) rows ->
  cellNames (join LF (List.map (join 44%N) rows)) = concat rows.
Proof.
  intros H. unfold cellNames. rewrite (sheet_lines rows H).
  induction H as [|row rows Hr _ IH]; [reflexivity|].
  cbn [List.filter concat]. destruct (truthy (concat row)) eqn:E.
  - cbn [List.map flat_map]. rewrite (row_line_cells row Hr), IH. reflexivity.
  - destruct Hr as [|cell row Hc _]; [exact IH|].
    destruct (name_cell_shape cell Hc) as (Hne & _).
    destruct cell; [congruence | discriminate E].
Qed.

Lemma sheet_names (rows : list (list jsstring)) :
  Forall (Forall name_cell) rows ->
  parseCsvFile (join LF (List.map (join 44%N) rows)) = dedup_with [] (concat rows).
Proof.
  intros H. unfold parseCsvFile. rewrite (sheet_cellNames rows H).
  destruct (concat rows) as [|c r] eqn:E; [|apply set_of_eq].
  cbn [length Nat.eqb]. unfold extractNamesFromText, lineCandidates.
  rewrite (sheet_lines rows H).
  match goal with
  | |- context [List.filter ?f rows] => assert (F : List.filter f rows = [])
  end.
  { clear H. induction rows as [|row rows IH]; [reflexivity|].
    simpl in E. apply app_eq_nil in E as [E1 E2].
    cbn [List.filter]. rewrite E1. simpl. apply IH, E2. }
  rewrite F. destruct (join LF (List.map (join 44%N) rows)); reflexivity.
Qed.

(** C4.  For every text, the names that [extractNamesFromText] returns, and
    those that [parseCsvFile] returns, are pairwise different even after
    normalization, and they stand in the order in which they are first seen
    among the candidates.  The candidates follow the text: for lines each of
    which is a valid name, [extractNamesFromText] returns the normal forms of
    the lines, each where it first occurs from the top; for rows of cells
    each of which is a name in normal form without an apostrophe,
    [parseCsvFile] returns the cells, each where it first occurs, row after
    row and from left to right in a row.  The lines [Maria Garcia],
    [John Smith], [Maria Garcia] give [Maria Garcia], [John Smith], and so
    do lines that repeat a name with other spacing and punctuation; the
    lines [John Smith], [Maria Garcia], [John Smith], [Ann Lee] give
    [John Smith], [Maria Garcia], [Ann Lee]. *)
Theorem extraction_has_no_duplicates (text : jsstring) :
  NoDup (List.map cleanName (extractNamesFromText text))
  /\ NoDup (List.map cleanName (parseCsvFile text))
  /\ first_seen_order (normalizedCandidates text) (extractNamesFromText text)
  /\ first_seen_order (csvCandidates text) (parseCsvFile text)
  /\ (forall lines : list jsstring, Forall name_line lines ->
        extractNamesFromText (join LF lines) = dedup_with [] (List.map cleanName lines)
        /\ first_seen_order (List.map cleanName lines)
             (extractNamesFromText (join LF lines)))
  /\ (forall rows : list (list jsstring), Forall (Forall name_cell) rows ->
        parseCsvFile (join LF (List.map (join 44%N) rows)) = dedup_with [] (concat rows)
        /\ first_seen_order (concat rows)
             (parseCsvFile (join LF (List.map (join 44%N) rows))))
  /\ extractNamesFromText repeated_lines = [js "Maria Garcia"; js "John Smith"]
  /\ parseCsvFile repeated_lines = [js "Maria Garcia"; js "John Smith"]
  /\ extractNamesFromText variant_lines = [js "Maria Garcia"; js "John Smith"]
  /\ extractNamesFromText later_repeat_lines
     = [js "John Smith"; js "Maria Garcia"; js "Ann Lee"]
  /\ parseCsvFile later_repeat_lines
     = [js "John Smith"; js "Maria Garcia"; js "Ann Lee"].
Proof.
  split; [|split; [|split; [|split; [|split; [|split]]]]].
  - rewrite (map_fixed _ (extractNamesFromText_fixed text)).
    rewrite extractNamesFromText_dedup. apply dedup_with_NoDup.
  - rewrite (map_fixed _ (parseCsvFile_fixed text)).
    rewrite parseCsvFile_dedup. apply dedup_with_NoDup.
  - rewrite extractNamesFromText_dedup. apply dedup_first_seen.
  - rewrite parseCsvFile_dedup. apply dedup_first_seen.
  - intros lines H. rewrite (name_lines_text lines H).
    split; [reflexivity | apply dedup_first_seen].
  - intros rows H. rewrite (sheet_names rows H).
    split; [reflexivity | apply dedup_first_seen].
  - repeat split; vm_compute; reflexivity.
Qed.

End FirstSeen.

(** ** More about the choice of a parser and about failures *)

Module ParsingMore.
Import JsString FileParser FileParserIO Predicates JsStringFacts FileParserProps.
Import NameValidity Extraction Structural ExtractionMore.

Lemma toLowerCase_extension (stem ext : jsstring) :
  toLowerCase (stem ++ 46%N :: ext) = toLowerCase stem ++ 46%N :: toLowerCase ext.
Proof. unfold toLowerCase. rewrite List.flat_map_app. reflexivity. Qed.

Lemma pop_split (p : char -> bool) (a : jsstring) c (b : jsstring) h t :
  p c = true -> forallb (fun x => negb (p x)) b = true ->
  split_at p (a ++ c :: b) = (h, t) -> pop h t = b.
Proof.
  intros Hc Hb Hs. pose proof (split_app p a c b Hc) as E. unfold split in E.
  rewrite (split_at_none p b Hb), Hs in E. destruct (split_at p a) as [ha ta].
  simpl in E. injection E as -> ->. unfold pop. apply last_last.
Qed.

Lemma extensionMap_entries k v :
  extensionMap !! k = Some v ->
  forallb (fun x => negb (46 =? x)%N) k = true
  /\ exists handler, get supportedFormats v = Some (Own handler).
Proof.
  intros H. apply elem_of_list_to_map_2 in H. rewrite list_elem_of_In in H.
  simpl in H.
  repeat (destruct H as [H|H];
          [injection H as <- <-; split; [reflexivity|];
           match goal with
           | |- exists handler, get supportedFormats ?v = _ =>
               destruct (get supportedFormats v) as [[h|m]|] eqn:E;
               [exists h; reflexivity | vm_compute in E; discriminate E
               | vm_compute in E; discriminate E]
           end|]).
  destruct H.
Qed.

Lemma detectFileType_extension (stem ext type text mime : jsstring) :
  type = [] \/ get supportedFormats type = None ->
  extensionMap !! toLowerCase ext = Some mime ->
  detectFileType (mkFile (stem ++ 46%N :: ext) type text) = Own mime.
Proof.
  intros Htype Hext. destruct (extensionMap_entries _ _ Hext) as [Hdot _].
  unfold detectFileType. cbn [file_type file_name].
  assert (E : truthy type
              && (if get supportedFormats type is Some _ then true else false) = false).
  { destruct Htype as [-> | ->]; [reflexivity | apply andb_false_r]. }
  rewrite E, toLowerCase_extension.
  destruct (split_at (N.eqb 46) (toLowerCase stem ++ 46%N :: toLowerCase ext))
    as [h t] eqn:Es.
  rewrite (pop_split (N.eqb 46) _ 46%N _ h t eq_refl Hdot Es). unfold get. rewrite Hext. reflexivity.
Qed.

(** X8.  When the browser gives no MIME type for a file, or one that
    [supportedFormats] does not hold, the type comes from what follows the
    last dot of the name, whatever its case: for each of the seven
    extensions it is the type that [extensionMap] gives, and [parseFile]
    finds a handler of its own for it. *)
Theorem file_type_from_extension (stem ext type text mime : jsstring) :
  type = [] \/ get supportedFormats type = None ->
  extensionMap !! toLowerCase ext = Some mime ->
  detectFileType (mkFile (stem ++ 46%N :: ext) type text) = Own mime
  /\ exists handler,
       supportedFormats !! mime = Some handler
       /\ parseFile_dispatch (mkFile (stem ++ 46%N :: ext) type text) = Own handler.
Proof.
  intros Htype Hext. pose proof (detectFileType_extension stem ext type text mime Htype Hext)
    as Hd.
  split; [exact Hd|]. destruct (extensionMap_entries _ _ Hext) as [_ [handler Hh]].
  exists handler. split.
  - unfold get in Hh. destruct (supportedFormats !! mime) as [a|].
    + injection Hh as ->. reflexivity.
    + destruct (existsb (eqb mime) objectPrototype); discriminate Hh.
  - unfold parseFile_dispatch. rewrite Hd. cbn [toPropertyKey]. rewrite Hh. reflexivity.
Qed.

Lemma file_type_from_extension_witness :
  detectFileType (mkFile (js "Class.5b" ++ 46%N :: js "XLSX") (js "application/octet-stream")
                    [])
  = Own (js "application/vnd.openxmlformats-officedocument.spreadsheetml.sheet")
  /\ exists handler,
       supportedFormats
         !! js "application/vnd.openxmlformats-officedocument.spreadsheetml.sheet"
       = Some handler
       /\ parseFile_dispatch
            (mkFile (js "Class.5b" ++ 46%N :: js "XLSX") (js "application/octet-stream") [])
          = Own handler.
Proof.
  apply (file_type_from_extension (js "Class.5b") (js "XLSX")
           (js "application/octet-stream") []
           (js "application/vnd.openxmlformats-officedocument.spreadsheetml.sheet")).
  - right. vm_compute. reflexivity.
  - vm_compute. reflexivity.
Defined.

(** *** What [parseFile] reports *)

Ltac case_if :=
  match goal with |- context [if ?c then _ else _] => destruct c end.

Lemma parseFile_own libs file handler :
  parseFile_dispatch file = Own handler ->
  parseFile libs file
  = match run libs handler file with
    | Returns names => Names names
    | Throws message => Failure (js "Failed to parse file: " ++ message)
    | Rejects =>
        if endsWith (js ".docx") (toLowerCase (file_name file))
        then Failure (typeError libs PropertyOfUndefined)
        else Failure (js "Failed to parse file: " ++ js "undefined")
    end.
Proof.
  intros H. unfold parseFile. rewrite H. destruct (run libs handler file);
    [reflexivity| |reflexivity].
  destruct (endsWith (js ".docx") (toLowerCase (file_name file))
            && negb (includes (js "Library not loaded") message)); reflexivity.
Qed.

Lemma parseFile_inherited libs file member :
  parseFile_dispatch file = Inherited member ->
  parseFile libs file
  = match callInherited libs member with
    | inl value => Value value
    | inr message => Failure (js "Failed to parse file: " ++ message)
    end.
Proof.
  intros H. unfold parseFile. rewrite H. destruct (callInherited libs member);
    [reflexivity|].
  destruct (endsWith (js ".docx") (toLowerCase (file_name file))
            && negb (includes (js "Library not loaded") j)); reflexivity.
Qed.


Lemma parseTextFile_outcome libs file :
  (readsText libs file = true
   /\ parseTextFile libs file = Returns (extractNamesFromText (file_text file)))
  \/ (readsText libs file = false /\ parseTextFile libs file = Rejects).
Proof.
  unfold parseTextFile, readFileAsText. destruct (readsText libs file); [left | right];
    split; reflexivity.
Qed.

Lemma parseCsvFile_outcome libs file :
  (readsText libs file = true
   /\ parseCsvFile libs file = Returns (FileParser.parseCsvFile (file_text file)))
  \/ (readsText libs file = false /\ parseCsvFile libs file = Rejects).
Proof.
  unfold parseCsvFile, readFileAsText. destruct (readsText libs file); [left | right];
    split; reflexivity.
Qed.







(** A file whose type is [__proto__], which the check of the type lets
    through, fails with the message of the engine for the call of what is
    no function; a file of the type [constructor] gives the file itself for
    names, and one of the type [toString] the text [[object Object]]. *)
Lemma parseFile_inherited_members :
  parseFile Scenario.bare_page (mkFile (js "list.txt") (js "__proto__") [])
  = Failure (js "Failed to parse file: this.supportedFormats[fileType] is not a function")
  /\ parseFile Scenario.bare_page (mkFile (js "list.txt") (js "constructor") [])
     = Value TheFile
  /\ parseFile Scenario.bare_page (mkFile (js "list.txt") (js "toString") [])
     = Value ObjectText.
Proof. repeat split; vm_compute; reflexivity. Qed.

Lemma extractNamesFromText_NoDup text : NoDup (extractNamesFromText text).
Proof. rewrite extractNamesFromText_dedup. apply dedup_with_NoDup. Qed.

Lemma parseCsvFile_NoDup text : NoDup (FileParser.parseCsvFile text).
Proof. rewrite parseCsvFile_dedup. apply dedup_with_NoDup. Qed.

Lemma run_names libs handler file names :
  run libs handler file = Returns names ->
  NoDup names /\ forall y, In y names -> isValidName y = true /\ cleanName y = y.
Proof.
  destruct handler; simpl.
  - destruct (parseTextFile_outcome libs file) as [[_ ->]|[_ ->]]; [|discriminate].
    intros [= <-]. split; [apply extractNamesFromText_NoDup|]. intros y Hy.
    split; [apply (extractNamesFromText_valid _ y Hy)
           | apply (extractNamesFromText_fixed _ y Hy)].
  - destruct (parseCsvFile_outcome libs file) as [[_ ->]|[_ ->]]; [|discriminate].
    intros [= <-]. split; [apply parseCsvFile_NoDup | apply parseCsvFile_valid_fixed].
  - unfold parseDocxFile. destruct (mammoth libs) as [f|].
    + destruct (f file) as [|msg|value].
      * discriminate.
      * cbv beta iota zeta. repeat case_if; discriminate.
      * destruct (is_blank value).
        -- cbv beta iota zeta. repeat case_if; discriminate.
        -- cbv beta iota zeta. intros [= <-]. split; [apply extractNamesFromText_NoDup|].
           intros y Hy.
           split; [apply (extractNamesFromText_valid _ y Hy)
                  | apply (extractNamesFromText_fixed _ y Hy)].
    + cbv beta iota zeta. repeat case_if; discriminate.
  - unfold parseXlsxFile. destruct (XLSX libs) as [f|]; [|discriminate].
    destruct (f file) as [|msg| |csv]; try discriminate.
    destruct (is_blank csv); [discriminate|].
    intros [= <-]. split; [apply sheetNames_NoDup | apply sheetNames_valid_fixed].
  - discriminate.
Qed.

Lemma parseFile_names libs file names :
  parseFile libs file = Names names ->
  NoDup names /\ forall y, In y names -> isValidName y = true /\ cleanName y = y.
Proof.
  destruct (parseFile_dispatch file) as [handler|member] eqn:Hd.
  - rewrite (parseFile_own libs file handler Hd).
    destruct (run libs handler file) as [l|msg|] eqn:Hr;
      [|discriminate|case_if; discriminate].
    intros [= <-]. apply (run_names libs handler file l Hr).
  - rewrite (parseFile_inherited libs file member Hd).
    destruct (callInherited libs member); discriminate.
Qed.

(** X10.  Whatever the file, its type and what the libraries give for it,
    the names that [parseFile] returns are free of duplicates, and each of
    them passes [isValidName] and is its own normal form under
    [cleanName]. *)
Theorem parseFile_gives_clean_names (libs : Libraries) (file : File)
  (names : list jsstring) :
  parseFile libs file = Names names ->
  NoDup names
  /\ Forall (fun y => isValidName y = true /\ cleanName y = y) names.
Proof.
  intros H. destruct (parseFile_names libs file names H) as [Hn Hv].
  split; [exact Hn | apply List.Forall_forall; exact Hv].
Qed.

Lemma parseFile_gives_clean_names_witness :
  NoDup [js "Maria Garcia"; js "John Smith"]
  /\ Forall (fun y => isValidName y = true /\ cleanName y = y)
       [js "Maria Garcia"; js "John Smith"].
Proof.
  apply (parseFile_gives_clean_names
           (mkLibraries None (Some (fun _ => FirstSheet Scenario.repeated_lines))
              (fun _ => true) Scenario.engine_messages)
           (mkFile (js "class.xls") [] [])).
  vm_compute. reflexivity.
Defined.

(** *** Files that are refused *)

Lemma dispatch_of_type name type text handler :
  get supportedFormats type = Some (Own handler) ->
  parseFile_dispatch (mkFile name type text) = Own handler.
Proof.
  intros H. unfold parseFile_dispatch, detectFileType. cbn [file_type].
  rewrite H. destruct type as [|c type]; [vm_compute in H; discriminate H|].
  cbn [truthy andb toPropertyKey]. rewrite H. reflexivity.
Qed.

Lemma dispatch_of_extension (stem ext type text mime : jsstring) handler :
  type = [] \/ get supportedFormats type = None ->
  extensionMap !! toLowerCase ext = Some mime ->
  get supportedFormats mime = Some (Own handler) ->
  parseFile_dispatch (mkFile (stem ++ 46%N :: ext) type text) = Own handler.
Proof.
  intros Ht He Hh. unfold parseFile_dispatch.
  rewrite (detectFileType_extension stem ext type text mime Ht He).
  cbn [toPropertyKey]. rewrite Hh. reflexivity.
Qed.

(** X11.  A file of type [application/pdf], and a file without a type that
    [supportedFormats] holds whose name ends with [.pdf] in any case, is
    refused with the message about PDF files, whatever it holds and whatever
    libraries are loaded. *)
Theorem pdf_file_is_refused (libs : Libraries) (stem ext type text : jsstring) :
  type = js "application/pdf"
  \/ ((type = [] \/ get supportedFormats type = None) /\ toLowerCase ext = js "pdf") ->
  parseFile libs (mkFile (stem ++ 46%N :: ext) type text)
  = Failure
      (js "Failed to parse file: "
       ++ js "PDF files are not supported in the web version. Please convert to TXT, CSV, DOCX, or XLSX format. You can copy the text from the PDF and save it as a TXT file.").
Proof.
  intros H.
  assert (Hd : parseFile_dispatch (mkFile (stem ++ 46%N :: ext) type text) = Own PdfParser).
  { destruct H as [-> | [Ht He]].
    - apply dispatch_of_type. vm_compute. reflexivity.
    - apply (dispatch_of_extension stem ext type text (js "application/pdf") _ Ht).
      + rewrite He. vm_compute. reflexivity.
      + vm_compute. reflexivity. }
  rewrite (parseFile_own libs _ _ Hd). reflexivity.
Qed.

Lemma pdf_file_is_refused_witness :
  parseFile Scenario.bare_page
    (mkFile (js "5b.roster" ++ 46%N :: js "PDF") (js "application/x-unknown")
       (js "Maria Garcia"))
  = Failure
      (js "Failed to parse file: "
       ++ js "PDF files are not supported in the web version. Please convert to TXT, CSV, DOCX, or XLSX format. You can copy the text from the PDF and save it as a TXT file.").
Proof.
  apply (pdf_file_is_refused Scenario.bare_page (js "5b.roster") (js "PDF")
           (js "application/x-unknown") (js "Maria Garcia")).
  right. split; [right|]; vm_compute; reflexivity.
Defined.

(** X12.  A file that goes to the handler for DOCX fails with the message
    about the library when [mammoth] is not loaded, and with the message
    about a corrupted file when the text that [mammoth] extracts is blank;
    the message about missing text content is not what the user gets. *)
Theorem docx_without_library_or_text (file : File) :
  parseFile_dispatch file = Own DocxParser ->
  (forall libs,
     mammoth libs = None ->
     parseFile libs file
     = Failure
         (js "Failed to parse file: DOCX parsing failed: Library not loaded. Please refresh the page and try again, or convert your DOCX file to TXT format."))
  /\ (forall libs extractRawText value,
        mammoth libs = Some extractRawText ->
        extractRawText file = RawText value ->
        is_blank value = true ->
        parseFile libs file
        = Failure
            (js "Failed to parse file: DOCX parsing failed: File appears to be corrupted or in an unsupported format. Please try saving your document as a newer DOCX format or convert to TXT.")).
Proof.
  intros Hd. split.
  - intros libs Hm. rewrite (parseFile_own libs file _ Hd). simpl run.
    unfold parseDocxFile. rewrite Hm. vm_compute. reflexivity.
  - intros libs f value Hm Hf Hb. rewrite (parseFile_own libs file _ Hd). simpl run.
    unfold parseDocxFile. rewrite Hm, Hf, Hb. vm_compute. reflexivity.
Qed.

Lemma docx_without_library_or_text_witness :
  (forall libs,
     mammoth libs = None ->
     parseFile libs (mkFile (js "class.docx") [] [])
     = Failure
         (js "Failed to parse file: DOCX parsing failed: Library not loaded. Please refresh the page and try again, or convert your DOCX file to TXT format."))
  /\ (forall libs extractRawText value,
        mammoth libs = Some extractRawText ->
        extractRawText (mkFile (js "class.docx") [] []) = RawText value ->
        is_blank value = true ->
        parseFile libs (mkFile (js "class.docx") [] [])
        = Failure
            (js "Failed to parse file: DOCX parsing failed: File appears to be corrupted or in an unsupported format. Please try saving your document as a newer DOCX format or convert to TXT.")).
Proof.
  apply (docx_without_library_or_text (mkFile (js "class.docx") [] [])).
  vm_compute. reflexivity.
Defined.

(** X13.  A file that goes to the handler for XLSX fails when the library
    is not loaded, when the workbook has no sheet and when its first sheet
    is blank, each time with the cause between [Failed to parse XLSX file: ]
    and the advice to convert the file. *)
Theorem xlsx_without_library_or_data (file : File) :
  parseFile_dispatch file = Own XlsxParser ->
  (forall libs,
     XLSX libs = None ->
     parseFile libs file
     = Failure
         (js "Failed to parse file: Failed to parse XLSX file: XLSX parser not available. Please convert to CSV format.. Please try converting to CSV format."))
  /\ (forall libs read,
        XLSX libs = Some read ->
        read file = NoSheets ->
        parseFile libs file
        = Failure
            (js "Failed to parse file: Failed to parse XLSX file: No worksheets found in XLSX file. Please try converting to CSV format."))
  /\ (forall libs read csv,
        XLSX libs = Some read ->
        read file = FirstSheet csv ->
        is_blank csv = true ->
        parseFile libs file
        = Failure
            (js "Failed to parse file: Failed to parse XLSX file: No data found in XLSX worksheet. Please try converting to CSV format.")).
Proof.
  intros Hd. repeat split.
  - intros libs Hx. rewrite (parseFile_own libs file _ Hd). simpl run.
    unfold parseXlsxFile. rewrite Hx. vm_compute. reflexivity.
  - intros libs read Hx Hr. rewrite (parseFile_own libs file _ Hd). simpl run.
    unfold parseXlsxFile. rewrite Hx, Hr. vm_compute. reflexivity.
  - intros libs read csv Hx Hr Hb. rewrite (parseFile_own libs file _ Hd). simpl run.
    unfold parseXlsxFile. rewrite Hx, Hr, Hb. vm_compute. reflexivity.
Qed.

Lemma xlsx_without_library_or_data_witness :
  (forall libs,
     XLSX libs = None ->
     parseFile libs (mkFile (js "class.xls") [] [])
     = Failure
         (js "Failed to parse file: Failed to parse XLSX file: XLSX parser not available. Please convert to CSV format.. Please try converting to CSV format."))
  /\ (forall libs read,
        XLSX libs = Some read ->
        read (mkFile (js "class.xls") [] []) = NoSheets ->
        parseFile libs (mkFile (js "class.xls") [] [])
        = Failure
            (js "Failed to parse file: Failed to parse XLSX file: No worksheets found in XLSX file. Please try converting to CSV format."))
  /\ (forall libs read csv,
        XLSX libs = Some read ->
        read (mkFile (js "class.xls") [] []) = FirstSheet csv ->
        is_blank csv = true ->
        parseFile libs (mkFile (js "class.xls") [] [])
        = Failure
            (js "Failed to parse file: Failed to parse XLSX file: No data found in XLSX worksheet. Please try converting to CSV format.")).
Proof.
  apply (xlsx_without_library_or_data (mkFile (js "class.xls") [] [])).
  vm_compute. reflexivity.
Defined.

End ParsingMore.

(** ** More about file names, the archive and the batch *)

Module GeneratorMore.
Import JsString CertificateGenerator Predicates MorePredicates JsStringFacts.
Import GeneratorProps ExtractionMore.

(** *** File names *)

Lemma length_toLowerCase_filename s :
  (forall c, In c s -> (c =? 304)%N = false) ->
  length (toLowerCase s) = length s.
Proof.
  induction s as [|c s IH]; intros H; [reflexivity|].
  unfold toLowerCase in *. simpl. rewrite length_app, IH by (intros; apply H; right; auto).
  unfold lower_char. rewrite (H c (or_introl eq_refl)).
  destruct (in_range 65 90 c); [reflexivity|]. destruct (c =? 8490)%N; reflexivity.
Qed.

(** X14.  Whatever the name, the file name of its certificate is a stem and
    [_certificate.pdf], where the stem consists of small ASCII letters,
    digits, underscores and hyphens only and is not longer than the name. *)
Theorem createSafeFilename_is_safe (studentName : jsstring) :
  exists stem,
    createSafeFilename studentName = stem ++ js "_certificate.pdf"
    /\ Forall (fun c => is_safe_char c = true) stem
    /\ length stem <= length studentName.
Proof.
  unfold createSafeFilename. eexists. split; [reflexivity|].
  set (kept := List.filter is_filename_char studentName).
  assert (Hk : forall c, In c (replace_ws 95%N kept) ->
                 is_filename_char c = true /\ is_space c = false).
  { intros c Hc. apply replace_runs_chars in Hc as [->|[Hc Hs]]; [split; reflexivity|].
    apply filter_In in Hc as [_ Hc]. split; assumption. }
  split.
  - apply List.Forall_forall. intros d Hd. unfold toLowerCase in Hd.
    apply in_flat_map in Hd as (c & Hc & Hd). destruct (Hk c Hc) as [H1 H2].
    pose proof (filename_char_safe c H1 H2) as Hf. rewrite List.Forall_forall in Hf.
    apply (Hf d Hd).
  - rewrite length_toLowerCase_filename.
    + etransitivity; [apply length_replace_runs|]. apply List.filter_length_le.
    + intros c Hc. destruct (Hk c Hc) as [H1 _].
      destruct (c =? 304)%N eqn:E; [|reflexivity].
      apply N.eqb_eq in E. subst. discriminate H1.
Qed.

Lemma ascii_lower_letter c :
  in_range 65 90 c = true -> is_letter c = true /\ is_letter (c + 32)%N = true.
Proof. intros H. split; char_facts. Qed.

Lemma ascii_lower_filename_char c : is_filename_char (ascii_lower c) = is_filename_char c.
Proof.
  unfold ascii_lower. destruct (in_range 65 90 c) eqn:U; [|reflexivity].
  destruct (ascii_lower_letter c U) as [H1 H2]. unfold is_filename_char.
  rewrite H1, H2. reflexivity.
Qed.

Lemma ascii_lower_space c : is_space (ascii_lower c) = is_space c.
Proof.
  unfold ascii_lower. destruct (in_range 65 90 c) eqn:U; [|reflexivity].
  destruct (ascii_lower_letter c U) as [H1 H2].
  rewrite (letter_not_space _ H1), (letter_not_space _ H2). reflexivity.
Qed.

Lemma ascii_lower_lower_char c : lower_char (ascii_lower c) = lower_char c.
Proof.
  unfold ascii_lower. destruct (in_range 65 90 c) eqn:U; [|reflexivity].
  unfold lower_char. rewrite U.
  assert (in_range 65 90 (c + 32)%N = false) as -> by char_facts.
  assert ((c + 32 =? 304)%N = false) as -> by char_facts.
  assert ((c + 32 =? 8490)%N = false) as -> by char_facts.
  reflexivity.
Qed.

Lemma filter_ascii_lower s :
  List.filter is_filename_char (List.map ascii_lower s)
  = List.map ascii_lower (List.filter is_filename_char s).
Proof.
  induction s as [|c s IH]; simpl; [reflexivity|].
  rewrite ascii_lower_filename_char, IH. destruct (is_filename_char c); reflexivity.
Qed.

Lemma replace_runs_ascii_lower b s :
  replace_runs 95%N b (List.map ascii_lower s)
  = List.map ascii_lower (replace_runs 95%N b s).
Proof.
  revert b. induction s as [|c s IH]; intros b; simpl; [reflexivity|].
  rewrite ascii_lower_space. destruct (is_space c); [destruct b|]; simpl; rewrite IH;
    reflexivity.
Qed.

Lemma toLowerCase_ascii_lower s : toLowerCase (List.map ascii_lower s) = toLowerCase s.
Proof.
  unfold toLowerCase. induction s as [|c s IH]; simpl; [reflexivity|].
  rewrite ascii_lower_lower_char, IH. reflexivity.
Qed.

(** X15.  Two names that differ only in the case of ASCII letters, or only
    in code units that [createSafeFilename] removes, have the same file
    name. *)
Theorem createSafeFilename_ignores_case_and_punctuation (studentName : jsstring) :
  createSafeFilename (List.map ascii_lower studentName) = createSafeFilename studentName
  /\ createSafeFilename (List.filter is_filename_char studentName)
     = createSafeFilename studentName.
Proof.
  unfold createSafeFilename, replace_ws. split.
  - rewrite filter_ascii_lower, replace_runs_ascii_lower, toLowerCase_ascii_lower.
    reflexivity.
  - rewrite FileParserProps.filter_filter_and.
    rewrite (FileParserProps.filter_ext_chars _ is_filename_char); [reflexivity|].
    intros c. destruct (is_filename_char c); reflexivity.
Qed.

(** *** The archive *)

Section ArchiveMore.

Context {Bytes : Type}.

Local Abbreviation is_doc :=
  (fun kv : jsstring * entry Bytes => is_document (snd kv) = true).

Local Abbreviation added :=
  (fun (zip : gmap jsstring (entry Bytes)) (cert : Certificate Bytes) =>
     zip_file (filename cert) (Document (pdfBytes cert)) zip).

Lemma added_last (l : list (Certificate Bytes)) zip (k : jsstring) :
  Forall (fun cert => ~ In SLASH (filename cert)) l ->
  fold_left added l zip !! k
  = match lastNamed k l with
    | Some cert => Some (Document (pdfBytes cert))
    | None => zip !! k
    end.
Proof.
  unfold lastNamed. induction l as [|c l IH] using rev_ind; [reflexivity|].
  intros H. apply Forall_app in H as [Hl Hc]. inversion Hc; subst.
  rewrite fold_left_app, rev_app_distr. simpl. rewrite zip_file_plain by assumption.
  destruct (eqb (filename c) k) eqn:E.
  - apply eqb_eq in E. subst k. apply lookup_insert_eq.
  - apply eqb_neq in E. rewrite lookup_insert_ne by exact E. exact (IH Hl).
Qed.

Lemma added_bound (l : list (Certificate Bytes)) : forall zip,
  size (filter is_doc (fold_left added l zip)) <= length l + size (filter is_doc zip).
Proof.
  induction l as [|c l IH]; intros zip; simpl; [lia|].
  etransitivity; [apply IH|]. rewrite zip_file_documents.
  rewrite map_filter_insert_True by reflexivity. rewrite map_size_insert.
  destruct (filter is_doc zip !! filename c); simpl; lia.
Qed.

(** X16.  What the archive of [createZipFile] holds under a file name, when
    no successful certificate has a [/] in its file name, as is the case
    for the certificates of a batch: the summary under
    [certificate_summary.txt]; under any other name the document of the
    last successful certificate with that file name, and nothing when no
    successful certificate has it. *)
Theorem createZipFile_entries (now : jsstring) (certificates : list (Certificate Bytes))
  (name : jsstring) :
  Forall (fun cert => ~ In SLASH (filename cert)) (List.filter success certificates) ->
  createZipFile now certificates !! name
  = if eqb name (js "certificate_summary.txt")
    then Some (Summary (createSummaryText now certificates))
    else option_map (fun cert => Document (pdfBytes cert))
           (lastNamed name (List.filter success certificates)).
Proof.
  intros Hp. unfold createZipFile.
  rewrite zip_file_plain by (vm_compute; intuition discriminate).
  destruct (eqb name (js "certificate_summary.txt")) eqn:E.
  - apply eqb_eq in E. subst name. apply lookup_insert_eq.
  - apply eqb_neq in E. rewrite lookup_insert_ne by congruence.
    rewrite (added_last _ _ _ Hp), lookup_empty.
    destruct (lastNamed name (List.filter success certificates)); reflexivity.
Qed.

(** X17.  The archive of [createZipFile] never holds more documents than
    there are successful certificates. *)
Theorem createZipFile_document_bound (now : jsstring)
  (certificates : list (Certificate Bytes)) :
  documentCount (createZipFile now certificates)
  <= length (List.filter success certificates).
Proof.
  unfold documentCount, createZipFile. rewrite zip_file_documents.
  rewrite map_filter_insert_False by discriminate.
  rewrite map_filter_delete, map_size_delete.
  pose proof (added_bound (List.filter success certificates) ∅) as H.
  rewrite map_filter_empty, map_size_empty in H.
  destruct (filter is_doc _ !! _); simpl; lia.
Qed.

(** *** The summary *)

Lemma includes_flat_map (sub : jsstring) (f : Certificate Bytes -> jsstring) l c :
  In c l -> includes sub (f c) = true -> includes sub (flat_map f l) = true.
Proof.
  intros Hc Hf. induction l as [|d l IH]; [destruct Hc|]. simpl.
  destruct Hc as [->|Hc]; [apply includes_app_l, Hf | apply includes_app_r, (IH Hc)].
Qed.

Lemma filter_nonempty (p : Certificate Bytes -> bool) l c :
  In c (List.filter p l) -> (0 <? length (List.filter p l)) = true.
Proof. destruct (List.filter p l); [intros [] | reflexivity]. Qed.

(** X18.  The summary of a batch has a line for every certificate: a
    bullet, a space and the name of the student, which ends the line for a
    success and is followed by a colon for a failure. *)
Theorem createSummaryText_lists_every_certificate (now : jsstring)
  (certificates : list (Certificate Bytes)) :
  Forall (fun cert => includes (summaryLine cert) (createSummaryText now certificates) = true)
    certificates.
Proof.
  apply List.Forall_forall. intros c Hc. unfold createSummaryText. cbv zeta.
  do 14 apply includes_app_r. unfold summaryLine.
  destruct (success c) eqn:Hs.
  - assert (Hin : In c (List.filter success certificates))
      by (apply filter_In; split; assumption).
    apply includes_app_l. rewrite (filter_nonempty _ _ _ Hin).
    do 4 apply includes_app_r. apply includes_app_l.
    apply (includes_flat_map _ _ _ c Hin). cbv beta. apply includes_refl.
  - assert (Hin : In c (List.filter (fun cert => negb (success cert)) certificates))
      by (apply filter_In; split; [assumption | rewrite Hs; reflexivity]).
    apply includes_app_r. rewrite (filter_nonempty _ _ _ Hin).
    do 4 apply includes_app_r.
    apply (includes_flat_map _ _ _ c Hin). cbv beta iota.
    apply includes_prefix.
Qed.

End ArchiveMore.

Lemma createZipFile_entries_witness :
  Forall (fun cert : Certificate jsstring => ~ In SLASH (filename cert))
    (List.filter success Scenario.colliding_certificates)
  /\ createZipFile Scenario.summary_time Scenario.colliding_certificates
       !! js "ann_lee_certificate.pdf"
     = (if eqb (js "ann_lee_certificate.pdf") (js "certificate_summary.txt")
        then Some (Summary
                     (createSummaryText Scenario.summary_time
                        Scenario.colliding_certificates))
        else option_map (fun cert => Document (pdfBytes cert))
               (lastNamed (js "ann_lee_certificate.pdf")
                  (List.filter success Scenario.colliding_certificates))).
Proof.
  assert (H : Forall (fun cert : Certificate jsstring => ~ In SLASH (filename cert))
                (List.filter success Scenario.colliding_certificates)).
  { apply List.Forall_forall. intros c Hc. vm_compute in Hc.
    destruct Hc as [<-|[<-|[]]]; vm_compute; intuition discriminate. }
  split; [exact H|].
  apply (createZipFile_entries Scenario.summary_time Scenario.colliding_certificates
           (js "ann_lee_certificate.pdf") H).
Defined.

(** *** Room for the texts on the page *)

(** Where a text is drawn depends on its length only. *)
Lemma addText_length (text text' : jsstring) position pageWidth :
  length text = length text' ->
  centred text position pageWidth = centred text' position pageWidth
  /\ forall slack,
       within_margins slack text position pageWidth
       = within_margins slack text' position pageWidth.
Proof.
  intros H. unfold centred, within_margins, addText, getTextWidth. cbn [dt_x].
  rewrite H. split; reflexivity.
Qed.

(** A test of texts that depends on their length only, checked for the
    lengths up to 200. *)
Lemma by_length (f : jsstring -> bool) (g : nat -> bool) :
  (forall text, f text = f (repeat 65%N (length text))) ->
  forallb (fun n => Bool.eqb (f (repeat 65%N n)) (g n)) (seq 0 201) = true ->
  forall text, length text <= 200 -> f text = g (length text).
Proof.
  intros Hf Hall text Hlen. rewrite Hf. rewrite forallb_forall in Hall.
  apply Bool.eqb_prop, Hall, in_seq. lia.
Qed.

Lemma centred_by_length position pageWidth (most : nat) :
  forallb
    (fun n => Bool.eqb (centred (repeat 65%N n) position pageWidth) (n <=? most))
    (seq 0 201) = true ->
  forall text, length text <= 200 ->
    centred text position pageWidth = true <-> length text <= most.
Proof.
  intros Hall text Hlen. rewrite <- Nat.leb_le.
  rewrite (by_length (fun t => centred t position pageWidth) (fun n => n <=? most));
    [reflexivity | | exact Hall | exact Hlen].
  intros t. apply addText_length. rewrite repeat_length. reflexivity.
Qed.

Lemma within_margins_by_length slack position pageWidth (g : nat -> bool) :
  forallb
    (fun n => Bool.eqb (within_margins slack (repeat 65%N n) position pageWidth) (g n))
    (seq 0 201) = true ->
  forall text, length text <= 200 ->
    within_margins slack text position pageWidth = g (length text).
Proof.
  intros Hall text Hlen.
  apply (by_length (fun t => within_margins slack t position pageWidth) g);
    [ | exact Hall | exact Hlen].
  intros t. apply addText_length. rewrite repeat_length. reflexivity.
Qed.

(** X19.  On the page of 792 points and for a text of at most 200 code
    units, [addText] draws the text at the centred coordinate that it
    computes, the anchor of the field less half the estimated width,
    exactly when the text is short enough: a student name of at most 41
    code units, a school name of at most 59, a date of at most 69, the name
    of the volunteer of at most 85 and the name of the teacher of at most
    25.  A longer text is moved off its anchor by a margin. *)
Theorem texts_centred_up_to (text : jsstring) :
  length text <= 200 ->
  (centred text studentNamePos (JsNumber.of_Z 792) = true <-> length text <= 41)
  /\ (centred text schoolNamePos (JsNumber.of_Z 792) = true <-> length text <= 59)
  /\ (centred text datePos (JsNumber.of_Z 792) = true <-> length text <= 69)
  /\ (centred text jaVolunteerPos (JsNumber.of_Z 792) = true <-> length text <= 85)
  /\ (centred text teacherPos (JsNumber.of_Z 792) = true <-> length text <= 25).
Proof.
  intros Hlen.
  repeat split; apply centred_by_length; try exact Hlen; vm_compute; reflexivity.
Qed.

Lemma texts_centred_up_to_witness :
  (centred Scenario.thirty_letters studentNamePos (JsNumber.of_Z 792) = true
   <-> length Scenario.thirty_letters <= 41)
  /\ (centred Scenario.thirty_letters schoolNamePos (JsNumber.of_Z 792) = true
      <-> length Scenario.thirty_letters <= 59)
  /\ (centred Scenario.thirty_letters datePos (JsNumber.of_Z 792) = true
      <-> length Scenario.thirty_letters <= 69)
  /\ (centred Scenario.thirty_letters jaVolunteerPos (JsNumber.of_Z 792) = true
      <-> length Scenario.thirty_letters <= 85)
  /\ (centred Scenario.thirty_letters teacherPos (JsNumber.of_Z 792) = true
      <-> length Scenario.thirty_letters <= 25).
Proof. apply (texts_centred_up_to Scenario.thirty_letters). simpl. lia. Defined.

(** X20.  On the page of 792 points and for a text of at most 200 code
    units, with the exact values of the numbers that [addText] computes:
    the text starts at 50 or after it and ends at 742 or before it exactly
    when it is short enough, a student name of at most 59 code units, a
    school name of at most 85, a date of at most 99 and the name of the
    volunteer of at most 89; the name of the teacher does so when it has at
    most 89 code units and not 30, 34 or 35, the lengths for which rounding
    puts its end after 742, by less than a billionth of a point. *)
Theorem texts_within_margins_up_to (text : jsstring) :
  length text <= 200 ->
  (within_margins 0 text studentNamePos (JsNumber.of_Z 792) = true <-> length text <= 59)
  /\ (within_margins 0 text schoolNamePos (JsNumber.of_Z 792) = true
      <-> length text <= 85)
  /\ (within_margins 0 text datePos (JsNumber.of_Z 792) = true <-> length text <= 99)
  /\ (within_margins 0 text jaVolunteerPos (JsNumber.of_Z 792) = true
      <-> length text <= 89)
  /\ (within_margins 0 text teacherPos (JsNumber.of_Z 792) = true
      <-> length text <= 89 /\ ~ In (length text) [30; 34; 35])
  /\ (within_margins (1 # 1000000000) text teacherPos (JsNumber.of_Z 792) = true
      <-> length text <= 89).
Proof.
  intros Hlen.
  assert (G : forall slack position most,
            forallb
              (fun n =>
                 Bool.eqb
                   (within_margins slack (repeat 65%N n) position (JsNumber.of_Z 792))
                   (n <=? most))
              (seq 0 201) = true ->
            within_margins slack text position (JsNumber.of_Z 792) = true
            <-> length text <= most).
  { intros slack position most Hall. rewrite <- Nat.leb_le.
    rewrite (within_margins_by_length slack position _ (fun n => n <=? most) Hall text Hlen).
    reflexivity. }
  split; [apply G; vm_compute; reflexivity|].
  split; [apply G; vm_compute; reflexivity|].
  split; [apply G; vm_compute; reflexivity|].
  split; [apply G; vm_compute; reflexivity|].
  split; [|apply G; vm_compute; reflexivity].
  assert (T : forallb
                (fun n =>
                   Bool.eqb
                     (within_margins 0 (repeat 65%N n) teacherPos (JsNumber.of_Z 792))
                     ((n <=? 89) && negb (existsb (Nat.eqb n) [30; 34; 35])))
                (seq 0 201) = true) by (vm_compute; reflexivity).
  rewrite (within_margins_by_length 0 teacherPos (JsNumber.of_Z 792)
             (fun n => (n <=? 89) && negb (existsb (Nat.eqb n) [30; 34; 35]))
             T text Hlen).
  rewrite andb_true_iff, negb_true_iff, Nat.leb_le.
  split; intros [H1 H2]; (split; [exact H1|]).
  - intros Hin. assert (E : existsb (Nat.eqb (length text)) [30; 34; 35] = true);
      [|congruence].
    apply existsb_exists. exists (length text). split; [exact Hin | apply Nat.eqb_refl].
  - destruct (existsb (Nat.eqb (length text)) [30; 34; 35]) eqn:E; [|reflexivity].
    apply existsb_exists in E as (k & Hk & E). apply Nat.eqb_eq in E. subst k.
    contradiction.
Qed.

Lemma texts_within_margins_up_to_witness :
  (within_margins 0 Scenario.thirty_letters studentNamePos (JsNumber.of_Z 792) = true
   <-> length Scenario.thirty_letters <= 59)
  /\ (within_margins 0 Scenario.thirty_letters schoolNamePos (JsNumber.of_Z 792) = true
      <-> length Scenario.thirty_letters <= 85)
  /\ (within_margins 0 Scenario.thirty_letters datePos (JsNumber.of_Z 792) = true
      <-> length Scenario.thirty_letters <= 99)
  /\ (within_margins 0 Scenario.thirty_letters jaVolunteerPos (JsNumber.of_Z 792) = true
      <-> length Scenario.thirty_letters <= 89)
  /\ (within_margins 0 Scenario.thirty_letters teacherPos (JsNumber.of_Z 792) = true
      <-> length Scenario.thirty_letters <= 89
          /\ ~ In (length Scenario.thirty_letters) [30; 34; 35])
  /\ (within_margins (1 # 1000000000) Scenario.thirty_letters teacherPos
        (JsNumber.of_Z 792) = true
      <-> length Scenario.thirty_letters <= 89).
Proof. apply (texts_within_margins_up_to Scenario.thirty_letters). simpl. lia. Defined.

(** *** The callback *)

Section CallbackMore.

Context {World Bytes CertificateInfo Value : Type}.
Variable generateCertificate :
  jsstring -> CertificateInfo -> World -> World * (Bytes + jsstring).
Variable percentageOf : nat -> nat -> Z.

Local Abbreviation bulkItem :=
  (bulkItem (Value := Value) generateCertificate percentageOf).
Local Abbreviation bulkFrom :=
  (bulkFrom (Value := Value) generateCertificate percentageOf).

(** A turn with a callback calls it first, and then renders the name or
    does not. *)
Lemma bulkItem_calls (f : callback World Value) i total name info w :
  exists w1 cert rest,
    bulkItem i total name info (Some f) w
    = (w1, cert,
       ProgressCall (mkProgress (i + 1) total name (percentageOf (i + 1) total)) :: rest)
    /\ progressCalls rest = [].
Proof.
  unfold CertificateGenerator.bulkItem.
  destruct (f _ w) as [w' [v|m]].
  - destruct (generateCertificate name info w') as [w2 r].
    eexists _, _, _. split; reflexivity.
  - eexists _, _, _. split; reflexivity.
Qed.

Lemma bulkFrom_progress (f : callback World Value) names : forall i total info w,
  progressCalls (callsOf (bulkFrom i total names info (Some f) w))
  = List.map
      (fun '(i, name) => mkProgress (i + 1) total name (percentageOf (i + 1) total))
      (combine (seq i (length names)) names).
Proof.
  unfold callsOf, progressCalls.
  induction names as [|name rest IH]; intros i total info w; simpl; [reflexivity|].
  destruct (bulkItem_calls f i total name info w) as (w1 & cert & evs & E & Hevs).
  rewrite E. specialize (IH (S i) total info w1).
  destruct (bulkFrom (S i) total rest info (Some f) w1) as [[w2 certs] evs'].
  simpl in *. rewrite List.flat_map_app. unfold progressCalls in Hevs.
  rewrite Hevs, IH. reflexivity.
Qed.

(** A turn with a callback that throws fails the name without rendering
    it. *)
Lemma bulkItem_thrown (f : callback World Value) i total name info w :
  always_throws f ->
  exists w1 message,
    bulkItem i total name info (Some f) w
    = (w1, failed name message,
       [ProgressCall (mkProgress (i + 1) total name (percentageOf (i + 1) total))]).
Proof.
  intros Hf. unfold CertificateGenerator.bulkItem.
  destruct (Hf (mkProgress (i + 1) total name (percentageOf (i + 1) total)) w)
    as (w' & m & E).
  rewrite E. eexists _, _. reflexivity.
Qed.

Lemma bulkFrom_thrown (f : callback World Value) names :
  always_throws f -> forall i total info w,
  renderedNames (callsOf (bulkFrom i total names info (Some f) w)) = []
  /\ List.filter success (certificatesOf (bulkFrom i total names info (Some f) w)) = []
  /\ List.map studentName (certificatesOf (bulkFrom i total names info (Some f) w))
     = names.
Proof.
  intros Hf. unfold callsOf, certificatesOf, renderedNames.
  induction names as [|name rest IH]; intros i total info w; simpl; [auto|].
  destruct (bulkItem_thrown f i total name info w Hf) as (w1 & m & E).
  rewrite E. specialize (IH (S i) total info w1).
  destruct (bulkFrom (S i) total rest info (Some f) w1) as [[w2 certs] evs'].
  simpl in *. destruct IH as (IH1 & IH2 & IH3). rewrite IH1, IH2, IH3. auto.
Qed.

End CallbackMore.

(** X21.  Whatever the callback does, return or throw, and whatever it does
    to the state that rendering works on, [generateBulkCertificates] calls
    it once for each name, in the order of the names, with the index from
    one, the number of names, the name and the percentage. *)
Theorem progress_reports_for_every_name {World Bytes CertificateInfo Value : Type}
  (generateCertificate : jsstring -> CertificateInfo -> World -> World * (Bytes + jsstring))
  (percentageOf : nat -> nat -> Z) (f : callback World Value)
  (names : list jsstring) (info : CertificateInfo) (w : World) :
  progressCalls
    (callsOf (generateBulkCertificates generateCertificate percentageOf names info
                (Some f) w))
  = progressReports percentageOf names.
Proof. unfold generateBulkCertificates, progressReports. apply bulkFrom_progress. Qed.

(** X22.  With a callback that throws whenever it is called, no name is
    rendered: every name gets an entry, every entry is a failure, and the
    archive of the batch holds no document. *)
Theorem throwing_callback_fails_every_name {World Bytes CertificateInfo Value : Type}
  (generateCertificate : jsstring -> CertificateInfo -> World -> World * (Bytes + jsstring))
  (percentageOf : nat -> nat -> Z) (f : callback World Value)
  (names : list jsstring) (info : CertificateInfo) (w : World) (now : jsstring) :
  always_throws f ->
  let batch :=
    generateBulkCertificates generateCertificate percentageOf names info (Some f) w in
  renderedNames (callsOf batch) = []
  /\ List.map studentName (certificatesOf batch) = names
  /\ Forall (fun cert => success cert = false) (certificatesOf batch)
  /\ documentCount (createZipFile now (certificatesOf batch)) = 0.
Proof.
  intros Hf batch.
  destruct (bulkFrom_thrown generateCertificate percentageOf f names Hf 0 (length names)
              info w) as (H1 & H2 & H3).
  fold (generateBulkCertificates generateCertificate percentageOf names info (Some f) w)
    in H1, H2, H3.
  fold batch in H1, H2, H3.
  split; [exact H1|]. split; [exact H3|]. split.
  - apply List.Forall_forall. intros c Hc.
    destruct (success c) eqn:E; [|reflexivity].
    assert (Hin : In c (List.filter success (certificatesOf batch)))
      by (apply filter_In; split; assumption).
    rewrite H2 in Hin. destruct Hin.
  - unfold documentCount, createZipFile. rewrite H2. simpl fold_left.
    rewrite zip_file_documents, map_filter_insert_False by discriminate.
    rewrite delete_empty, map_filter_empty. apply map_size_empty.
Qed.

Lemma throwing_callback_fails_every_name_witness :
  let batch :=
    generateBulkCertificates Scenario.render_all Scenario.percentage_exact
      [js "Ann Lee"; js "Bo Chen"] tt (Some Scenario.throwing_callback) tt in
  renderedNames (callsOf batch) = []
  /\ List.map studentName (certificatesOf batch) = [js "Ann Lee"; js "Bo Chen"]
  /\ Forall (fun cert => success cert = false) (certificatesOf batch)
  /\ documentCount (createZipFile Scenario.summary_time (certificatesOf batch)) = 0.
Proof.
  apply (throwing_callback_fails_every_name Scenario.render_all Scenario.percentage_exact
           Scenario.throwing_callback [js "Ann Lee"; js "Bo Chen"] tt tt
           Scenario.summary_time).
  intros p w. exists w, (js "progress bar is gone"). reflexivity.
Defined.

End GeneratorMore.

(** ** The list of names and the form of the application *)

Module AppMore.
Import JsString FileParser FileParserIO CertificateGenerator CertificateDrawing.
Import CertificateApp Predicates MorePredicates JsStringFacts NameValidity.
Import ExtractionMore ParsingMore.

(** *** The list of names *)

Lemma words_heads name :
  length (List.filter truthy (split_ws name)) = length (word_heads true name).
Proof. rewrite length_heads_truthy, heads_split_ws. reflexivity. Qed.

Lemma entered_presentable name :
  trim name = name -> CertificateApp.isValidName name = true -> presentable name.
Proof.
  intros Ht Hv. unfold CertificateApp.isValidName in Hv.
  apply andb_true_iff in Hv as [Hv Hl]. apply andb_true_iff in Hv as [_ Hw].
  apply Nat.leb_le in Hw, Hl. rewrite words_heads in Hw.
  split; [exact Ht|]. split; assumption.
Qed.

Lemma parsed_presentable name :
  FileParser.isValidName name = true -> cleanName name = name -> presentable name.
Proof.
  intros Hv Hf. destruct (valid_normal_form name Hv) as (Ht & _).
  rewrite Hf in Ht. apply isValidName_conditions in Hv as [_ [Vl _ _ Vw _ _]].
  rewrite (tidy_trim _ Ht) in Vl, Vw.
  split; [apply (tidy_trim _ Ht)|]. split; [exact Vw | lia].
Qed.

Lemma removed_split (l : list jsstring) n :
  n < length l -> exists a, l = firstn n l ++ a :: skipn (S n) l.
Proof.
  revert n. induction l as [|x l IH]; intros n Hn; [simpl in Hn; lia|].
  destruct n as [|n]; [exists x; reflexivity|].
  simpl in Hn. destruct (IH n ltac:(lia)) as [a E]. exists a.
  simpl. f_equal. exact E.
Qed.

Lemma removeName_sublist l index x : In x (removeName l index) -> In x l.
Proof.
  unfold removeName. destruct (_ && _); [|auto].
  intros H. apply in_app_iff in H as [H|H].
  - rewrite <- (firstn_skipn (Z.to_nat index) l). apply in_app_iff. left. exact H.
  - rewrite <- (firstn_skipn (S (Z.to_nat index)) l). apply in_app_iff. right. exact H.
Qed.

Lemma removeName_NoDup l index : NoDup l -> NoDup (removeName l index).
Proof.
  intros Hn. unfold removeName.
  destruct ((0 <=? index)%Z && (index <? Z.of_nat (length l))%Z) eqn:E; [|exact Hn].
  apply andb_true_iff in E as [E1 E2]. apply Z.leb_le in E1. apply Z.ltb_lt in E2.
  destruct (removed_split l (Z.to_nat index) ltac:(lia)) as [a Ea].
  rewrite Ea in Hn. apply NoDup_ListNoDup in Hn. apply List.NoDup_remove_1 in Hn.
  apply NoDup_ListNoDup. exact Hn.
Qed.

Lemma addName_NoDup l value : NoDup l -> NoDup (fst (addName l value)).
Proof.
  intros Hn. unfold addName. destruct (negb (truthy (trim value))); [exact Hn|].
  destruct (existsb (eqb (trim value)) l) eqn:E; [exact Hn|].
  destruct (negb (CertificateApp.isValidName (trim value))); [exact Hn|].
  simpl. apply NoDup_app. split; [exact Hn|]. split.
  - intros x Hx Hx'. rewrite list_elem_of_In in Hx, Hx'. destruct Hx' as [<-|[]].
    apply existsb_eqb_In in Hx. congruence.
  - apply NoDup_singleton.
Qed.

Lemma addName_presentable l value :
  Forall presentable l -> Forall presentable (fst (addName l value)).
Proof.
  intros Hp. unfold addName. destruct (negb (truthy (trim value))); [exact Hp|].
  destruct (existsb (eqb (trim value)) l); [exact Hp|].
  destruct (CertificateApp.isValidName (trim value)) eqn:Hv; [|exact Hp].
  simpl. apply Forall_app. split; [exact Hp|]. constructor; [|constructor].
  apply entered_presentable; [apply trim_idempotent | exact Hv].
Qed.

Lemma act_keeps l a :
  names_or_nothing a -> NoDup l /\ Forall presentable l ->
  NoDup (act l a) /\ Forall presentable (act l a).
Proof.
  intros Ha [Hn Hp]. destruct a as [libs file|value|index|]; simpl.
  - simpl in Ha. destruct (parseFile libs file) as [names|value|m] eqn:E; simpl.
    + destruct (parseFile_names libs file names E) as [H1 H2].
      split; [exact H1|]. apply List.Forall_forall. intros y Hy.
      destruct (H2 y Hy). apply parsed_presentable; assumption.
    + destruct value; [auto | congruence | auto..].
    + auto.
  - split; [apply addName_NoDup, Hn | apply addName_presentable, Hp].
  - split; [apply removeName_NoDup, Hn|].
    apply List.Forall_forall. intros x Hx. rewrite List.Forall_forall in Hp.
    apply Hp, (removeName_sublist l index x Hx).
  - split; constructor.
Qed.

(** X23.  Whatever files are uploaded and whatever names are added and
    removed by hand, in any order, the list of names of the application has
    no name twice, and each of its names is without white space around it,
    has two words or more and at most 100 code units, as long as no file is
    uploaded for which [parseFile] gives the text [[object Object]] in the
    place of names. *)
Theorem session_keeps_names_distinct (actions : list action) :
  Forall names_or_nothing actions ->
  NoDup (session [] actions) /\ Forall presentable (session [] actions).
Proof.
  assert (G : forall start, Forall names_or_nothing actions ->
                NoDup start /\ Forall presentable start ->
                NoDup (session start actions)
                /\ Forall presentable (session start actions)).
  { unfold session. induction actions as [|a rest IH]; intros start Ha Hs; simpl.
    - exact Hs.
    - inversion Ha; subst. apply IH; [assumption|]. apply act_keeps; assumption. }
  intros Ha. apply G; [exact Ha|]. split; constructor.
Qed.

Lemma session_keeps_names_distinct_witness :
  session []
    [ Add (js "Cy Young");
      Reset;
      Upload Scenario.bare_page
        (mkFile (js "class.txt") (js "text/plain") Scenario.repeated_lines);
      Add (js " Ann Lee ");
      Add (js "Ann Lee");
      Remove 1%Z;
      Add (js "Bo") ]
  = [js "Maria Garcia"; js "Ann Lee"]
  /\ NoDup [js "Maria Garcia"; js "Ann Lee"]
  /\ Forall presentable [js "Maria Garcia"; js "Ann Lee"].
Proof.
  split; [vm_compute; reflexivity|].
  apply (session_keeps_names_distinct
           [ Add (js "Cy Young");
             Reset;
             Upload Scenario.bare_page
               (mkFile (js "class.txt") (js "text/plain") Scenario.repeated_lines);
             Add (js " Ann Lee ");
             Add (js "Ann Lee");
             Remove 1%Z;
             Add (js "Bo") ]).
  repeat (constructor; try exact I). intros H. vm_compute in H. discriminate H.
Defined.

(** A file of the type [toString] puts the fifteen characters of
    [[object Object]] in the place of the names, two of them twice, and a
    file of the type [constructor] leaves the list as it is. *)
Lemma upload_of_inherited_type :
  session [js "Ann Lee"] [Upload Scenario.bare_page (mkFile (js "x.txt") (js "toString") [])]
  = List.map (fun c => [c]) (js "[object Object]")
  /\ ~ NoDup (session [js "Ann Lee"]
                [Upload Scenario.bare_page (mkFile (js "x.txt") (js "toString") [])])
  /\ session [js "Ann Lee"]
       [Upload Scenario.bare_page (mkFile (js "x.txt") (js "constructor") [])]
     = [js "Ann Lee"].
Proof.
  split; [vm_compute; reflexivity|]. split; [|vm_compute; reflexivity].
  intros H. apply (bool_decide_pack _) in H. vm_compute in H. exact H.
Qed.

Lemma addName_cases l value :
  (snd (addName l value) = Added
   /\ fst (addName l value) = l ++ [trim value]
   /\ truthy (trim value) = true
   /\ existsb (eqb (trim value)) l = false)
  \/ (snd (addName l value) <> Added /\ fst (addName l value) = l).
Proof.
  unfold addName. destruct (truthy (trim value)); [|right; split; [discriminate|reflexivity]].
  destruct (existsb (eqb (trim value)) l); [right; split; [discriminate|reflexivity]|].
  destruct (CertificateApp.isValidName (trim value));
    [left; auto | right; split; [discriminate|reflexivity]].
Qed.

(** X24.  Adding a name by hand twice is adding it once; and when a name
    is added, it is the trimmed text at the end of the list, and removing
    the last index gives the list back. *)
Theorem addName_once_and_undone (studentNames : list jsstring) (value : jsstring) :
  fst (addName (fst (addName studentNames value)) value) = fst (addName studentNames value)
  /\ (snd (addName studentNames value) = Added ->
      fst (addName studentNames value) = studentNames ++ [trim value]
      /\ removeName (fst (addName studentNames value)) (Z.of_nat (length studentNames))
         = studentNames).
Proof.
  destruct (addName_cases studentNames value) as [(Ha & Hl & Ht & He)|[Hn Hl]].
  - rewrite Hl. split.
    + unfold addName. rewrite Ht, existsb_app. simpl. rewrite eqb_refl.
      simpl. rewrite orb_true_r. reflexivity.
    + intros _. split; [reflexivity|].
      unfold removeName. rewrite length_app. simpl.
      assert ((0 <=? Z.of_nat (length studentNames))%Z
              && (Z.of_nat (length studentNames)
                  <? Z.of_nat (length studentNames + 1))%Z = true) as ->.
      { apply andb_true_iff. split; [apply Z.leb_le | apply Z.ltb_lt]; lia. }
      rewrite Nat2Z.id, firstn_app, Nat.sub_diag, firstn_all. simpl. rewrite app_nil_r.
      rewrite skipn_all2; [apply app_nil_r | rewrite length_app; simpl; lia].
  - rewrite Hl. split; [exact Hl | intros H; contradiction].
Qed.

(** *** Names from a file, entered by hand *)

Lemma normal_entry_char c :
  is_normal_char c = true -> is_entry_char c = is_plain c.
Proof.
  unfold is_normal_char, is_entry_char, is_plain. intros H.
  destruct (is_letter c) eqn:El.
  - rewrite (letter_not_digit c El).
    assert ((c =? 95)%N = false) as -> by (clear H; char_facts). reflexivity.
  - destruct (is_digit c) eqn:Ed; simpl.
    + rewrite (digit_not_space c Ed).
      assert ((c =? 45)%N = false) as -> by (clear H; char_facts).
      assert ((c =? 39)%N = false) as -> by (clear H; char_facts).
      assert ((c =? 46)%N = false) as -> by (clear H; char_facts). reflexivity.
    + simpl in H. destruct (N.eqb_spec c 95) as [->|N95]; [reflexivity|].
      simpl in H. destruct (N.eqb_spec c SPACE) as [->|N32]; [reflexivity|].
      simpl in H. destruct (N.eqb_spec c 39) as [->|N39]; [reflexivity|].
      simpl in H. apply N.eqb_eq in H. subst c. reflexivity.
Qed.

(** X25.  A name that the parser returns can be entered by hand exactly
    when it has no digit and no underscore: [isValidName] of the
    application accepts it then, and rejects it otherwise. *)
Theorem parsed_name_entered_by_hand (name : jsstring) :
  FileParser.isValidName name = true -> cleanName name = name ->
  CertificateApp.isValidName name = forallb is_plain name.
Proof.
  intros Hv Hf.
  destruct (valid_normal_shape name Hv Hf) as (Hlen & _ & _ & _ & _ & Hchars).
  destruct (parsed_presentable name Hv Hf) as (_ & Hw & _).
  unfold CertificateApp.isValidName, namePattern. rewrite words_heads.
  assert (forallb is_entry_char name = forallb is_plain name) as ->.
  { clear -Hchars. induction Hchars as [|c l Hc _ IH]; [reflexivity|].
    simpl. rewrite (normal_entry_char c Hc), IH. reflexivity. }
  assert ((2 <=? length name) = true) as -> by (apply Nat.leb_le; lia).
  assert ((2 <=? length (word_heads true name)) = true) as -> by (apply Nat.leb_le; lia).
  assert ((length name <=? 100) = true) as -> by (apply Nat.leb_le; lia).
  rewrite !andb_true_r. reflexivity.
Qed.

Lemma parsed_name_entered_by_hand_witness :
  CertificateApp.isValidName (js "Maria Garcia2") = forallb is_plain (js "Maria Garcia2").
Proof.
  apply (parsed_name_entered_by_hand (js "Maria Garcia2")); vm_compute; reflexivity.
Defined.

(** *** The form *)

Lemma key_neq (a b : jsstring) : eqb a b = false -> a <> b.
Proof. apply eqb_neq. Qed.

Lemma info_schoolName form :
  getCertificateInfo form !! js "schoolName" = Some (Some (trim (schoolName form))).
Proof. unfold getCertificateInfo, list_to_map, Info. cbn [foldr fst snd uncurry]. apply lookup_insert_eq. Qed.

Lemma info_jaVolunteer form :
  getCertificateInfo form !! js "jaVolunteer" = Some (trimmed_or_null (jaVolunteer form)).
Proof.
  unfold getCertificateInfo, list_to_map, Info. cbn [foldr fst snd uncurry].
  rewrite !lookup_insert_ne by (apply key_neq; reflexivity). apply lookup_insert_eq.
Qed.

Lemma info_date form :
  getCertificateInfo form !! js "date" = Some (Some (certificateDate form)).
Proof.
  unfold getCertificateInfo, list_to_map, Info. cbn [foldr fst snd uncurry].
  rewrite !lookup_insert_ne by (apply key_neq; reflexivity). apply lookup_insert_eq.
Qed.

Lemma info_teacher form : getCertificateInfo form !! js "teacher" = None.
Proof.
  unfold getCertificateInfo, list_to_map, Info. cbn [foldr fst snd uncurry].
  rewrite !lookup_insert_ne by (apply key_neq; reflexivity). apply lookup_empty.
Qed.

(** X26.  For the information that [getCertificateInfo] reads from the
    form, [generateCertificate] draws the name of the student, the trimmed
    name of the school, the formatted date and the trimmed name of the
    volunteer, each when it is not empty, and nothing else: the name of the
    teacher, which the form gives as [teacherName] and the generator reads
    as [teacher], is never drawn. *)
Theorem teacher_is_never_drawn (formatDate : jsstring -> jsstring)
  (studentName : jsstring) (form : Form) (width : JsNumber.number) :
  certificateTexts formatDate studentName (getCertificateInfo form) width
  = addText studentName studentNamePos width
    :: (if truthy (trim (schoolName form))
        then [addText (trim (schoolName form)) schoolNamePos width] else [])
    ++ (if truthy (certificateDate form)
        then [addText (formatDate (certificateDate form)) datePos width] else [])
    ++ (if truthy (trim (jaVolunteer form))
        then [addText (trim (jaVolunteer form)) jaVolunteerPos width] else []).
Proof.
  unfold certificateTexts, field.
  rewrite info_schoolName, info_date, info_jaVolunteer, info_teacher.
  unfold trimmed_or_null. rewrite app_nil_r.
  destruct (truthy (trim (schoolName form))), (truthy (certificateDate form)),
    (truthy (trim (jaVolunteer form))) eqn:E; try rewrite E; reflexivity.
Qed.

End AppMore.
